(** * CryptoSensei: the technical-indicator and strategy-scoring engine

    A shallow embedding of [src/services/analysis.ts] (both variants of the
    analysis service) and of [src/services/strategy/strategyGenerator.ts],
    followed by the properties of the specification that concern them.

    Numbers.  A JavaScript [number] is modelled by [JS.num]: a real number,
    [NaN], [+Infinity] or [-Infinity].  The special values follow IEEE 754 as
    ECMAScript prescribes ([0/0 = NaN], [x/0 = +-Infinity],
    [Infinity - Infinity = NaN], every comparison with [NaN] is false, ...).
    Finite arithmetic is exact: rounding to binary64, overflow of finite
    results and the sign of zero are not modelled.  [Math.log] and
    [Math.sqrt] are the real logarithm and square root on their domains.

    Other values.  Arrays are lists; a read out of range gives [undefined],
    which arithmetic turns into [NaN].  The [any]-typed arguments of the
    strategy generator are records whose objects and fields may be absent
    ([None] for [undefined]); reading a property of an absent object is a
    [TypeError].  An [async] function returns how its promise settles.
    Template literals are kept as lists of pieces instead of being printed,
    and [toLowerCase] acts on ASCII letters.

    Layout.  The embedding of the source comes first (modules [JS], [Arr],
    [Analysis], [AnalysisGemini], [StrategyGenerator]), then the
    definitions that follow the specification's words (module [Spec]), then
    the lemmas and the theorems, one section per component. *)

From Stdlib Require Import String Ascii Reals Lra Lia ZArith Bool Arith List.
From Stdlib Require Import Sorting.Sorted.
Import ListNotations.

Local Open Scope R_scope.

(* ================================================================== *)
(** * JavaScript numbers and the [Math] built-ins the code uses        *)
(* ================================================================== *)

Module JS.

Inductive num : Type :=
| NaN
| PInf
| NInf
| Fin (r : R).

Definition Rltb (x y : R) : bool := if Rlt_dec x y then true else false.
Definition Rleb (x y : R) : bool := if Rle_dec x y then true else false.
Definition Reqb (x y : R) : bool := if Req_dec_T x y then true else false.

(** Unary minus. *)
Definition neg (a : num) : num :=
  match a with
  | NaN => NaN
  | PInf => NInf
  | NInf => PInf
  | Fin r => Fin (- r)
  end.

Definition add (a b : num) : num :=
  match a, b with
  | NaN, _ | _, NaN => NaN
  | PInf, NInf | NInf, PInf => NaN
  | PInf, _ | _, PInf => PInf
  | NInf, _ | _, NInf => NInf
  | Fin x, Fin y => Fin (x + y)
  end.

Definition sub (a b : num) : num := add a (neg b).

(** An infinity times a finite factor: the factor's sign decides, and
    [Infinity * 0] is [NaN]. *)
Definition scale_inf (positive : bool) (x : R) : num :=
  if Rltb 0 x then (if positive then PInf else NInf)
  else if Rltb x 0 then (if positive then NInf else PInf)
  else NaN.

Definition mul (a b : num) : num :=
  match a, b with
  | NaN, _ | _, NaN => NaN
  | Fin x, Fin y => Fin (x * y)
  | Fin x, PInf | PInf, Fin x => scale_inf true x
  | Fin x, NInf | NInf, Fin x => scale_inf false x
  | PInf, PInf | NInf, NInf => PInf
  | PInf, NInf | NInf, PInf => NInf
  end.

Definition div (a b : num) : num :=
  match a, b with
  | NaN, _ | _, NaN => NaN
  | Fin x, Fin y =>
      if Reqb y 0 then scale_inf true x else Fin (x / y)
  | Fin _, PInf | Fin _, NInf => Fin 0
  | PInf, Fin y => if Rltb y 0 then NInf else PInf
  | NInf, Fin y => if Rltb y 0 then PInf else NInf
  | _, _ => NaN
  end.

(** [a < b]; false as soon as one side is [NaN]. *)
Definition ltb (a b : num) : bool :=
  match a, b with
  | NaN, _ | _, NaN => false
  | Fin x, Fin y => Rltb x y
  | _, NInf => false
  | NInf, _ => true
  | PInf, _ => false
  | _, PInf => true
  end.

(** [a <= b]; false as soon as one side is [NaN]. *)
Definition leb (a b : num) : bool :=
  match a, b with
  | NaN, _ | _, NaN => false
  | Fin x, Fin y => Rleb x y
  | NInf, _ => true
  | _, PInf => true
  | _, _ => false
  end.

Definition gtb (a b : num) : bool := ltb b a.
Definition geb (a b : num) : bool := leb b a.

(** [a === b] on numbers. *)
Definition strict_eq (a b : num) : bool :=
  match a, b with
  | Fin x, Fin y => Reqb x y
  | PInf, PInf | NInf, NInf => true
  | _, _ => false
  end.

(** [isNaN(x)] and [Number.isFinite(x)]. *)
Definition isNaN (a : num) : bool :=
  match a with NaN => true | _ => false end.

Definition Number_isFinite (a : num) : bool :=
  match a with Fin _ => true | _ => false end.

(** ToBoolean on a number: [0] and [NaN] are falsy. *)
Definition truthy (a : num) : bool :=
  match a with
  | NaN => false
  | Fin r => negb (Reqb r 0)
  | _ => true
  end.

Definition Math_abs (a : num) : num :=
  match a with
  | NaN => NaN
  | PInf | NInf => PInf
  | Fin r => Fin (Rabs r)
  end.

(** [Math.max] and [Math.min] of two arguments: [NaN] is contagious. *)
Definition Math_max (a b : num) : num :=
  match a, b with
  | NaN, _ | _, NaN => NaN
  | _, _ => if ltb a b then b else a
  end.

Definition Math_min (a b : num) : num :=
  match a, b with
  | NaN, _ | _, NaN => NaN
  | _, _ => if ltb b a then b else a
  end.

Definition Math_sqrt (a : num) : num :=
  match a with
  | NaN | NInf => NaN
  | PInf => PInf
  | Fin r => if Rltb r 0 then NaN else Fin (sqrt r)
  end.

Definition Math_log (a : num) : num :=
  match a with
  | NaN | NInf => NaN
  | PInf => PInf
  | Fin r => if Rltb r 0 then NaN else if Reqb r 0 then NInf else Fin (ln r)
  end.

Definition Math_floor (a : num) : num :=
  match a with
  | Fin r => Fin (IZR (Int_part r))
  | _ => a
  end.

(** [Math.round]: the nearest integer, ties towards [+Infinity]. *)
Definition Math_round (a : num) : num :=
  match a with
  | Fin r => Fin (IZR (Int_part (r + / 2)))
  | _ => a
  end.

(** [Math.pow(x, k)] for a literal exponent [k = 0, 1, 2, ...]. *)
Fixpoint Math_pow (a : num) (k : nat) : num :=
  match k with
  | O => Fin 1
  | S O => a
  | S k' => mul a (Math_pow a k')
  end.

(** [Number(x.toFixed(d))]: [x] rounded to [d] decimals, ties away from
    zero; [NaN] and the infinities print and parse back as themselves. *)
Definition toFixed (d : nat) (a : num) : num :=
  match a with
  | Fin r =>
      let scaled := IZR (Int_part (Rabs r * 10 ^ d + / 2)) / 10 ^ d in
      Fin (if Rltb r 0 then - scaled else scaled)
  | _ => a
  end.

(** The number of elements of an array, as a [number]. *)
Definition of_nat (n : nat) : num := Fin (INR n).

End JS.

Import JS.
Coercion JS.Fin : R >-> JS.num.

Declare Scope js_scope.
Delimit Scope js_scope with js.
Notation "a [+] b" := (JS.add a b) (at level 50, left associativity) : js_scope.
Notation "a [-] b" := (JS.sub a b) (at level 50, left associativity) : js_scope.
Notation "a [*] b" := (JS.mul a b) (at level 40, left associativity) : js_scope.
Notation "a [/] b" := (JS.div a b) (at level 40, left associativity) : js_scope.
Notation "a [<] b" := (JS.ltb a b) (at level 70, no associativity) : js_scope.
Notation "a [<=] b" := (JS.leb a b) (at level 70, no associativity) : js_scope.
Notation "a [>] b" := (JS.gtb a b) (at level 70, no associativity) : js_scope.
Notation "a [>=] b" := (JS.geb a b) (at level 70, no associativity) : js_scope.
Local Open Scope js_scope.

(* ================================================================== *)
(** * Arrays                                                           *)
(* ================================================================== *)

Module Arr.

(** [a[i]] read where a number is expected: an index out of range gives
    [undefined], which every arithmetic operator and comparison turns into
    [NaN]. *)
Definition get (a : list num) (i : nat) : num := nth i a NaN.

(** [a[i - 1]] for a loop counter [i]: at [i = 0] the index is [-1], which
    no array has. *)
Definition get_pred (a : list num) (i : nat) : num :=
  match i with
  | O => NaN
  | S j => get a j
  end.

(** [a.slice(s, e)] for [0 <= s]. *)
Definition slice (s e : nat) {A : Type} (a : list A) : list A :=
  firstn (e - s) (skipn s a).

(** [a.slice(s)] for [0 <= s]. *)
Definition slice_from (s : nat) {A : Type} (a : list A) : list A :=
  skipn s a.

(** [a.slice(-n)]: the last [n] elements; [slice(-0)] is [slice(0)], the
    whole array. *)
Definition slice_last (n : nat) {A : Type} (a : list A) : list A :=
  match n with
  | O => a
  | _ => skipn (length a - n) a
  end.

(** [a.map((x, i) => f x i)]. *)
Fixpoint mapi_from {A B : Type} (f : A -> nat -> B) (i : nat) (a : list A)
  : list B :=
  match a with
  | [] => []
  | x :: a' => f x i :: mapi_from f (S i) a'
  end.

Definition mapi {A B : Type} (f : A -> nat -> B) (a : list A) : list B :=
  mapi_from f 0 a.

(** [a.reduce((acc, x) => f acc x, init)]. *)
Definition reduce {A St : Type} (f : St -> A -> St) (init : St)
  (a : list A) : St := fold_left f a init.

(** [a[a.length - 1]]. *)
Definition last_elem (a : list num) : num := get_pred a (length a).

(** [for (let i = start; i < start + count; i++) s = body i s]. *)
Fixpoint for_loop {St : Type} (start count : nat) (body : nat -> St -> St)
  (s : St) : St :=
  match count with
  | O => s
  | S c => for_loop (S start) c body (body start s)
  end.

(** Insertion of [x] in front of the first element it does not follow. *)
Fixpoint insert (after : num -> num -> bool) (x : num) (a : list num)
  : list num :=
  match a with
  | [] => [x]
  | y :: a' => if after x y then y :: insert after x a' else x :: a
  end.

(** [a.sort(cmp)] as a stable insertion sort: [x] goes after [y] when
    [cmp(x, y) > 0]; a [NaN] result counts as [0], as SortCompare says.
    ECMAScript fixes the outcome when [cmp] is a consistent comparator; with
    an inconsistent one the order is implementation-defined, and the model
    then only gives one possible outcome. *)
Definition sort (cmp : num -> num -> num) (a : list num) : list num :=
  fold_right (insert (fun x y => cmp x y [>] 0)) [] a.

End Arr.

(* ================================================================== *)
(** * [AnalysisService], first variant of [services/analysis.ts]       *)
(* ================================================================== *)

Module Analysis.

Import Arr.

(** ** RSI *)

(** [const difference = prices[i] - prices[i - 1]]. *)
Definition difference (prices : list num) (i : nat) : num :=
  get prices i [-] get_pred prices i.

(** Body of the seeding loop: [gains] and [losses] over the first
    [period] differences. *)
Definition rsi_seed_step (prices : list num) (i : nat) (s : num * num)
  : num * num :=
  let '(gains, losses) := s in
  let d := difference prices i in
  if d [>=] 0 then (gains [+] d, losses) else (gains, losses [-] d).

(** Body of the smoothing loop, on one [difference]; the state is
    [(avgGain, avgLoss)]. *)
Definition rsi_smooth_step (period : nat) (s : num * num) (d : num)
  : num * num :=
  let '(avgGain, avgLoss) := s in
  if d [>=] 0 then
    ((avgGain [*] 13 [+] d) [/] of_nat period,
     (avgLoss [*] 13) [/] of_nat period)
  else
    ((avgGain [*] 13) [/] of_nat period,
     (avgLoss [*] 13 [-] d) [/] of_nat period).

(** [(avgGain, avgLoss)] when the second loop ends. *)
Definition rsi_averages (prices : list num) (period : nat) : num * num :=
  let '(gains, losses) :=
    for_loop 1 period (rsi_seed_step prices) (Fin 0, Fin 0) in
  let avgGain := gains [/] of_nat period in
  let avgLoss := losses [/] of_nat period in
  for_loop (period + 1) (List.length prices - (period + 1))
    (fun i s => rsi_smooth_step period s (difference prices i))
    (avgGain, avgLoss).

Definition calculateRSI (prices : list num) (period : nat) : num :=
  let '(avgGain, avgLoss) := rsi_averages prices period in
  let rs := avgGain [/] avgLoss in
  100 [-] (100 [/] (1 [+] rs)).

(** The default [period = 14]. *)
Definition default_period : nat := 14.

(** ** EMA, MACD, SMA *)

Fixpoint ema_push (multiplier prev : num) (rest : list num) : list num :=
  match rest with
  | [] => []
  | p :: rest' =>
      let e := (p [-] prev) [*] multiplier [+] prev in
      e :: ema_push multiplier e rest'
  end.

(** [ema] starts as [[prices[0]]] (that is [[undefined]] on an empty input)
    and receives one value per further price. *)
Definition calculateEMA (prices : list num) (period : nat) : list num :=
  let multiplier := 2 [/] (of_nat period [+] 1) in
  match prices with
  | [] => [NaN]
  | p0 :: rest => p0 :: ema_push multiplier p0 rest
  end.

Record MACD : Type := mkMACD {
  value : num;
  signal : num;
  histogram : num;
  interpretation : string
}.

Definition interpretMACD (macdLine signalLine histogram : num) : string :=
  let strengthThreshold := Math_max 0.01 (Math_abs macdLine [*] 0.1) in
  let s1 :=
    if histogram [>] 0 then
      if Math_abs histogram [>] strengthThreshold
      then "Strong bullish momentum"%string else "Bullish momentum"%string
    else
      if Math_abs histogram [>] strengthThreshold
      then "Strong bearish momentum"%string else "Bearish momentum"%string in
  let s2 :=
    if (macdLine [>] 0) && (signalLine [>] 0)
    then (s1 ++ ", upward trend")%string
    else if (macdLine [<] 0) && (signalLine [<] 0)
    then (s1 ++ ", downward trend")%string
    else s1 in
  if Math_abs (macdLine [-] signalLine) [<] 0.1
  then (s2 ++ ", potential trend reversal")%string
  else s2.

Definition calculateMACD (prices : list num) : MACD :=
  let ema12 := calculateEMA prices 12 in
  let ema26 := calculateEMA prices 26 in
  let macdSeries := mapi (fun v index => v [-] get ema26 index) ema12 in
  let macdLine := last_elem macdSeries in
  let signalSeries := calculateEMA macdSeries 9 in
  let signalLine := last_elem signalSeries in
  let histogram := macdLine [-] signalLine in
  mkMACD macdLine signalLine histogram
         (interpretMACD macdLine signalLine histogram).

Definition sum (a : list num) : num :=
  reduce (fun acc x => acc [+] x) (Fin 0) a.

Definition calculateSMA (prices : list num) (period : nat) : num :=
  match prices with
  | [] => 0
  | _ =>
      let slice := slice_last period prices in
      sum slice [/] of_nat (List.length slice)
  end.

(** ** Support and resistance *)

Record Levels : Type := mkLevels {
  support : option num;
  resistance : option num
}.

(** [Math.floor(n * c)] as an array index, [n] an array length and
    [c >= 0]. *)
Definition floor_index (n : nat) (c : R) : nat :=
  Z.to_nat (Int_part (INR n * c)).

(** The comparator [(a, b) => a - b]. *)
Definition ascending (a b : num) : num := a [-] b.

(** [sortedPrices[q]] is [undefined] ([None]) out of range. *)
Definition findSupportResistance (prices : list num) : Levels :=
  let sortedPrices := sort ascending prices in
  let q1Index := floor_index (List.length prices) 0.25 in
  let q3Index := floor_index (List.length prices) 0.75 in
  mkLevels (nth_error sortedPrices q1Index) (nth_error sortedPrices q3Index).

(** ** Stochastic RSI *)

(** State of the loop: [rsiValues] (latest first), [minRSI], [maxRSI]. *)
Definition stoch_step (prices : list num) (period : nat) (i : nat)
  (s : list num * num * num) : list num * num * num :=
  let '(rsiValues, minRSI, maxRSI) := s in
  let rsi := calculateRSI (slice (i - period) (i + 1) prices) default_period in
  (rsi :: rsiValues, Math_min minRSI rsi, Math_max maxRSI rsi).

Definition stoch_loop (prices : list num) (period : nat)
  : list num * num * num :=
  for_loop period (List.length prices - period) (stoch_step prices period)
           ([], PInf, NInf).

(** [const range = maxRSI - minRSI]. *)
Definition stoch_range (prices : list num) (period : nat) : num :=
  let '(_, minRSI, maxRSI) := stoch_loop prices period in
  maxRSI [-] minRSI.

Definition calculateStochRSI (prices : list num) (period : nat) : num :=
  let '(rsiValues, minRSI, maxRSI) := stoch_loop prices period in
  let lastRSI := hd NaN rsiValues in
  let range := maxRSI [-] minRSI in
  if negb (Number_isFinite range) || strict_eq range 0 then 50
  else ((lastRSI [-] minRSI) [/] range) [*] 100.

(** ** Market phase *)

(** The [if] chain on the three tests. *)
Definition phase_of (priceAboveMA50 priceAboveMA200 ma50AboveMA200 : bool)
  : string :=
  if priceAboveMA50 && priceAboveMA200 && ma50AboveMA200 then
    "Bull Market"
  else if negb priceAboveMA50 && negb priceAboveMA200 && negb ma50AboveMA200
  then "Bear Market"
  else if priceAboveMA200 && negb priceAboveMA50 then "Correction"
  else "Accumulation".

Definition determineMarketPhase (prices : list num) (ma50 ma200 : num)
  : string :=
  let currentPrice := last_elem prices in
  let priceAboveMA50 := currentPrice [>] ma50 in
  let priceAboveMA200 := currentPrice [>] ma200 in
  let ma50AboveMA200 := ma50 [>] ma200 in
  phase_of priceAboveMA50 priceAboveMA200 ma50AboveMA200.

(** ** Volatility *)

(** [prices.slice(1).map((price, i) => Math.log(price / prices[i]))]. *)
Definition log_returns (prices : list num) : list num :=
  mapi (fun price i => Math_log (price [/] get prices i))
       (slice_from 1 prices).

Definition sum_squares (returns : list num) : num :=
  reduce (fun acc ret => acc [+] Math_pow ret 2) (Fin 0) returns.

Definition calculateVolatility (prices : list num) : num :=
  let returns := log_returns prices in
  Math_sqrt (sum_squares returns [/] of_nat (List.length returns))
    [*] Math_sqrt 365 [*] 100.

(** ** Confidence *)

(** The [sentiment] argument; a score may be absent ([undefined]). *)
Record Sentiment : Type := mkSentiment {
  newsScore : option num;
  socialScore : option num
}.

(** [x || d] where [x] is a number or [undefined]. *)
Definition or_default (x : option num) (d : num) : num :=
  match x with
  | Some v => if truthy v then v else d
  | None => d
  end.

Definition rsiConfidence (rsi : num) : num :=
  if (rsi [>] 70) || (rsi [<] 30) then 90
  else if (rsi [>] 60) || (rsi [<] 40) then 75
  else 50.

Definition macdConfidence (macd : MACD) : num :=
  let signalDenominator := Math_max 0.01 (Math_abs (signal macd)) in
  let signalStrength := Math_abs (histogram macd) [/] signalDenominator in
  Math_min 100 (signalStrength [*] 100).

Definition volumeConfidence (volumeRatio : num) : num :=
  if volumeRatio [>] 2 then 90
  else if volumeRatio [>] 1.5 then 80
  else if volumeRatio [>] 1 then 70
  else if volumeRatio [>] 0.7 then 50
  else 30.

Definition sentimentConfidence (sentiment : Sentiment) : num :=
  let newsScore := or_default (newsScore sentiment) 50 in
  let socialScore := or_default (socialScore sentiment) 50 in
  (newsScore [+] socialScore) [/] 2.

Definition calculateConfidence (rsi : num) (macd : MACD) (volumeRatio : num)
  (sentiment : Sentiment) (volatilityIndex : num) : num :=
  let volatilityFactor :=
    Math_max 0.5 (1 [-] (volatilityIndex [/] 100)) in
  let weightedConfidence :=
    ((rsiConfidence rsi [*] 0.25)
     [+] (macdConfidence macd [*] 0.25)
     [+] (volumeConfidence volumeRatio [*] 0.20)
     [+] (sentimentConfidence sentiment [*] 0.20))
    [*] volatilityFactor in
  Math_min 95 (Math_max 30 weightedConfidence).

(** ** Labels of the oscillators *)

Definition interpretStochRSI (stochRSI : num) : string :=
  if stochRSI [>] 80 then "Extremely overbought"
  else if stochRSI [>] 60 then "Overbought"
  else if stochRSI [<] 20 then "Extremely oversold"
  else if stochRSI [<] 40 then "Oversold"
  else "Neutral".

Definition interpretRSI (rsi : num) : string :=
  if rsi [>=] 70 then "Overbought - Consider taking profits"
  else if rsi [<=] 30 then "Oversold - Potential buying opportunity"
  else if rsi [>=] 60 then "Bullish momentum building"
  else if rsi [<=] 40 then "Bearish pressure present"
  else "Neutral momentum".

(** ** On-balance volume *)

(** Body of the loop; the state is [obv] and [obvValues]. *)
Definition obv_step (prices volumes : list num) (i : nat)
  (s : num * list num) : num * list num :=
  let '(obv, obvValues) := s in
  let obv' :=
    if get prices i [>] get_pred prices i then obv [+] get volumes i
    else if get prices i [<] get_pred prices i then obv [-] get volumes i
    else obv in
  (obv', obvValues ++ [obv']).

Definition obv_values (prices volumes : list num) : list num :=
  snd (for_loop 1 (List.length prices - 1) (obv_step prices volumes)
         (Fin 0, [Fin 0])).

Definition calculateOBV (prices volumes : list num) : string :=
  let recentOBV := slice_last 5 (obv_values prices volumes) in
  if last_elem recentOBV [>] get recentOBV 0 then "Bullish" else "Bearish".

(** ** Volume ratio *)

Definition calculateVolumeRatio (volumes : list num) (period : nat) : num :=
  let currentVolume := last_elem volumes in
  let avgVolume := sum (slice_last period volumes) [/] of_nat period in
  currentVolume [/] avgVolume.

(** ** Market sentiment *)

Record MarketSentiment : Type := mkMarketSentiment {
  ms_newsScore : num;
  ms_socialScore : num;
  marketMood : string
}.

Definition count_sentiment (label : string) (newsItems : list string) : nat :=
  List.length (filter (String.eqb label) newsItems).

(** [getMarketSentiment] on what [api.getNews] delivers: the [sentiment]
    fields of the news items, or [None] when the request fails or carries
    no array, which the [catch] answers with the neutral default. *)
Definition getMarketSentiment (news : option (list string))
  : MarketSentiment :=
  match news with
  | None => mkMarketSentiment 50 50 "Neutral"
  | Some newsItems =>
      let positiveCount := count_sentiment "positive" newsItems in
      let negativeCount := count_sentiment "negative" newsItems in
      let total :=
        match List.length newsItems with
        | O => 1%nat
        | n => n
        end in
      let newsScore := (of_nat positiveCount [/] of_nat total) [*] 100 in
      mkMarketSentiment newsScore
        (Math_min 100 (Math_max 0 newsScore))
        (if (negativeCount <? positiveCount)%nat then "Bullish"
         else if (positiveCount <? negativeCount)%nat then "Bearish"
         else "Neutral")
  end.

(** The [sentiment] object as [calculateConfidence] reads it. *)
Definition as_sentiment (m : MarketSentiment) : Sentiment :=
  mkSentiment (Some (ms_newsScore m)) (Some (ms_socialScore m)).

(** ** The numeric steps of [getDetailedAnalysis] and [getFullAnalysis] *)

(** [Math.max(30, shortTermConfidence * 0.9)] and
    [Math.max(30, shortTermConfidence * 0.8)]. *)
Definition midTermConfidence (shortTermConfidence : num) : num :=
  Math_max 30 (shortTermConfidence [*] 0.9).

Definition longTermConfidence (shortTermConfidence : num) : num :=
  Math_max 30 (shortTermConfidence [*] 0.8).

Record Band : Type := mkBand {
  band_low : num;
  band_high : num
}.

Record Bands : Type := mkBands {
  band_shortTerm : Band;
  band_midTerm : Band;
  band_longTerm : Band
}.

(** The object [priceTargets] that both functions build from the current
    price and [calculateVolatility(prices)]. *)
Definition priceTargets (currentPrice volatility : num) : Bands :=
  mkBands
    (mkBand (currentPrice [*] (1 [-] volatility [*] 0.1))
            (currentPrice [*] (1 [+] volatility [*] 0.1)))
    (mkBand (currentPrice [*] (1 [-] volatility [*] 0.2))
            (currentPrice [*] (1 [+] volatility [*] 0.2)))
    (mkBand (currentPrice [*] (1 [-] volatility [*] 0.3))
            (currentPrice [*] (1 [+] volatility [*] 0.3))).

(** The [strategy] object of the result, before its numbers are printed,
    from a support and a resistance that are numbers. *)
Record LevelStrategy : Type := mkLevelStrategy {
  position : string;
  entry : num;
  stop : num;
  target : num
}.

Definition levelStrategy (marketPhase : string) (support resistance : num)
  : LevelStrategy :=
  mkLevelStrategy
    (if String.eqb marketPhase "Bull Market" then "Long" else "Short")
    (support [+] (resistance [-] support) [*] 0.382)
    (support [*] 0.95)
    resistance.

End Analysis.

(* ================================================================== *)
(** * [AnalysisService], second variant of [services/analysis.ts]      *)
(* ================================================================== *)

(** The second variant (the one that calls the Gemini client directly) has
    the same [calculateRSI], [calculateEMA] and [findSupportResistance];
    its [calculateSMA], [calculateMACD], [interpretMACD] and
    [calculateStochRSI] differ, and it is the one that defines
    [calculatePriceTargets]. *)

Module AnalysisGemini.

Import Arr.

Definition calculateRSI := Analysis.calculateRSI.
Definition calculateEMA := Analysis.calculateEMA.

(** Divides by [period], whatever the length of the slice. *)
Definition calculateSMA (prices : list num) (period : nat) : num :=
  Analysis.sum (slice_last period prices) [/] of_nat period.

Definition interpretMACD (macdLine signalLine histogram : num) : string :=
  let s1 :=
    if histogram [>] 0 then
      if histogram [>] histogram [*] 0.1
      then "Strong bullish momentum"%string else "Bullish momentum"%string
    else
      if histogram [<] neg histogram [*] 0.1
      then "Strong bearish momentum"%string else "Bearish momentum"%string in
  let s2 :=
    if (macdLine [>] 0) && (signalLine [>] 0)
    then (s1 ++ ", upward trend")%string
    else if (macdLine [<] 0) && (signalLine [<] 0)
    then (s1 ++ ", downward trend")%string
    else s1 in
  if Math_abs (macdLine [-] signalLine) [<] 0.1
  then (s2 ++ ", potential trend reversal")%string
  else s2.

Definition calculateMACD (prices : list num) : Analysis.MACD :=
  let ema12 := calculateEMA prices 12 in
  let ema26 := calculateEMA prices 26 in
  let macdLine := last_elem ema12 [-] last_elem ema26 in
  let signalLine := get (calculateEMA [macdLine] 9) 0 in
  let histogram := macdLine [-] signalLine in
  Analysis.mkMACD macdLine signalLine histogram
                  (interpretMACD macdLine signalLine histogram).

(** The second variant's [calculateStochRSI] runs the same loop and
    divides by the range without a test. *)
Definition calculateStochRSI (prices : list num) (period : nat) : num :=
  let '(rsiValues, minRSI, maxRSI) := Analysis.stoch_loop prices period in
  let lastRSI := hd NaN rsiValues in
  ((lastRSI [-] minRSI) [/] (maxRSI [-] minRSI)) [*] 100.

(** The second variant's volatility: the last [period] log returns, and a
    division by [period] whatever their number. *)
Definition calculateVolatilityIndex (prices : list num) (period : nat)
  : num :=
  let returns :=
    for_loop 1 (List.length prices - 1)
      (fun i returns =>
         returns ++ [Math_log (get prices i [/] get_pred prices i)])
      [] in
  let recentReturns := slice_last period returns in
  let stdDev :=
    Math_sqrt
      (reduce (fun acc ret => acc [+] Math_pow ret 2) (Fin 0) recentReturns
       [/] of_nat period) in
  stdDev [*] Math_sqrt 365 [*] 100.

(** ** Price targets *)

Record PriceTarget : Type := mkPriceTarget {
  low : num;
  high : num;
  confidence : num
}.

Record PriceTargets : Type := mkPriceTargets {
  shortTerm : PriceTarget;
  midTerm : PriceTarget;
  longTerm : PriceTarget
}.

Record TimeframeWeights : Type := mkWeights {
  w_rsi : num;
  w_macd : num;
  w_trend : num;
  w_volatility : num
}.

Record Range : Type := mkRange {
  volatilityRange : num;
  supportRange : num;
  resistanceRange : num
}.

(** The locals of [calculatePriceTargets], in the order the source
    computes them. *)

Definition dailyReturns (prices : list num) : list num :=
  mapi (fun price i => Math_log (price [/] get prices i))
       (slice_from 1 prices).

Definition stdDev (prices : list num) : num :=
  let dailyReturns := dailyReturns prices in
  Math_sqrt
    (reduce (fun acc ret => acc [+] Math_pow ret 2) (Fin 0) dailyReturns
     [/] of_nat (List.length dailyReturns)).

Definition annualizedVol (prices : list num) : num :=
  stdDev prices [*] Math_sqrt 365.

Definition momentum (prices : list num) : num :=
  let sma20 := calculateSMA prices 20 in
  let sma50 := calculateSMA prices 50 in
  (sma20 [-] sma50) [/] sma50.

Definition trendStrength (currentPrice : num) (prices : list num) : num :=
  let sma50 := calculateSMA prices 50 in
  Math_abs ((currentPrice [-] sma50) [/] sma50).

Definition timeframeWeights (timeframe : string) : option TimeframeWeights :=
  if String.eqb timeframe "24H" then Some (mkWeights 0.4 0.3 0.2 0.1)
  else if String.eqb timeframe "7D" then Some (mkWeights 0.3 0.3 0.3 0.1)
  else if String.eqb timeframe "30D" then Some (mkWeights 0.2 0.2 0.4 0.2)
  else None.

(** The local closure [calculateConfidence(timeframe)]. *)
Definition targetConfidence (currentPrice : num) (prices : list num)
  (timeframe : string) : num :=
  let annualizedVol := annualizedVol prices in
  let momentum := momentum prices in
  let rsi := calculateRSI prices Analysis.default_period in
  let macd := calculateMACD prices in
  let trendStrength := trendStrength currentPrice prices in
  let rsiConfidence := Math_abs (50 [-] rsi) [/] 50 in
  let macdConfidence :=
    Math_abs (Analysis.histogram macd) [/] Math_abs (Analysis.signal macd) in
  let trendConfidence := Math_min 1 (trendStrength [*] 2) in
  match timeframeWeights timeframe with
  | None => 50
  | Some weights =>
      let baseConfidence :=
        (rsiConfidence [*] w_rsi weights
         [+] macdConfidence [*] w_macd weights
         [+] trendConfidence [*] w_trend weights
         [+] (1 [-] Math_min 1 (annualizedVol [/] 100))
             [*] w_volatility weights)
        [*] 100 in
      let marketConditions :=
        if momentum [>] 0 then Fin 1.1
        else if momentum [<] 0 then Fin 0.9 else Fin 1 in
      let volatilityPenalty := Math_max 0 (1 [-] (annualizedVol [/] 200)) in
      let timeDecay :=
        if String.eqb timeframe "24H" then Fin 1
        else if String.eqb timeframe "7D" then Fin 0.9 else Fin 0.8 in
      Math_min 95
        (Math_max 30
           (baseConfidence [*] marketConditions [*] volatilityPenalty
            [*] timeDecay))
  end.

(** [ranges[timeframe]], with the multipliers [c_vol] and [c_level] of that
    timeframe: 0.1 and 0.2 for 24H, 0.2 and 0.4 for 7D, 0.3 and 0.6 for
    30D. *)
Definition range_of (c_vol c_level : R) (currentPrice : num)
  (prices : list num) (support resistance : num) : Range :=
  mkRange (currentPrice [*] annualizedVol prices [*] c_vol)
          (Math_abs (currentPrice [-] support) [*] c_level)
          (Math_abs (resistance [-] currentPrice) [*] c_level).

Definition ranges_24H := range_of 0.1 0.2.
Definition ranges_7D := range_of 0.2 0.4.
Definition ranges_30D := range_of 0.3 0.6.

Definition momentumBias (currentPrice : num) (prices : list num) : num :=
  momentum prices [*] currentPrice [*] 0.1.

(** [volatility] is a parameter of the source function that its body never
    reads. *)
Definition calculatePriceTargets (currentPrice : num) (prices : list num)
  (volatility : num) (support resistance : num) : PriceTargets :=
  let r24 := ranges_24H currentPrice prices support resistance in
  let r7 := ranges_7D currentPrice prices support resistance in
  let r30 := ranges_30D currentPrice prices support resistance in
  let momentumBias := momentumBias currentPrice prices in
  let shortTerm :=
    mkPriceTarget
      (Math_max support
         (currentPrice [-] volatilityRange r24 [-] supportRange r24
          [+] momentumBias))
      (Math_min resistance
         (currentPrice [+] volatilityRange r24 [+] resistanceRange r24
          [+] momentumBias))
      (targetConfidence currentPrice prices "24H") in
  let midTerm :=
    mkPriceTarget
      (Math_max (support [*] 0.95)
         (currentPrice [-] volatilityRange r7 [-] supportRange r7
          [+] (momentumBias [*] 2)))
      (Math_min (resistance [*] 1.05)
         (currentPrice [+] volatilityRange r7 [+] resistanceRange r7
          [+] (momentumBias [*] 2)))
      (targetConfidence currentPrice prices "7D") in
  let longTerm :=
    mkPriceTarget
      (Math_max (support [*] 0.9)
         (currentPrice [-] volatilityRange r30 [-] supportRange r30
          [+] (momentumBias [*] 3)))
      (Math_min (resistance [*] 1.1)
         (currentPrice [+] volatilityRange r30 [+] resistanceRange r30
          [+] (momentumBias [*] 3)))
      (targetConfidence currentPrice prices "30D") in
  mkPriceTargets shortTerm midTerm longTerm.

End AnalysisGemini.

(* ================================================================== *)
(** * [strategyGenerator], [services/strategy/strategyGenerator.ts]    *)
(* ================================================================== *)

Module StrategyGenerator.

(** ** Exceptions and completions *)

(** What a [throw] carries: the [Error] the code raises itself, or the
    [TypeError] of reading a property of [undefined]. *)
Inductive exn : Type :=
| Error (message : string)
| TypeError.

(** How a block ends: normally with a value, or abruptly by a [throw]. *)
Inductive completion (A : Type) : Type :=
| Normal (a : A)
| Throw (e : exn).
Arguments Normal {A} a.
Arguments Throw {A} e.

Definition bind {A B : Type} (c : completion A) (k : A -> completion B)
  : completion B :=
  match c with
  | Normal a => k a
  | Throw e => Throw e
  end.

Notation "x <- c ;; k" := (bind c (fun x => k))
  (at level 61, c at next level, right associativity).

(** How the promise of an [async] function settles. *)
Inductive promise (A : Type) : Type :=
| Resolved (a : A)
| Rejected (e : exn).
Arguments Resolved {A} a.
Arguments Rejected {A} e.

(** ** The [any]-typed inputs

    Every object may be [undefined] ([None]), and so may every field;
    fields hold values of the type the code uses them at. *)

Record KeyLevels : Type := mkKeyLevels {
  kl_support : option num;
  kl_resistance : option num
}.

Record MarketCondition : Type := mkMarketCondition {
  phase : option string;
  strength : option num;
  keyLevels : option KeyLevels
}.

(** [momentum.rsi] and [momentum.macd]: [{ value, signal }]. *)
Record Indicator : Type := mkIndicator {
  ind_value : option num;
  ind_signal : option string
}.

Record Momentum : Type := mkMomentum {
  m_rsi : option Indicator;
  m_macd : option Indicator
}.

Record Trend : Type := mkTrend {
  primary : option string;
  t_strength : option num
}.

Record Volatility : Type := mkVolatility {
  current : option num
}.

Record TechnicalSignals : Type := mkTechnicalSignals {
  momentum : option Momentum;
  trend : option Trend;
  volatility : option Volatility
}.

(** The argument of [generateStrategy]; [sentimentAnalysis],
    [riskAnalysis] and [predictions] are never read. *)
Record Data : Type := mkData {
  currentPrice : option num;
  marketCondition : option MarketCondition;
  technicalSignals : option TechnicalSignals
}.

(** [o.f]: a [TypeError] when [o] is [undefined]. *)
Definition prop {T X : Type} (o : option T) (f : T -> X) : completion X :=
  match o with
  | Some t => Normal (f t)
  | None => Throw TypeError
  end.

(** [o.f.g]. *)
Definition prop2 {T U X : Type} (o : option T) (f : T -> option U)
  (g : U -> X) : completion X :=
  u <- prop o f ;; prop u g.

(** ToNumber on a number or [undefined]. *)
Definition to_num (x : option num) : num :=
  match x with
  | Some v => v
  | None => NaN
  end.

(** [x || d] and [!x] on a number or [undefined]. *)
Definition or_else (x : option num) (d : num) : num :=
  match x with
  | Some v => if truthy v then v else d
  | None => d
  end.

Definition falsy (x : option num) : bool :=
  match x with
  | Some v => negb (truthy v)
  | None => true
  end.

(** ** Strings *)

Definition lower_ascii (c : ascii) : ascii :=
  let n := nat_of_ascii c in
  if (65 <=? n)%nat && (n <=? 90)%nat then ascii_of_nat (n + 32) else c.

Fixpoint toLowerCase (s : string) : string :=
  match s with
  | EmptyString => EmptyString
  | String c s' => String (lower_ascii c) (toLowerCase s')
  end.

Fixpoint includes (s sub : string) : bool :=
  String.prefix sub s
  || match s with
     | EmptyString => false
     | String _ s' => includes s' sub
     end.

(** [String(x ?? d)] for a string or [undefined]. *)
Definition str_or (x : option string) (d : string) : string :=
  match x with
  | Some s => s
  | None => d
  end.

(** A piece of a template literal: text, an interpolated string (printed
    [undefined] when absent), an interpolated number, or [x.toFixed(d)]. *)
Inductive piece : Type :=
| Str (s : string)
| Interp (s : option string)
| Num (n : num)
| NumFixed (d : nat) (n : num).

Definition text : Type := list piece.

(** ** The strategy *)

Record Entries : Type := mkEntries {
  conservative : num;
  moderate : num;
  aggressive : num
}.

Record StopLoss : Type := mkStopLoss {
  tight : num;
  normal : num;
  wide : num
}.

Record Targets : Type := mkTargets {
  target_primary : num;
  target_secondary : num;
  target_final : num
}.

Record TradingStrategy : Type := mkTradingStrategy {
  recommendation : text;
  confidence : num;
  entries : Entries;
  stopLoss : StopLoss;
  targets : Targets;
  timeframe : string;
  rationale : list text
}.

Inductive StopKind : Type := Tight | NormalStop | Wide.
Inductive TargetKind : Type := Primary | Secondary | Final.

Definition calculateStopLossDistance (marketCondition : option MarketCondition)
  (type : StopKind) : completion num :=
  s <- prop marketCondition strength ;;
  let volatility := or_else s 0.5 in
  let multiplier :=
    match type with Tight => 2 | NormalStop => 3 | Wide => 5 end in
  Normal ((volatility [*] Fin multiplier) [/] 100).

Definition calculateTargetDistance (marketCondition : option MarketCondition)
  (type : TargetKind) : completion num :=
  p <- prop marketCondition phase ;;
  trend <- prop p toLowerCase ;;
  s <- prop marketCondition strength ;;
  let strength := or_else s 0.5 in
  let baseMultiplier :=
    match type with Primary => 3 | Secondary => 5 | Final => 8 end in
  let trendMultiplier :=
    if String.eqb trend "bull market" then 1.5
    else if String.eqb trend "bear market" then 0.5 else 1 in
  Normal ((Fin baseMultiplier [*] strength [*] Fin trendMultiplier) [/] 100).

Definition calculateConfidence (technicalSignals : option TechnicalSignals)
  (marketCondition : option MarketCondition) : completion num :=
  ts <- prop2 technicalSignals trend t_strength ;;
  let trendStrength := to_num ts [*] 100 in
  ms <- prop marketCondition strength ;;
  let marketStrength := to_num ms [*] 100 in
  m <- prop technicalSignals momentum ;;
  rsiValue <- prop2 m m_rsi ind_value ;;
  macdValue <- prop2 m m_macd ind_value ;;
  let momentumStrength :=
    (if to_num rsiValue [>] 50 then Fin 60 else Fin 40)
    [+] (if to_num macdValue [>] 0 then Fin 10 else Fin (-10)) in
  Normal
    (Math_min 95
       (Math_max 30
          (trendStrength [*] 0.4 [+] marketStrength [*] 0.3
           [+] momentumStrength [*] 0.3))).

(** [rsi?.value] when it is a number, else 50. *)
Definition rsi_value_or_50 (rsi : option Indicator) : num :=
  match rsi with
  | Some r => match ind_value r with Some v => v | None => 50 end
  | None => 50
  end.

(** [String(macd?.signal ?? '')]. *)
Definition macd_signal_or_empty (macd : option Indicator) : string :=
  match macd with
  | Some m => str_or (ind_signal m) EmptyString
  | None => EmptyString
  end.

Definition determineRecommendation
  (technicalSignals : option TechnicalSignals)
  (marketCondition : option MarketCondition) : completion (string * num) :=
  mo <- prop technicalSignals momentum ;;
  rm <- match mo with
        | Some m => Normal (m_rsi m, m_macd m)
        | None => Throw TypeError
        end ;;
  let '(rsi, macd) := rm in
  trendRaw <- prop2 technicalSignals trend primary ;;
  let trend := toLowerCase (str_or trendRaw "neutral") in
  ph <- prop marketCondition phase ;;
  let marketPhase := toLowerCase (str_or ph "neutral") in
  let rsiValue := rsi_value_or_50 rsi in
  let macdSignal := toLowerCase (macd_signal_or_empty macd) in
  c <- calculateConfidence technicalSignals marketCondition ;;
  let baseConfidence := Math_round c in
  let confidence0 := Math_min 95 (Math_max 35 baseConfidence) in
  let '(recommendation, confidence1) :=
    if (rsiValue [>] 70) && includes trend "bullish" then
      ("Take Profit"%string, Math_max confidence0 (Math_min 90 rsiValue))
    else if (rsiValue [<] 30) && includes trend "bearish" then
      ("Buy"%string, Math_max confidence0 (Math_min 90 (100 [-] rsiValue)))
    else if includes trend "bullish"
            && (includes macdSignal "bullish" || (rsiValue [>] 55)) then
      ("Buy"%string, Math_max confidence0 65)
    else if includes trend "bearish"
            && (includes macdSignal "bearish" || (rsiValue [<] 45)) then
      ("Sell"%string, Math_max confidence0 65)
    else if includes marketPhase "accumulation" then
      ("Buy"%string, Math_max confidence0 60)
    else if includes marketPhase "distribution" then
      ("Sell"%string, Math_max confidence0 60)
    else ("Hold"%string, confidence0) in
  let confidence2 :=
    if includes macdSignal "bullish" && String.eqb recommendation "Buy"
    then confidence1 [+] 8
    else if includes macdSignal "bearish" && String.eqb recommendation "Sell"
    then confidence1 [+] 8
    else confidence1 in
  Normal (recommendation,
          Math_min 95 (Math_round (confidence2 [*] 100) [/] 100)).

Definition calculateConservativeEntry (currentPrice : num)
  (technicalSignals : option TechnicalSignals) (keyLevels : option KeyLevels)
  : completion num :=
  s <- prop keyLevels kl_support ;;
  let support := or_else s (currentPrice [*] 0.95) in
  cur <- prop2 technicalSignals volatility current ;;
  let volatility := to_num cur [/] 100 in
  Normal (Math_max support
            (currentPrice [*] (1 [-] Math_min 0.05 volatility))).

Definition calculateAggressiveEntry (currentPrice : num)
  (technicalSignals : option TechnicalSignals) (keyLevels : option KeyLevels)
  : completion num :=
  r <- prop keyLevels kl_resistance ;;
  let resistance := or_else r (currentPrice [*] 1.05) in
  cur <- prop2 technicalSignals volatility current ;;
  let volatility := to_num cur [/] 100 in
  let entryPoint := currentPrice [*] (1 [+] Math_min 0.03 volatility) in
  Normal (Math_min entryPoint resistance).

Definition determineTimeframe (technicalSignals : option TechnicalSignals)
  (marketCondition : option MarketCondition) : completion string :=
  cur <- prop2 technicalSignals volatility current ;;
  let volatility := to_num cur in
  p <- prop marketCondition phase ;;
  marketPhase <- prop p toLowerCase ;;
  s <- prop marketCondition strength ;;
  let strength := or_else s 0.5 in
  Normal
    (if String.eqb marketPhase "bull market" && (strength [>] 0.7) then
       if volatility [>] 50 then "Short-term" else "Medium-term"
     else if String.eqb marketPhase "bear market" && (strength [>] 0.7) then
       "Long-term"
     else if String.eqb marketPhase "accumulation" then "Medium-term"
     else if String.eqb marketPhase "distribution" then "Short-term"
     else if volatility [>] 50 then "Short-term"
     else if volatility [<] 20 then "Long-term"
     else "Medium-term")%string.

Definition generateRationale (technicalSignals : option TechnicalSignals)
  (marketCondition : option MarketCondition) : completion (list text) :=
  ph <- prop marketCondition phase ;;
  st <- prop marketCondition strength ;;
  let r1 := [[Str "Market Phase: "; Interp ph; Str " with ";
              NumFixed 1 (to_num st [*] 100); Str "% strength"]] in
  m <- prop technicalSignals momentum ;;
  rsiSignal <- prop2 m m_rsi ind_signal ;;
  macdSignal <- prop2 m m_macd ind_signal ;;
  let r2 := r1 ++ [[Str "RSI: "; Interp rsiSignal];
                   [Str "MACD: "; Interp macdSignal]] in
  kl <- prop marketCondition keyLevels ;;
  r3 <- match kl with
        | Some k =>
            s <- prop (kl_support k) (toFixed 2) ;;
            r <- prop (kl_resistance k) (toFixed 2) ;;
            Normal (r2 ++ [[Str "Support at $"; Num s];
                           [Str "Resistance at $"; Num r]])
        | None => Normal r2
        end ;;
  tr <- prop technicalSignals trend ;;
  ts <- prop tr t_strength ;;
  if to_num ts [>] 0.7 then
    pr <- prop tr primary ;;
    Normal (r3 ++ [[Str "Strong "; Interp pr; Str " trend"]])
  else Normal r3.

Definition defaultPrice : num := 76000.

Definition getDefaultStrategy : TradingStrategy :=
  mkTradingStrategy
    [Str "Hold"]
    50
    (mkEntries (defaultPrice [*] 0.98) defaultPrice (defaultPrice [*] 1.02))
    (mkStopLoss (defaultPrice [*] 0.95) (defaultPrice [*] 0.97)
                (defaultPrice [*] 0.93))
    (mkTargets (defaultPrice [*] 1.03) (defaultPrice [*] 1.05)
               (defaultPrice [*] 1.08))
    "Medium-term"
    [[Str "Using default strategy due to insufficient data"]].

(** [!currentPrice || isNaN(currentPrice)]. *)
Definition invalid_price (currentPrice : option num) : bool :=
  falsy currentPrice || isNaN (to_num currentPrice).

(** The [try] block of [generateStrategy]. *)
Definition generateStrategy_try (data : Data) : completion TradingStrategy :=
  let marketCondition := marketCondition data in
  let technicalSignals := technicalSignals data in
  if invalid_price (currentPrice data) then
    Throw (Error "Invalid current price")
  else
    let currentPrice := to_num (currentPrice data) in
    kl <- prop marketCondition keyLevels ;;
    conservative <-
      calculateConservativeEntry currentPrice technicalSignals kl ;;
    kl' <- prop marketCondition keyLevels ;;
    aggressive <-
      calculateAggressiveEntry currentPrice technicalSignals kl' ;;
    let aggressive2 := toFixed 2 aggressive in
    let entries :=
      mkEntries (toFixed 2 conservative) (toFixed 2 currentPrice)
        (if isNaN aggressive2 || strict_eq aggressive2 0
         then toFixed 2 (currentPrice [*] 1.02) else aggressive2) in
    rc <- determineRecommendation technicalSignals marketCondition ;;
    let '(recommendation, confidence) := rc in
    d1 <- calculateStopLossDistance marketCondition Tight ;;
    d2 <- calculateStopLossDistance marketCondition NormalStop ;;
    d3 <- calculateStopLossDistance marketCondition Wide ;;
    let stopLoss :=
      mkStopLoss (toFixed 2 (currentPrice [*] (1 [-] d1)))
                 (toFixed 2 (currentPrice [*] (1 [-] d2)))
                 (toFixed 2 (currentPrice [*] (1 [-] d3))) in
    t1 <- calculateTargetDistance marketCondition Primary ;;
    t2 <- calculateTargetDistance marketCondition Secondary ;;
    t3 <- calculateTargetDistance marketCondition Final ;;
    let targets :=
      mkTargets (toFixed 2 (currentPrice [*] (1 [+] t1)))
                (toFixed 2 (currentPrice [*] (1 [+] t2)))
                (toFixed 2 (currentPrice [*] (1 [+] t3))) in
    rationale <- generateRationale technicalSignals marketCondition ;;
    timeframe <- determineTimeframe technicalSignals marketCondition ;;
    Normal
      (mkTradingStrategy
         [Str recommendation; Str " ("; Num confidence; Str "%)"]
         confidence entries stopLoss targets timeframe rationale).

(** [try { ... } catch (error) { console.error(...); return
    this.getDefaultStrategy(); }]: the promise of the [async] function
    resolves with whatever the body or the handler returns. *)
Definition generateStrategy (data : Data) : promise TradingStrategy :=
  match generateStrategy_try data with
  | Normal strategy => Resolved strategy
  | Throw _ => Resolved getDefaultStrategy
  end.

End StrategyGenerator.

(* ================================================================== *)
(** * Definitions that follow the specification's words                *)
(* ================================================================== *)

Module Spec.

(** The eight combinations of (price > MA50, price > MA200,
    MA50 > MA200). *)
Definition all_combinations : list (bool * bool * bool) :=
  [ (true, true, true); (true, true, false);
    (true, false, true); (true, false, false);
    (false, true, true); (false, true, false);
    (false, false, true); (false, false, false) ].

Definition phase_of_combination (c : bool * bool * bool) : string :=
  let '(a, b, c) := c in Analysis.phase_of a b c.

(** The combinations that are none of (T,T,T), (F,F,F), (F,T,T) and (F,T,F). *)
Definition remaining_combinations : list (bool * bool * bool) :=
  filter
    (fun c =>
       let '(a, b, c) := c in
       negb (a && b && c) && negb (negb a && negb b && negb c)
       && negb (negb a && b))
    all_combinations.

(** A sentiment score is finite: absent, or a finite number. *)
Definition finite_score (x : option num) : bool :=
  match x with
  | Some v => Number_isFinite v
  | None => true
  end.

(** What the two loops of [calculateRSI] keep true on constant prices: no
    gain, and a loss that is [0] or [NaN]. *)
Definition flat_state (s : num * num) : Prop :=
  fst s = Fin 0 /\ (snd s = Fin 0 \/ snd s = NaN).

(** What the loop of [calculateStochRSI] keeps true on constant prices:
    either nothing was recorded, or the running minimum and maximum are
    [NaN]. *)
Definition stoch_flat_state (s : list num * num * num) : Prop :=
  let '(_, minRSI, maxRSI) := s in
  (minRSI = PInf /\ maxRSI = NInf) \/ (minRSI = NaN /\ maxRSI = NaN).

(** [a <= b] holds in JavaScript. *)
Definition le_num (a b : num) : Prop := (a [<=] b) = true.

(** Wilder's smoothing as section 4.1 words it: [gain] and [loss] are 0
    when the delta moves the other direction, and the previous average
    weighs [period - 1]. *)
Definition wilder_step (period : nat) (s : num * num) (delta : num)
  : num * num :=
  let '(avgGain, avgLoss) := s in
  let gain := if delta [>=] 0 then delta else Fin 0 in
  let loss := if delta [>=] 0 then Fin 0 else neg delta in
  ((avgGain [*] (of_nat period [-] 1) [+] gain) [/] of_nat period,
   (avgLoss [*] (of_nat period [-] 1) [+] loss) [/] of_nat period).

(** RSI with the smoothing step as a parameter: the seeding and the final
    quotient are those of [Analysis.calculateRSI]. *)
Definition rsi_with (step : nat -> num * num -> num -> num * num)
  (prices : list num) (period : nat) : num :=
  let '(gains, losses) :=
    Arr.for_loop 1 period (Analysis.rsi_seed_step prices) (Fin 0, Fin 0) in
  let '(avgGain, avgLoss) :=
    Arr.for_loop (period + 1) (List.length prices - (period + 1))
      (fun i s => step period s (Analysis.difference prices i))
      (gains [/] of_nat period, losses [/] of_nat period) in
  100 [-] (100 [/] (1 [+] (avgGain [/] avgLoss))).

(** Mean, variance and standard deviation of real samples; [ddof] is 0 for
    the population formula and 1 for the sample formula. *)
Definition Rsum (xs : list R) : R := fold_right Rplus 0%R xs.

Definition mean (xs : list R) : R := Rsum xs / INR (List.length xs).

Definition variance (ddof : nat) (xs : list R) : R :=
  Rsum (map (fun x => (x - mean xs) * (x - mean xs))%R xs)
  / INR (List.length xs - ddof).

Definition standard_deviation (ddof : nat) (xs : list R) : R :=
  sqrt (variance ddof xs).

(** The log returns [ln(p[i] / p[i-1])] of a series of real prices. *)
Fixpoint log_returns_from (prev : R) (rest : list R) : list R :=
  match rest with
  | [] => []
  | p :: rest' => ln (p / prev) :: log_returns_from p rest'
  end.

Definition log_returns (prices : list R) : list R :=
  match prices with
  | [] => []
  | p0 :: rest => log_returns_from p0 rest
  end.

(** Annualized volatility as section 4.1 words it. *)
Definition annualized_volatility (ddof : nat) (prices : list R) : R :=
  standard_deviation ddof (log_returns prices) * sqrt 365 * 100.

(** Root mean square: the deviation about zero. *)
Definition root_mean_square (xs : list R) : R :=
  sqrt (Rsum (map (fun x => x * x)%R xs) / INR (List.length xs)).

(** [low <= currentPrice <= high] for one price target. *)
Definition brackets (currentPrice : num) (t : AnalysisGemini.PriceTarget)
  : bool :=
  (AnalysisGemini.low t [<=] currentPrice)
  && (currentPrice [<=] AnalysisGemini.high t).

(** [f_low * support <= currentPrice <= f_high * resistance]: the price
    lies between the two clamps of a timeframe. *)
Definition levels_bracket (f_low f_high : R)
  (currentPrice support resistance : num) : bool :=
  (support [*] f_low [<=] currentPrice)
  && (currentPrice [<=] resistance [*] f_high).

(** The momentum bias of a timeframe does not exceed the widths of its
    range: [-(volatilityRange + resistanceRange) <= bias <=
    volatilityRange + supportRange]. *)
Definition bias_within (bias : num) (r : AnalysisGemini.Range) : bool :=
  (neg (AnalysisGemini.volatilityRange r [+] AnalysisGemini.resistanceRange r)
   [<=] bias)
  && (bias [<=]
      AnalysisGemini.volatilityRange r [+] AnalysisGemini.supportRange r).

(** [x] is a finite number between [lo] and [hi]. *)
Definition in_range (lo hi : R) (x : num) : Prop :=
  exists r : R, x = Fin r /\ lo <= r <= hi.

(** The averages of [calculateRSI] are finite and not negative. *)
Definition nonneg_state (s : num * num) : Prop :=
  exists g l : R, s = (Fin g, Fin l) /\ 0 <= g /\ 0 <= l.

(** What the loop of [calculateStochRSI] keeps true on every input:
    nothing recorded yet, or a [NaN] minimum and maximum, or a latest RSI
    between the running minimum and maximum. *)
Definition stoch_state_ok (s : list num * num * num) : Prop :=
  let '(rsiValues, minRSI, maxRSI) := s in
  (rsiValues = [] /\ minRSI = PInf /\ maxRSI = NInf)
  \/ (minRSI = NaN /\ maxRSI = NaN)
  \/ (exists latest rest,
        rsiValues = latest :: rest
        /\ le_num minRSI latest /\ le_num latest maxRSI).

(** Everything [generateStrategy] reads is there: a valid price, the
    market condition with its phase and both key levels, the technical
    signals with the RSI and MACD objects, the trend and the volatility
    object. *)
Definition complete_input (data : StrategyGenerator.Data) : Prop :=
  StrategyGenerator.invalid_price (StrategyGenerator.currentPrice data)
  = false
  /\ exists (ph : string) (st : option num) (ks kr : num)
            (rsi macd : StrategyGenerator.Indicator)
            (tr : StrategyGenerator.Trend) (cur : option num),
       StrategyGenerator.marketCondition data
       = Some (StrategyGenerator.mkMarketCondition (Some ph) st
                 (Some (StrategyGenerator.mkKeyLevels (Some ks) (Some kr))))
       /\ StrategyGenerator.technicalSignals data
          = Some (StrategyGenerator.mkTechnicalSignals
                    (Some (StrategyGenerator.mkMomentum (Some rsi) (Some macd)))
                    (Some tr)
                    (Some (StrategyGenerator.mkVolatility cur))).

End Spec.

(* ================================================================== *)
(** * Facts about the number model                                     *)
(* ================================================================== *)

Section NumFacts.

Lemma Rltb_true (x y : R) : x < y -> Rltb x y = true.
Proof. intros H; unfold Rltb; destruct (Rlt_dec x y); [reflexivity | lra]. Qed.

Lemma Rltb_false (x y : R) : y <= x -> Rltb x y = false.
Proof. intros H; unfold Rltb; destruct (Rlt_dec x y); [lra | reflexivity]. Qed.

Lemma Rleb_true (x y : R) : x <= y -> Rleb x y = true.
Proof. intros H; unfold Rleb; destruct (Rle_dec x y); [reflexivity | lra]. Qed.

Lemma Rleb_false (x y : R) : y < x -> Rleb x y = false.
Proof. intros H; unfold Rleb; destruct (Rle_dec x y); [lra | reflexivity]. Qed.

Lemma Reqb_true (x y : R) : x = y -> Reqb x y = true.
Proof.
  intros H; unfold Reqb; destruct (Req_dec_T x y); [reflexivity | contradiction].
Qed.

Lemma Reqb_false (x y : R) : x <> y -> Reqb x y = false.
Proof.
  intros H; unfold Reqb; destruct (Req_dec_T x y); [contradiction | reflexivity].
Qed.

Lemma Rltb_spec (x y : R) : Rltb x y = true <-> x < y.
Proof. unfold Rltb; destruct (Rlt_dec x y); split; (congruence || lra || auto). Qed.

Lemma Rleb_spec (x y : R) : Rleb x y = true <-> x <= y.
Proof. unfold Rleb; destruct (Rle_dec x y); split; (congruence || lra || auto). Qed.

Lemma leb_fin (x y : R) : (Fin x [<=] Fin y) = true <-> x <= y.
Proof. apply Rleb_spec. Qed.

Lemma ltb_fin (x y : R) : (Fin x [<] Fin y) = true <-> x < y.
Proof. apply Rltb_spec. Qed.

Lemma max_fin (a b : R) : Math_max (Fin a) (Fin b) = Fin (Rmax a b).
Proof.
  unfold Math_max, ltb, Rltb, Rmax.
  destruct (Rlt_dec a b), (Rle_dec a b); try reflexivity; try lra.
  f_equal; lra.
Qed.

Lemma min_fin (a b : R) : Math_min (Fin a) (Fin b) = Fin (Rmin a b).
Proof.
  unfold Math_min, ltb, Rltb, Rmin.
  destruct (Rlt_dec b a), (Rle_dec a b); try reflexivity; lra.
Qed.

Lemma div_fin (a b : R) : b <> 0 -> Fin a [/] Fin b = Fin (a / b).
Proof. intros H; unfold div; rewrite Reqb_false by assumption; reflexivity. Qed.

Lemma sqrt_fin (a : R) : 0 <= a -> Math_sqrt (Fin a) = Fin (sqrt a).
Proof. intros H; unfold Math_sqrt; rewrite Rltb_false by assumption; reflexivity. Qed.

Lemma log_fin (a : R) : 0 < a -> Math_log (Fin a) = Fin (ln a).
Proof.
  intros H; unfold Math_log.
  rewrite Rltb_false by lra.
  rewrite Reqb_false by lra.
  reflexivity.
Qed.

Lemma add_0_r (a : num) : a [+] Fin 0 = a.
Proof. destruct a; cbn; try reflexivity. f_equal; lra. Qed.

Lemma of_nat_14 : of_nat 14 = Fin 14.
Proof. unfold of_nat; f_equal; simpl; lra. Qed.

(** The clamp [Math.min(hi, Math.max(lo, w))] lands in [[lo, hi]] unless
    [w] is [NaN]. *)
Lemma clamp_bounds (lo hi : R) (w : num) :
  lo <= hi -> w <> NaN ->
  exists r, Math_min (Fin hi) (Math_max (Fin lo) w) = Fin r /\ lo <= r <= hi.
Proof.
  intros Hle Hw.
  destruct w as [| | |x]; try contradiction; cbn.
  - exists hi; split; [reflexivity | lra].
  - unfold Rltb; destruct (Rlt_dec lo hi); eexists; split; try reflexivity; lra.
  - unfold Rltb.
    destruct (Rlt_dec lo x); cbn; unfold Rltb.
    + destruct (Rlt_dec x hi); eexists; split; try reflexivity; lra.
    + destruct (Rlt_dec lo hi); eexists; split; try reflexivity; lra.
Qed.

End NumFacts.

Section LoopFacts.

Context {St : Type}.

(** Two loops whose bodies agree compute the same state. *)
Lemma for_loop_ext (body body' : nat -> St -> St) (start count : nat)
  (s : St) :
  (forall i x, body i x = body' i x) ->
  Arr.for_loop start count body s = Arr.for_loop start count body' s.
Proof.
  intros Hext. revert start s.
  induction count as [|count IH]; intros start s; cbn.
  - reflexivity.
  - rewrite Hext. apply IH.
Qed.

(** A property kept by the body holds when the loop ends. *)
Lemma for_loop_invariant (P : St -> Prop) (body : nat -> St -> St)
  (start count : nat) (s : St) :
  P s -> (forall i x, P x -> P (body i x)) ->
  P (Arr.for_loop start count body s).
Proof.
  intros Hs Hstep. revert start s Hs.
  induction count as [|count IH]; intros start s Hs; cbn.
  - exact Hs.
  - apply IH, Hstep, Hs.
Qed.

End LoopFacts.

(** Case analysis on every comparison of reals left in the goal, closing
    the impossible branches by linear arithmetic. *)
Ltac rclose :=
  try lra;
  try match goal with
      | H : @eq R _ _ |- _ => solve [field_simplify in H; lra]
      end.

Ltac rcases :=
  repeat match goal with
    | |- context [Rlt_dec ?a ?b] => destruct (Rlt_dec a b); rclose
    | |- context [Rle_dec ?a ?b] => destruct (Rle_dec a b); rclose
    | |- context [Req_dec_T ?a ?b] => destruct (Req_dec_T a b); rclose
    end.

Ltac js_eval := repeat (progress (cbn; unfold Rltb, Rleb, Reqb; rcases)).

(* ================================================================== *)
(** * Market phase                                                     *)
(* ================================================================== *)

Section MarketPhase.

Import Analysis.

(** [determineMarketPhase] is the decision table applied to the three
    comparisons with the last price. *)
Lemma determineMarketPhase_table (prices : list num) (ma50 ma200 : num) :
  determineMarketPhase prices ma50 ma200
  = phase_of (Arr.last_elem prices [>] ma50)
             (Arr.last_elem prices [>] ma200)
             (ma50 [>] ma200).
Proof. reflexivity. Qed.

(** C2, as stated, counts five combinations outside (T,T,T), (F,F,F) and
    (F,T,any); the eight combinations leave only four. *)
Lemma C2_remaining_not_five :
  List.length Spec.remaining_combinations <> 5%nat.
Proof. vm_compute. discriminate. Qed.

(** C2 (amended): the decision table is total over the eight combinations
    and yields one of the four labels; (T,T,T) is a Bull Market, (F,F,F) a
    Bear Market, (F,T,any) a Correction, and the remaining four
    combinations, (T,T,F), (T,F,T), (T,F,F) and (F,F,T), are
    Accumulation. *)
Theorem C2_market_phase_table :
  (forall a b c : bool,
      In (phase_of a b c)
         ["Bull Market"; "Bear Market"; "Correction"; "Accumulation"]%string)
  /\ phase_of true true true = "Bull Market"%string
  /\ phase_of false false false = "Bear Market"%string
  /\ (forall c : bool, phase_of false true c = "Correction"%string)
  /\ Spec.remaining_combinations
     = [(true, true, false); (true, false, true);
        (true, false, false); (false, false, true)]
  /\ Forall (fun c => Spec.phase_of_combination c = "Accumulation"%string)
            Spec.remaining_combinations.
Proof.
  split; [intros [] [] []; cbn; tauto |].
  split; [reflexivity |].
  split; [reflexivity |].
  split; [intros []; reflexivity |].
  split; [reflexivity |].
  cbn. repeat constructor.
Qed.

End MarketPhase.

(* ================================================================== *)
(** * The confidence scorer                                            *)
(* ================================================================== *)

Section ConfidenceScorer.

Import Analysis.

Lemma rsiConfidence_fin (r : R) : exists x, rsiConfidence (Fin r) = Fin x.
Proof.
  unfold rsiConfidence.
  destruct ((Fin r [>] 70) || (Fin r [<] 30)); [eauto |].
  destruct ((Fin r [>] 60) || (Fin r [<] 40)); eauto.
Qed.

Lemma volumeConfidence_fin (r : R) :
  exists x, volumeConfidence (Fin r) = Fin x.
Proof.
  unfold volumeConfidence.
  repeat match goal with
         | |- context [if ?b then _ else _] => destruct b; [eauto |]
         end.
  eauto.
Qed.

Lemma macdConfidence_fin (v s h : R) (i : string) :
  exists x, macdConfidence (mkMACD (Fin v) (Fin s) (Fin h) i) = Fin x.
Proof.
  unfold macdConfidence; cbn [signal histogram Math_abs].
  rewrite max_fin.
  rewrite div_fin.
  - cbn [mul]. rewrite min_fin. eauto.
  - pose proof (Rmax_l 0.01 (Rabs s)). lra.
Qed.

Lemma or_default_fin (x : option num) (d : R) :
  Spec.finite_score x = true -> exists r, or_default x (Fin d) = Fin r.
Proof.
  destruct x as [[| | |v]|]; cbn; intros H; try discriminate.
  - destruct (negb (Reqb v 0)); eauto.
  - eauto.
Qed.

Lemma sentimentConfidence_fin (s : Sentiment) :
  Spec.finite_score (newsScore s) = true ->
  Spec.finite_score (socialScore s) = true ->
  exists x, sentimentConfidence s = Fin x.
Proof.
  intros Hn Hs. unfold sentimentConfidence.
  destruct (or_default_fin _ 50 Hn) as [a ->].
  destruct (or_default_fin _ 50 Hs) as [b ->].
  cbn [add]. rewrite div_fin by lra. eauto.
Qed.

(** C6: on finite inputs [calculateConfidence] returns a number between
    30 and 95. *)
Theorem C6_confidence_within_30_95
  (rsi : num) (macd : MACD) (volumeRatio : num) (sentiment : Sentiment)
  (volatilityIndex : num) :
  Number_isFinite rsi = true ->
  Number_isFinite (value macd) = true ->
  Number_isFinite (signal macd) = true ->
  Number_isFinite (histogram macd) = true ->
  Number_isFinite volumeRatio = true ->
  Spec.finite_score (newsScore sentiment) = true ->
  Spec.finite_score (socialScore sentiment) = true ->
  Number_isFinite volatilityIndex = true ->
  exists r : R,
    calculateConfidence rsi macd volumeRatio sentiment volatilityIndex = Fin r
    /\ 30 <= r <= 95.
Proof.
  intros Hr Hv Hs Hh Hvr Hn Hso Hvi.
  destruct macd as [mv ms mh mi]; cbn [value signal histogram] in *.
  destruct rsi as [| | |r]; try discriminate.
  destruct mv as [| | |v]; try discriminate.
  destruct ms as [| | |s]; try discriminate.
  destruct mh as [| | |h]; try discriminate.
  destruct volumeRatio as [| | |vr]; try discriminate.
  destruct volatilityIndex as [| | |vi]; try discriminate.
  unfold calculateConfidence.
  destruct (rsiConfidence_fin r) as [a ->].
  destruct (macdConfidence_fin v s h mi) as [b ->].
  destruct (volumeConfidence_fin vr) as [c ->].
  destruct (sentimentConfidence_fin sentiment Hn Hso) as [d ->].
  rewrite div_fin by lra. cbn [sub neg add]. rewrite max_fin. cbn [mul add].
  apply clamp_bounds; [lra | discriminate].
Qed.

Lemma C6_confidence_within_30_95_witness :
  exists r : R,
    calculateConfidence (Fin 75) (mkMACD (Fin 1) (Fin 2) (Fin (-1)) EmptyString)
      (Fin 1.2) (mkSentiment (Some (Fin 80)) None) (Fin 35) = Fin r
    /\ 30 <= r <= 95.
Proof.
  apply C6_confidence_within_30_95; reflexivity.
Defined.

Lemma or_default_zero (d : num) : or_default (Some (Fin 0)) d = d.
Proof. unfold or_default, truthy. rewrite Reqb_true; reflexivity. Qed.

(** C9: a supplied score of 0 is replaced by the default 50, the value
    used for an absent score, so the confidence is the one of neutral or
    absent sentiment. *)
Theorem C9_zero_score_scored_as_default
  (rsi : num) (macd : MACD) (volumeRatio volatilityIndex : num)
  (other : option num) :
  or_default (Some (Fin 0)) (Fin 50) = Fin 50
  /\ or_default None (Fin 50) = Fin 50
  /\ calculateConfidence rsi macd volumeRatio
       (mkSentiment (Some (Fin 0)) other) volatilityIndex
     = calculateConfidence rsi macd volumeRatio
         (mkSentiment None other) volatilityIndex
  /\ calculateConfidence rsi macd volumeRatio
       (mkSentiment other (Some (Fin 0))) volatilityIndex
     = calculateConfidence rsi macd volumeRatio
         (mkSentiment other None) volatilityIndex
  /\ calculateConfidence rsi macd volumeRatio
       (mkSentiment (Some (Fin 0)) (Some (Fin 0))) volatilityIndex
     = calculateConfidence rsi macd volumeRatio
         (mkSentiment (Some (Fin 50)) (Some (Fin 50))) volatilityIndex.
Proof.
  assert (H50 : or_default (Some (Fin 50)) (Fin 50) = Fin 50).
  { unfold or_default, truthy. rewrite Reqb_false by lra. reflexivity. }
  repeat split.
  - apply or_default_zero.
  - unfold calculateConfidence, sentimentConfidence; cbn [newsScore socialScore].
    rewrite or_default_zero. reflexivity.
  - unfold calculateConfidence, sentimentConfidence; cbn [newsScore socialScore].
    rewrite or_default_zero. reflexivity.
  - unfold calculateConfidence, sentimentConfidence; cbn [newsScore socialScore].
    rewrite or_default_zero, H50. reflexivity.
Qed.

End ConfidenceScorer.

(* ================================================================== *)
(** * RSI smoothing                                                    *)
(* ================================================================== *)

Section RSISmoothing.

Import Analysis.

(** With the default period the constant 13 is [period - 1], and the loop
    is Wilder's smoothing. *)
Lemma smooth_step_is_wilder_at_14 (s : num * num) (d : num) :
  rsi_smooth_step 14 s d = Spec.wilder_step 14 s d.
Proof.
  destruct s as [avgGain avgLoss].
  unfold rsi_smooth_step, Spec.wilder_step.
  rewrite of_nat_14.
  replace (Fin 14 [-] Fin 1) with (Fin 13) by (cbn; f_equal; lra).
  destruct (d [>=] Fin 0).
  - rewrite add_0_r. reflexivity.
  - rewrite add_0_r. reflexivity.
Qed.

Lemma calculateRSI_is_wilder_at_14 (prices : list num) :
  calculateRSI prices 14 = Spec.rsi_with Spec.wilder_step prices 14.
Proof.
  unfold calculateRSI, rsi_averages, Spec.rsi_with.
  destruct (Arr.for_loop 1 14 (rsi_seed_step prices) (Fin 0, Fin 0))
    as [gains losses].
  rewrite (for_loop_ext _
             (fun i s => Spec.wilder_step 14 s (difference prices i))).
  - reflexivity.
  - intros i s. apply smooth_step_is_wilder_at_14.
Qed.

(** C5: for [period = 2] the smoothing loop weighs the previous averages
    by 13, not by [period - 1 = 1].  On prices [2, 1, 2, 3] the seeded
    averages are (0.5, 0.5); the next delta, +1, takes them to
    (3.75, 3.25) where the stated recurrence gives (0.75, 0.25), and the
    RSI returned is 375/7 (53.57...) where the stated recurrence gives
    75. *)
Theorem C5_smoothing_weight_is_13_for_every_period :
  rsi_smooth_step 2 (Fin 0.5, Fin 0.5) (Fin 1) = (Fin 3.75, Fin 3.25)
  /\ Spec.wilder_step 2 (Fin 0.5, Fin 0.5) (Fin 1) = (Fin 0.75, Fin 0.25)
  /\ calculateRSI [Fin 2; Fin 1; Fin 2; Fin 3] 2 = Fin (375 / 7)
  /\ Spec.rsi_with Spec.wilder_step [Fin 2; Fin 1; Fin 2; Fin 3] 2 = Fin 75.
Proof.
  repeat split.
  - js_eval. f_equal; apply f_equal; lra.
  - js_eval. f_equal; apply f_equal; lra.
  - unfold calculateRSI, rsi_averages. js_eval. apply f_equal. field.
  - unfold Spec.rsi_with. js_eval. apply f_equal. field.
Qed.

End RSISmoothing.

(* ================================================================== *)
(** * The strategy generator's failure policy                          *)
(* ================================================================== *)

Section FailurePolicy.

Import StrategyGenerator.

(** The price test: [0], [NaN] and [undefined] are the prices it
    refuses. *)
Lemma invalid_price_zero : invalid_price (Some (Fin 0)) = true.
Proof. unfold invalid_price, falsy, truthy. rewrite Reqb_true; reflexivity. Qed.

Lemma invalid_price_NaN : invalid_price (Some NaN) = true.
Proof. reflexivity. Qed.

Lemma invalid_price_undefined : invalid_price None = true.
Proof. reflexivity. Qed.

(** An invalid price makes the [try] block throw its own [Error]. *)
Lemma invalid_price_throws (data : Data) :
  invalid_price (currentPrice data) = true ->
  generateStrategy_try data = Throw (Error "Invalid current price").
Proof. intros H. unfold generateStrategy_try. rewrite H. reflexivity. Qed.

(** Whatever the [try] block throws, the handler answers with the default
    strategy. *)
Lemma throw_resolves_default (data : Data) (e : exn) :
  generateStrategy_try data = Throw e ->
  generateStrategy data = Resolved getDefaultStrategy.
Proof. intros H. unfold generateStrategy. rewrite H. reflexivity. Qed.

Lemma valid_price_100 : invalid_price (Some (Fin 100)) = false.
Proof.
  unfold invalid_price, falsy, truthy. rewrite Reqb_false by lra. reflexivity.
Qed.

(** A missing [marketCondition] is a [TypeError] inside the block. *)
Lemma missing_market_condition_throws (ts : option TechnicalSignals) :
  generateStrategy_try (mkData (Some (Fin 100)) None ts) = Throw TypeError.
Proof.
  unfold generateStrategy_try.
  cbn [currentPrice]. rewrite valid_price_100. reflexivity.
Qed.

(** The block completes normally as soon as every object it reads is
    present and the price is valid, and the promise then resolves with the
    strategy it built. *)
Lemma complete_input_resolves
  (price : num) (ph : string) (st : option num) (ks kr : num)
  (rsi macd : Indicator) (tr : Trend) (cur : option num) :
  invalid_price (Some price) = false ->
  let mc := mkMarketCondition (Some ph) st
              (Some (mkKeyLevels (Some ks) (Some kr))) in
  let ts := mkTechnicalSignals (Some (mkMomentum (Some rsi) (Some macd)))
              (Some tr) (Some (mkVolatility cur)) in
  exists s : TradingStrategy,
    generateStrategy_try (mkData (Some price) (Some mc) (Some ts)) = Normal s
    /\ generateStrategy (mkData (Some price) (Some mc) (Some ts))
       = Resolved s.
Proof.
  intros Hvalid mc ts.
  unfold generateStrategy, generateStrategy_try.
  cbn [currentPrice]. rewrite Hvalid.
  unfold mc, ts.
  cbn [marketCondition technicalSignals to_num prop prop2 bind keyLevels
       calculateConservativeEntry calculateAggressiveEntry kl_support
       kl_resistance volatility current].
  unfold determineRecommendation, calculateConfidence.
  cbn [prop prop2 bind momentum m_rsi m_macd trend primary phase t_strength
       strength ind_value ind_signal].
  match goal with
  | |- context [let '(_, _) := ?X in _] => destruct X as [rec conf]
  end.
  cbn [bind].
  unfold calculateStopLossDistance, calculateTargetDistance,
    generateRationale, determineTimeframe.
  cbn [prop prop2 bind momentum m_rsi m_macd trend primary phase t_strength
       strength ind_value ind_signal keyLevels kl_support kl_resistance
       volatility current].
  destruct (to_num (t_strength tr) [>] Fin 0.7); cbn [bind];
    eexists; split; reflexivity.
Qed.

(** The prices the test refuses are exactly [undefined], [0] and [NaN]. *)
Lemma invalid_price_iff (p : option num) :
  invalid_price p = true <-> p = None \/ p = Some (Fin 0) \/ p = Some NaN.
Proof.
  split.
  - destruct p as [[| | |x]|]; auto.
    + discriminate.
    + discriminate.
    + unfold invalid_price, falsy, truthy, to_num, isNaN, Reqb.
      destruct (Req_dec_T x 0) as [-> | Hx]; cbn; [auto | discriminate].
  - intros [-> | [-> | ->]].
    + apply invalid_price_undefined.
    + apply invalid_price_zero.
    + apply invalid_price_NaN.
Qed.

(** C1, as stated, fails with everything present and the current price 0:
    the promise is not rejected, it resolves with the default strategy. *)
Lemma C1_invalid_price_not_surfaced :
  let mc := mkMarketCondition (Some "Bull Market"%string) (Some (Fin 0.8))
              (Some (mkKeyLevels (Some (Fin 95)) (Some (Fin 110)))) in
  let ind := mkIndicator (Some (Fin 75)) (Some "bullish"%string) in
  let ts := mkTechnicalSignals (Some (mkMomentum (Some ind) (Some ind)))
              (Some (mkTrend (Some "bullish"%string) (Some (Fin 0.6))))
              (Some (mkVolatility (Some (Fin 30)))) in
  let data := mkData (Some (Fin 0)) (Some mc) (Some ts) in
  generateStrategy data = Resolved getDefaultStrategy
  /\ ~ (exists e : exn, generateStrategy data = Rejected e).
Proof.
  intros mc ind ts data.
  assert (H : generateStrategy data = Resolved getDefaultStrategy).
  { eapply throw_resolves_default, invalid_price_throws.
    apply invalid_price_zero. }
  split; [exact H |].
  intros [e He]. rewrite H in He. discriminate.
Qed.

(** C1 (amended): when the current price is 0, [NaN] or [undefined], the
    [try] block of [generateStrategy] raises the explicit error
    "Invalid current price" before anything is computed from the price;
    the function's own handler catches it, and the caller receives the
    fixed default strategy from a promise that is not rejected. *)
Theorem C1_invalid_price_raised_then_default (data : Data) :
  invalid_price (currentPrice data) = true ->
  generateStrategy_try data = Throw (Error "Invalid current price")
  /\ generateStrategy data = Resolved getDefaultStrategy
  /\ (forall e : exn, generateStrategy data <> Rejected e).
Proof.
  intros H.
  pose proof (invalid_price_throws data H) as Hthrow.
  pose proof (throw_resolves_default data _ Hthrow) as Hdefault.
  split; [exact Hthrow |].
  split; [exact Hdefault |].
  intros e He. rewrite Hdefault in He. discriminate.
Qed.

Lemma C1_invalid_price_raised_then_default_witness :
  generateStrategy_try (mkData (Some NaN) None None)
  = Throw (Error "Invalid current price")
  /\ generateStrategy (mkData (Some NaN) None None)
     = Resolved getDefaultStrategy
  /\ (forall e : exn,
        generateStrategy (mkData (Some NaN) None None) <> Rejected e).
Proof.
  apply (C1_invalid_price_raised_then_default (mkData (Some NaN) None None)).
  reflexivity.
Defined.

(** C8: when an error is raised inside the [try] block, the promise of
    [generateStrategy] resolves with the fixed default strategy (Hold,
    confidence 50, levels derived from the placeholder price 76000) and is
    never rejected. *)
Theorem C8_internal_error_replaced_by_default (data : Data) (e : exn) :
  generateStrategy_try data = Throw e ->
  generateStrategy data = Resolved getDefaultStrategy
  /\ (forall e' : exn, generateStrategy data <> Rejected e')
  /\ recommendation getDefaultStrategy = [Str "Hold"]
  /\ confidence getDefaultStrategy = Fin 50
  /\ moderate (entries getDefaultStrategy) = Fin 76000.
Proof.
  intros H.
  rewrite (throw_resolves_default data e H).
  split; [reflexivity |].
  split; [intros e'; discriminate |].
  repeat split.
Qed.

Lemma C8_internal_error_replaced_by_default_witness :
  generateStrategy (mkData (Some (Fin 100)) None None)
  = Resolved getDefaultStrategy
  /\ (forall e' : exn,
        generateStrategy (mkData (Some (Fin 100)) None None) <> Rejected e')
  /\ recommendation getDefaultStrategy = [Str "Hold"]
  /\ confidence getDefaultStrategy = Fin 50
  /\ moderate (entries getDefaultStrategy) = Fin 76000.
Proof.
  apply (C8_internal_error_replaced_by_default
           (mkData (Some (Fin 100)) None None) TypeError).
  apply missing_market_condition_throws.
Defined.

(** No input makes the promise reject. *)
Lemma generateStrategy_never_rejects (data : Data) (e : exn) :
  generateStrategy data <> Rejected e.
Proof.
  unfold generateStrategy.
  destruct (generateStrategy_try data); discriminate.
Qed.

End FailurePolicy.

(* ================================================================== *)
(** * Stochastic RSI on a degenerate range                             *)
(* ================================================================== *)

Section StochRSI.

Import Analysis.

Lemma min_NaN_r (a : num) : Math_min a NaN = NaN.
Proof. destruct a; reflexivity. Qed.

Lemma max_NaN_r (a : num) : Math_max a NaN = NaN.
Proof. destruct a; reflexivity. Qed.

Lemma sub_NaN_r (a : num) : a [-] NaN = NaN.
Proof. destruct a; reflexivity. Qed.

Lemma sub_self (c : num) : c [-] c = NaN \/ c [-] c = Fin 0.
Proof.
  destruct c as [| | |x]; cbn; auto.
  right; f_equal; lra.
Qed.

(** Reading a constant array gives its element, or [NaN] out of range. *)
Lemma get_repeat (c : num) (m i : nat) :
  Arr.get (repeat c m) i = c \/ Arr.get (repeat c m) i = NaN.
Proof.
  unfold Arr.get. revert i.
  induction m as [|m IH]; intros [|i]; cbn; auto.
Qed.

Lemma get_pred_repeat (c : num) (m i : nat) :
  Arr.get_pred (repeat c m) i = c \/ Arr.get_pred (repeat c m) i = NaN.
Proof. destruct i; cbn; [auto | apply get_repeat]. Qed.

(** On constant prices every difference is [0], or [NaN] when an index
    falls outside the array or the price itself has no difference. *)
Lemma difference_repeat (c : num) (m i : nat) :
  difference (repeat c m) i = NaN \/ difference (repeat c m) i = Fin 0.
Proof.
  unfold difference.
  destruct (get_repeat c m i) as [-> | ->],
           (get_pred_repeat c m i) as [-> | ->].
  - apply sub_self.
  - left; apply sub_NaN_r.
  - left; reflexivity.
  - left; reflexivity.
Qed.

Lemma seed_step_flat (c : num) (m i : nat) (s : num * num) :
  Spec.flat_state s -> Spec.flat_state (rsi_seed_step (repeat c m) i s).
Proof.
  destruct s as [g l]; intros [Hg Hl]; cbn in Hg, Hl; subst g.
  unfold rsi_seed_step.
  destruct (difference_repeat c m i) as [-> | ->].
  - cbn. split; [reflexivity | right; apply sub_NaN_r].
  - replace (Fin 0 [>=] Fin 0) with true
      by (symmetry; apply Rleb_true; lra).
    split; [cbn; f_equal; lra | exact Hl].
Qed.

Lemma smooth_step_flat (c : num) (m i : nat) (s : num * num) :
  Spec.flat_state s ->
  Spec.flat_state (rsi_smooth_step 14 s (difference (repeat c m) i)).
Proof.
  destruct s as [g l]; intros [Hg Hl]; cbn in Hg, Hl; subst g.
  unfold rsi_smooth_step. rewrite of_nat_14.
  destruct (difference_repeat c m i) as [-> | ->].
  - cbn [geb leb]. split.
    + cbn. rewrite Reqb_false by lra. f_equal; lra.
    + right. cbn [snd]. rewrite sub_NaN_r. reflexivity.
  - replace (Fin 0 [>=] Fin 0) with true
      by (symmetry; apply Rleb_true; lra).
    split.
    + cbn. rewrite Reqb_false by lra. f_equal; lra.
    + cbn [snd]. destruct Hl as [-> | ->].
      * left. cbn. rewrite Reqb_false by lra. f_equal; lra.
      * right. reflexivity.
Qed.

Lemma rsi_averages_flat (c : num) (m : nat) :
  Spec.flat_state (rsi_averages (repeat c m) 14).
Proof.
  unfold rsi_averages.
  pose proof (for_loop_invariant Spec.flat_state (rsi_seed_step (repeat c m))
                1 14 (Fin 0, Fin 0)) as Hseed.
  destruct (Arr.for_loop 1 14 (rsi_seed_step (repeat c m)) (Fin 0, Fin 0))
    as [gains losses].
  destruct Hseed as [Hg Hl].
  { split; [reflexivity | left; reflexivity]. }
  { intros i x; apply seed_step_flat. }
  cbn in Hg, Hl; subst gains.
  apply for_loop_invariant.
  - rewrite of_nat_14. split.
    + cbn. rewrite Reqb_false by lra. f_equal; lra.
    + cbn [snd]. destruct Hl as [-> | ->].
      * left. cbn. rewrite Reqb_false by lra. f_equal; lra.
      * right. reflexivity.
  - intros i x; apply smooth_step_flat.
Qed.

(** The RSI of constant prices is [0/0], or a quotient by [NaN]. *)
Lemma calculateRSI_flat (c : num) (m : nat) :
  calculateRSI (repeat c m) 14 = NaN.
Proof.
  unfold calculateRSI.
  pose proof (rsi_averages_flat c m) as H.
  destruct (rsi_averages (repeat c m) 14) as [avgGain avgLoss].
  destruct H as [Hg Hl]; cbn in Hg, Hl; subst avgGain.
  destruct Hl as [-> | ->].
  - cbn. rewrite Reqb_true by reflexivity.
    unfold scale_inf. rewrite !Rltb_false by lra. reflexivity.
  - reflexivity.
Qed.

Lemma skipn_of_repeat (c : num) (s m : nat) :
  skipn s (repeat c m) = repeat c (m - s).
Proof.
  revert m; induction s as [|s IH]; intros [|m]; cbn; auto.
Qed.

Lemma firstn_of_repeat (c : num) (k m : nat) :
  firstn k (repeat c m) = repeat c (Nat.min k m).
Proof.
  revert m; induction k as [|k IH]; intros [|m]; cbn; auto.
  f_equal; apply IH.
Qed.

(** A slice of constant prices is constant. *)
Lemma slice_repeat (c : num) (s e m : nat) :
  exists k, Arr.slice s e (repeat c m) = repeat c k.
Proof.
  unfold Arr.slice.
  rewrite skipn_of_repeat, firstn_of_repeat. eauto.
Qed.

Lemma stoch_loop_flat (c : num) (m period : nat) :
  Spec.stoch_flat_state (stoch_loop (repeat c m) period).
Proof.
  unfold stoch_loop.
  apply for_loop_invariant.
  - left; split; reflexivity.
  - intros i [[vals mn] mx] _. unfold stoch_step, default_period.
    destruct (slice_repeat c (i - period) (i + 1) m) as [k ->].
    rewrite calculateRSI_flat, min_NaN_r, max_NaN_r.
    right; split; reflexivity.
Qed.

(** The guard in front of the division. *)
Lemma stoch_guard (prices : list num) (period : nat) :
  Number_isFinite (stoch_range prices period) = false
  \/ stoch_range prices period = Fin 0 ->
  calculateStochRSI prices period = Fin 50.
Proof.
  unfold stoch_range, calculateStochRSI.
  destruct (stoch_loop prices period) as [[vals mn] mx].
  intros [H | H]; rewrite H.
  - reflexivity.
  - cbn. rewrite Reqb_true by reflexivity. reflexivity.
Qed.

Lemma stoch_range_flat (c : num) (m period : nat) :
  Number_isFinite (stoch_range (repeat c m) period) = false.
Proof.
  unfold stoch_range.
  pose proof (stoch_loop_flat c m period) as H.
  destruct (stoch_loop (repeat c m) period) as [[vals mn] mx].
  destruct H as [[-> ->] | [-> ->]]; reflexivity.
Qed.

(** C7: whenever the range [maxRSI - minRSI] of the rolling RSI values is
    zero or not finite, [calculateStochRSI] returns exactly 50; constant
    prices, of any length and for any window, are such a series. *)
Theorem C7_stoch_rsi_degenerate_range_is_50 :
  (forall (prices : list num) (period : nat),
      Number_isFinite (stoch_range prices period) = false
      \/ stoch_range prices period = Fin 0 ->
      calculateStochRSI prices period = Fin 50)
  /\ (forall (c : num) (m period : nat),
        Number_isFinite (stoch_range (repeat c m) period) = false
        /\ calculateStochRSI (repeat c m) period = Fin 50).
Proof.
  split.
  - apply stoch_guard.
  - intros c m period. split.
    + apply stoch_range_flat.
    + apply stoch_guard. left. apply stoch_range_flat.
Qed.

Lemma C7_stoch_rsi_degenerate_range_is_50_witness :
  calculateStochRSI [Fin 100; Fin 100; Fin 100] 2 = Fin 50.
Proof.
  apply (proj1 C7_stoch_rsi_degenerate_range_is_50).
  left. exact (stoch_range_flat (Fin 100) 3 2).
Defined.

(** The second variant has no such guard: on constant prices it divides
    [NaN] by [NaN]. *)
Lemma gemini_stoch_rsi_flat (c : num) (m period : nat) :
  AnalysisGemini.calculateStochRSI (repeat c m) period = NaN.
Proof.
  unfold AnalysisGemini.calculateStochRSI.
  pose proof (stoch_loop_flat c m period) as H.
  destruct (stoch_loop (repeat c m) period) as [[vals mn] mx].
  destruct H as [[-> ->] | [-> ->]].
  - destruct (hd NaN vals); reflexivity.
  - rewrite sub_NaN_r. reflexivity.
Qed.

End StochRSI.

(* ================================================================== *)
(** * Support and resistance                                           *)
(* ================================================================== *)

Section SupportResistance.

Import Analysis.

Lemma le_num_trans (a b c : num) :
  Spec.le_num a b -> Spec.le_num b c -> Spec.le_num a c.
Proof.
  unfold Spec.le_num.
  destruct a as [| | |x], b as [| | |y], c as [| | |z]; cbn;
    try discriminate; try reflexivity.
  rewrite !Rleb_spec. lra.
Qed.

Lemma le_num_refl (a : num) : a <> NaN -> Spec.le_num a a.
Proof.
  unfold Spec.le_num.
  destruct a as [| | |x]; cbn; try reflexivity; try contradiction.
  intros _. apply Rleb_true; lra.
Qed.

(** On numbers other than [NaN] the comparator [a - b] orders as [<]
    does. *)
Lemma ascending_after (x y : num) :
  x <> NaN -> y <> NaN ->
  (ascending x y [>] Fin 0) = (y [<] x).
Proof.
  unfold ascending.
  destruct x as [| | |a], y as [| | |b]; cbn;
    try contradiction; try reflexivity; intros _ _.
  unfold Rltb.
  destruct (Rlt_dec 0 (a + - b)), (Rlt_dec b a); try reflexivity; lra.
Qed.

Lemma not_after_le (x y : num) :
  x <> NaN -> y <> NaN -> (y [<] x) = false -> Spec.le_num x y.
Proof.
  unfold Spec.le_num.
  destruct x as [| | |a], y as [| | |b]; cbn;
    try contradiction; try reflexivity; try discriminate; intros _ _.
  unfold Rltb, Rleb.
  destruct (Rlt_dec b a), (Rle_dec a b); try reflexivity; try discriminate.
  lra.
Qed.

Lemma after_le (x y : num) : (y [<] x) = true -> Spec.le_num y x.
Proof.
  unfold Spec.le_num.
  destruct x as [| | |a], y as [| | |b]; cbn;
    try reflexivity; try discriminate.
  rewrite Rltb_spec, Rleb_spec. lra.
Qed.

(** Insertion keeps an array ascending, for any test [after] that agrees
    with the order on numbers other than [NaN]. *)
Section Insertion.

Variable after : num -> num -> bool.
Hypothesis after_true :
  forall x y, x <> NaN -> y <> NaN -> after x y = true -> Spec.le_num y x.
Hypothesis after_false :
  forall x y, x <> NaN -> y <> NaN -> after x y = false -> Spec.le_num x y.

Lemma insert_length (x : num) (l : list num) :
  List.length (Arr.insert after x l) = S (List.length l).
Proof.
  induction l as [|y l IH]; cbn; [reflexivity |].
  destruct (after x y); cbn; [rewrite IH |]; reflexivity.
Qed.

Lemma insert_not_NaN (x : num) (l : list num) :
  x <> NaN -> Forall (fun p => p <> NaN) l ->
  Forall (fun p => p <> NaN) (Arr.insert after x l).
Proof.
  intros Hx Hl. induction Hl as [|y l Hy Hl IH]; cbn.
  - constructor; [assumption | constructor].
  - destruct (after x y); constructor; auto.
Qed.

Lemma insert_hd (x z : num) (l : list num) :
  Spec.le_num z x -> HdRel Spec.le_num z l ->
  HdRel Spec.le_num z (Arr.insert after x l).
Proof.
  intros Hzx Hl. destruct l as [|y l]; cbn.
  - constructor; assumption.
  - destruct (after x y); constructor; [|assumption].
    inversion Hl; assumption.
Qed.

Lemma insert_sorted (x : num) (l : list num) :
  x <> NaN -> Forall (fun p => p <> NaN) l ->
  Sorted Spec.le_num l ->
  Sorted Spec.le_num (Arr.insert after x l).
Proof.
  intros Hx Hn Hs. induction Hs as [|y l Hs IH Hhd]; cbn.
  - repeat constructor.
  - inversion Hn as [|? ? Hy Hl]; subst.
    destruct (after x y) eqn:Hxy.
    + constructor; [apply IH; assumption |].
      apply insert_hd; [apply after_true; assumption | assumption].
    + constructor; [constructor; assumption |].
      constructor. apply after_false; assumption.
Qed.

End Insertion.

Lemma ascending_after_true (x y : num) :
  x <> NaN -> y <> NaN ->
  (ascending x y [>] Fin 0) = true -> Spec.le_num y x.
Proof.
  intros Hx Hy. rewrite ascending_after by assumption. apply after_le.
Qed.

Lemma ascending_after_false (x y : num) :
  x <> NaN -> y <> NaN ->
  (ascending x y [>] Fin 0) = false -> Spec.le_num x y.
Proof.
  intros Hx Hy. rewrite ascending_after by assumption.
  apply not_after_le; assumption.
Qed.

Lemma sort_length (l : list num) :
  List.length (Arr.sort ascending l) = List.length l.
Proof.
  unfold Arr.sort. induction l as [|x l IH]; cbn [fold_right].
  - reflexivity.
  - rewrite insert_length, IH. reflexivity.
Qed.

Lemma sort_not_NaN (l : list num) :
  Forall (fun p => p <> NaN) l ->
  Forall (fun p => p <> NaN) (Arr.sort ascending l).
Proof.
  unfold Arr.sort. induction 1 as [|x l Hx Hl IH]; cbn [fold_right].
  - constructor.
  - apply insert_not_NaN; assumption.
Qed.

(** The sorted copy is ascending when no price is [NaN]. *)
Lemma sort_sorted (l : list num) :
  Forall (fun p => p <> NaN) l ->
  StronglySorted Spec.le_num (Arr.sort ascending l).
Proof.
  intros Hn. apply Sorted_StronglySorted.
  - intros a b c; apply le_num_trans.
  - unfold Arr.sort.
    induction Hn as [|x l Hx Hl IH]; cbn [fold_right]; [constructor |].
    apply insert_sorted; try assumption.
    + apply ascending_after_true.
    + apply ascending_after_false.
    + apply (sort_not_NaN l Hl).
Qed.

(** In an ascending array, a smaller index holds a smaller element. *)
Lemma strongly_sorted_nth (l : list num) (i j : nat) :
  StronglySorted Spec.le_num l -> Forall (fun p => p <> NaN) l ->
  (i <= j)%nat -> (j < List.length l)%nat ->
  Spec.le_num (nth i l NaN) (nth j l NaN).
Proof.
  intros Hs. revert i j.
  induction Hs as [|x l Hs IH Hall]; intros i j Hn Hij Hj; cbn in Hj.
  - lia.
  - inversion Hn as [|? ? Hx Hl]; subst.
    destruct i as [|i], j as [|j]; cbn.
    + apply le_num_refl; assumption.
    + rewrite Forall_forall in Hall. apply Hall, nth_In. lia.
    + lia.
    + apply IH; [assumption | lia | lia].
Qed.

Lemma Int_part_le (a b : R) : a <= b -> (Int_part a <= Int_part b)%Z.
Proof.
  intros Hab.
  destruct (base_Int_part a) as [Ha _], (base_Int_part b) as [_ Hb].
  assert (H : IZR (Int_part a) < IZR (Int_part b + 1)).
  { rewrite plus_IZR. lra. }
  apply lt_IZR in H. lia.
Qed.

Lemma floor_index_le (n : nat) (c1 c2 : R) :
  0 <= c1 <= c2 -> (floor_index n c1 <= floor_index n c2)%nat.
Proof.
  intros Hc. unfold floor_index.
  apply Z2Nat.inj_le.
  - replace 0%Z with (Int_part 0)
      by (symmetry; apply Int_part_spec; cbn; lra).
    apply Int_part_le. pose proof (pos_INR n). nra.
  - replace 0%Z with (Int_part 0)
      by (symmetry; apply Int_part_spec; cbn; lra).
    apply Int_part_le. pose proof (pos_INR n). nra.
  - apply Int_part_le. pose proof (pos_INR n). nra.
Qed.

Lemma floor_index_lt (n : nat) (c : R) :
  0 <= c < 1 -> (0 < n)%nat -> (floor_index n c < n)%nat.
Proof.
  intros Hc Hn. unfold floor_index.
  assert (Hpos : 0 < INR n) by (apply lt_0_INR; assumption).
  destruct (base_Int_part (INR n * c)) as [Hle Hgt].
  assert (H1 : IZR (Int_part (INR n * c)) < IZR (Z.of_nat n)).
  { rewrite <- INR_IZR_INZ. nra. }
  apply lt_IZR in H1.
  assert (H0 : IZR (-1) < IZR (Int_part (INR n * c))) by nra.
  apply lt_IZR in H0. lia.
Qed.

(** On a non-empty array without [NaN] the sorted copy is ascending, the
    two quartile indices are in range and in order, and so are the values
    read at them. *)
Lemma support_le_resistance_not_NaN (prices : list num) :
  prices <> [] ->
  Forall (fun p => p <> NaN) prices ->
  let n := List.length prices in
  StronglySorted Spec.le_num (Arr.sort ascending prices)
  /\ (floor_index n 0.25 <= floor_index n 0.75 < n)%nat
  /\ exists s r : num,
       support (findSupportResistance prices) = Some s
       /\ resistance (findSupportResistance prices) = Some r
       /\ (s [<=] r) = true.
Proof.
  intros Hne Hn n.
  assert (Hlen : (0 < n)%nat).
  { unfold n. destruct prices; [contradiction | cbn; lia]. }
  assert (Hq : (floor_index n 0.25 <= floor_index n 0.75)%nat)
    by (apply floor_index_le; lra).
  assert (Hq3 : (floor_index n 0.75 < n)%nat)
    by (apply floor_index_lt; [lra | assumption]).
  pose proof (sort_sorted prices Hn) as Hsorted.
  split; [assumption |].
  split; [lia |].
  exists (nth (floor_index n 0.25) (Arr.sort ascending prices) NaN),
         (nth (floor_index n 0.75) (Arr.sort ascending prices) NaN).
  unfold findSupportResistance; cbn [support resistance].
  fold n.
  split; [|split].
  - apply nth_error_nth'. rewrite sort_length. fold n. lia.
  - apply nth_error_nth'. rewrite sort_length. fold n. lia.
  - apply strongly_sorted_nth; try assumption.
    + apply sort_not_NaN; assumption.
    + rewrite sort_length. fold n. lia.
Qed.

Lemma prices_not_NaN (ps : list R) :
  Forall (fun p => p <> NaN) (map Fin ps).
Proof.
  induction ps as [|p ps IH]; cbn; constructor; [discriminate | assumption].
Qed.

(** C10: for every non-empty list of prices, [findSupportResistance]
    returns a support that is at most the resistance: the sorted copy is
    ascending, and the two values are read from it at the indices
    [floor(n * 0.25) <= floor(n * 0.75)], both below [n]. *)
Theorem C10_support_le_resistance (ps : list R) :
  ps <> [] ->
  let prices := map Fin ps in
  let n := List.length prices in
  StronglySorted Spec.le_num (Arr.sort ascending prices)
  /\ (floor_index n 0.25 <= floor_index n 0.75 < n)%nat
  /\ exists s r : num,
       support (findSupportResistance prices) = Some s
       /\ resistance (findSupportResistance prices) = Some r
       /\ (s [<=] r) = true.
Proof.
  intros Hne prices.
  apply support_le_resistance_not_NaN.
  - unfold prices. destruct ps; [contradiction | discriminate].
  - apply prices_not_NaN.
Qed.

Lemma C10_support_le_resistance_witness :
  let prices := map Fin [130; 120; 110; 100] in
  let n := List.length prices in
  StronglySorted Spec.le_num (Arr.sort ascending prices)
  /\ (floor_index n 0.25 <= floor_index n 0.75 < n)%nat
  /\ exists s r : num,
       support (findSupportResistance prices) = Some s
       /\ resistance (findSupportResistance prices) = Some r
       /\ (s [<=] r) = true.
Proof.
  apply (C10_support_le_resistance [130; 120; 110; 100]).
  discriminate.
Defined.

End SupportResistance.

(* ================================================================== *)
(** * Volatility                                                       *)
(* ================================================================== *)

Section Volatility.

Import Analysis.

Lemma Rsum_squares_nonneg (xs : list R) :
  0 <= Spec.Rsum (map (fun x => x * x) xs).
Proof.
  unfold Spec.Rsum. induction xs as [|x xs IH]; cbn; [lra |].
  pose proof (Rle_0_sqr x) as Hx. unfold Rsqr in Hx. lra.
Qed.

(** The accumulator of [reduce] over finite returns is the real sum of
    their squares. *)
Lemma sum_squares_from (rs : list R) (a : R) :
  fold_left (fun acc ret => acc [+] Math_pow ret 2) (map Fin rs) (Fin a)
  = Fin (a + Spec.Rsum (map (fun x => x * x) rs)).
Proof.
  revert a. induction rs as [|r rs IH]; intros a; cbn [map fold_left].
  - unfold Spec.Rsum; cbn. f_equal; lra.
  - cbn [Math_pow mul add]. rewrite IH.
    unfold Spec.Rsum; cbn [map fold_right]. f_equal; lra.
Qed.

Lemma sum_squares_fin (rs : list R) :
  sum_squares (map Fin rs) = Fin (Spec.Rsum (map (fun x => x * x) rs)).
Proof.
  unfold sum_squares, Arr.reduce. rewrite sum_squares_from. f_equal; lra.
Qed.

Lemma skipn_cons_nth {A : Type} (k : nat) (l r : list A) (x d : A) :
  skipn k l = x :: r -> nth k l d = x /\ skipn (S k) l = r.
Proof.
  revert l. induction k as [|k IH]; intros [|y l] H; cbn in *;
    try discriminate.
  - inversion H; auto.
  - apply IH; assumption.
Qed.

Lemma skipn_cons_lt {A : Type} (k : nat) (l r : list A) (x : A) :
  skipn k l = x :: r -> (k < List.length l)%nat.
Proof.
  revert l. induction k as [|k IH]; intros [|y l] H; cbn in *;
    try discriminate; try lia.
  apply IH in H. lia.
Qed.

(** The log returns of positive prices are the real logarithms of the
    quotients of consecutive prices. *)
Lemma log_returns_from_fin (all : list R) :
  Forall (fun p => 0 < p) all ->
  forall (rest : list R) (k : nat) (prev : R),
    skipn k all = prev :: rest ->
    Arr.mapi_from
      (fun price i => Math_log (price [/] Arr.get (map Fin all) i))
      k (map Fin rest)
    = map Fin (Spec.log_returns_from prev rest).
Proof.
  intros Hpos rest.
  induction rest as [|p rest IH]; intros k prev Hk; cbn [map Arr.mapi_from].
  - reflexivity.
  - destruct (skipn_cons_nth k all (p :: rest) prev 0 Hk) as [Hprev Hrest].
    pose proof (skipn_cons_lt _ _ _ _ Hk) as Hlt.
    pose proof (skipn_cons_lt _ _ _ _ Hrest) as Hlt'.
    destruct (skipn_cons_nth (S k) all rest p 0 Hrest) as [Hp _].
    rewrite Forall_forall in Hpos.
    assert (Hprev_pos : 0 < prev).
    { rewrite <- Hprev. apply Hpos, nth_In; assumption. }
    assert (Hp_pos : 0 < p).
    { rewrite <- Hp. apply Hpos, nth_In; assumption. }
    cbn [Spec.log_returns_from map]. f_equal.
    + unfold Arr.get.
      rewrite (nth_indep _ NaN (Fin 0)) by (rewrite length_map; assumption).
      rewrite map_nth, Hprev.
      rewrite div_fin by lra.
      apply log_fin. apply Rdiv_lt_0_compat; assumption.
    + apply IH. assumption.
Qed.

Lemma log_returns_fin (p0 : R) (rest : list R) :
  Forall (fun p => 0 < p) (p0 :: rest) ->
  log_returns (map Fin (p0 :: rest))
  = map Fin (Spec.log_returns (p0 :: rest)).
Proof.
  intros Hpos. unfold log_returns, Arr.mapi, Arr.slice_from.
  cbn [map skipn Spec.log_returns].
  change (Fin p0 :: map Fin rest) with (map Fin (p0 :: rest)).
  apply log_returns_from_fin; [assumption | reflexivity].
Qed.

Lemma log_returns_from_length (prev : R) (rest : list R) :
  List.length (Spec.log_returns_from prev rest) = List.length rest.
Proof.
  revert prev. induction rest as [|p rest IH]; intros prev; cbn; auto.
Qed.

(** The square root under [calculateVolatility] and under [stdDev] of
    [calculatePriceTargets]: the root mean square of the log returns. *)
Lemma rms_of_log_returns (ps : list R) :
  Forall (fun p => 0 < p) ps -> (2 <= List.length ps)%nat ->
  Math_sqrt (sum_squares (log_returns (map Fin ps))
             [/] of_nat (List.length (log_returns (map Fin ps))))
  = Fin (Spec.root_mean_square (Spec.log_returns ps)).
Proof.
  intros Hpos Hlen.
  destruct ps as [|p0 rest]; [cbn in Hlen; lia |].
  rewrite log_returns_fin by assumption.
  rewrite sum_squares_fin, length_map.
  cbn [Spec.log_returns]. rewrite log_returns_from_length.
  assert (Hn : 0 < INR (List.length rest)).
  { apply lt_0_INR. cbn in Hlen. lia. }
  unfold of_nat. rewrite div_fin by lra.
  rewrite sqrt_fin.
  - unfold Spec.root_mean_square. rewrite log_returns_from_length.
    reflexivity.
  - pose proof (Rsum_squares_nonneg (Spec.log_returns_from p0 rest)).
    apply Rmult_le_pos; [assumption |].
    apply Rlt_le, Rinv_0_lt_compat; assumption.
Qed.

Lemma sqrt_365_fin : Math_sqrt (Fin 365) = Fin (sqrt 365).
Proof. apply sqrt_fin; lra. Qed.

Lemma volatility_is_rms (ps : list R) :
  Forall (fun p => 0 < p) ps -> (2 <= List.length ps)%nat ->
  calculateVolatility (map Fin ps)
  = Fin (Spec.root_mean_square (Spec.log_returns ps) * sqrt 365 * 100).
Proof.
  intros Hpos Hlen. unfold calculateVolatility.
  rewrite rms_of_log_returns by assumption.
  rewrite sqrt_365_fin. reflexivity.
Qed.

(** Sum of squared deviations about any centre [m]. *)
Lemma Rsum_deviations (xs : list R) (m : R) :
  Spec.Rsum (map (fun x => (x - m) * (x - m)) xs)
  = Spec.Rsum (map (fun x => x * x) xs) - 2 * m * Spec.Rsum xs
    + INR (List.length xs) * m * m.
Proof.
  induction xs as [|x xs IH].
  - cbn. lra.
  - cbn [map Spec.Rsum fold_right List.length] in *.
    rewrite S_INR. unfold Spec.Rsum in IH. rewrite IH. ring.
Qed.

(** The mean square is the variance plus the squared mean. *)
Lemma mean_square_decomposition (xs : list R) :
  xs <> [] ->
  Spec.Rsum (map (fun x => x * x) xs) / INR (List.length xs)
  = Spec.variance 0 xs + Spec.mean xs * Spec.mean xs.
Proof.
  intros Hne.
  assert (Hn : INR (List.length xs) <> 0).
  { apply not_0_INR. destruct xs; [contradiction | discriminate]. }
  unfold Spec.variance. rewrite Nat.sub_0_r.
  rewrite Rsum_deviations. unfold Spec.mean. field. assumption.
Qed.

(** C4, as stated, fails on prices 1, 2, 4: both log returns are [ln 2],
    their standard deviation (population or sample) is 0, and the value
    computed is positive. *)
Lemma C4_not_standard_deviation :
  calculateVolatility [Fin 1; Fin 2; Fin 4]
  <> Fin (Spec.annualized_volatility 0 [1; 2; 4])
  /\ calculateVolatility [Fin 1; Fin 2; Fin 4]
     <> Fin (Spec.annualized_volatility 1 [1; 2; 4]).
Proof.
  assert (Hv : calculateVolatility [Fin 1; Fin 2; Fin 4]
               = Fin (ln 2 * sqrt 365 * 100)).
  { change [Fin 1; Fin 2; Fin 4] with (map Fin [1; 2; 4]).
    rewrite volatility_is_rms.
    - unfold Spec.root_mean_square. cbn.
      replace (2 / 1) with 2 by lra. replace (4 / 2) with 2 by lra.
      replace ((ln 2 * ln 2 + (ln 2 * ln 2 + 0)) / (1 + 1))
        with (ln 2 * ln 2) by lra.
      rewrite sqrt_square; [reflexivity |].
      pose proof ln_lt_2. lra.
    - repeat constructor; lra.
    - cbn; lia. }
  assert (Hs : forall ddof, Spec.annualized_volatility ddof [1; 2; 4] = 0).
  { intros ddof.
    unfold Spec.annualized_volatility, Spec.standard_deviation,
      Spec.variance, Spec.mean.
    cbn [Spec.log_returns Spec.log_returns_from map Spec.Rsum fold_right
         List.length].
    replace (2 / 1) with 2 by lra. replace (4 / 2) with 2 by lra.
    replace (INR 2) with 2 by (cbn; lra).
    replace ((ln 2 + (ln 2 + 0)) / 2) with (ln 2) by lra.
    replace ((ln 2 - ln 2) * (ln 2 - ln 2)
             + ((ln 2 - ln 2) * (ln 2 - ln 2) + 0)) with 0 by lra.
    unfold Rdiv. rewrite !Rmult_0_l, sqrt_0. lra. }
  assert (Hpos : 0 < ln 2 * sqrt 365 * 100).
  { pose proof ln_lt_2. assert (0 < sqrt 365) by (apply sqrt_lt_R0; lra).
    apply Rmult_lt_0_compat; [apply Rmult_lt_0_compat |]; lra. }
  rewrite Hv, !Hs.
  split; intros H; inversion H; lra.
Qed.

(** C4 (amended): for every series of at least two positive prices,
    [calculateVolatility] is the root mean square of the log returns (the
    square root of the mean of their squares) times [sqrt 365] times 100;
    the mean square is the variance plus the squared mean, so the value is
    the standard deviation taken about zero, not about the mean of the
    returns. *)
Theorem C4_volatility_is_rms_of_log_returns (ps : list R) :
  Forall (fun p => 0 < p) ps -> (2 <= List.length ps)%nat ->
  let rs := Spec.log_returns ps in
  calculateVolatility (map Fin ps)
  = Fin (Spec.root_mean_square rs * sqrt 365 * 100)
  /\ Spec.root_mean_square rs
     = sqrt (Spec.variance 0 rs + Spec.mean rs * Spec.mean rs).
Proof.
  intros Hpos Hlen rs. split.
  - apply volatility_is_rms; assumption.
  - unfold Spec.root_mean_square. f_equal.
    apply mean_square_decomposition.
    unfold rs. destruct ps as [|p0 [|p1 rest]]; cbn in Hlen; try lia.
    discriminate.
Qed.

Lemma C4_volatility_is_rms_of_log_returns_witness :
  let rs := Spec.log_returns [1; 2; 4] in
  calculateVolatility (map Fin [1; 2; 4])
  = Fin (Spec.root_mean_square rs * sqrt 365 * 100)
  /\ Spec.root_mean_square rs
     = sqrt (Spec.variance 0 rs + Spec.mean rs * Spec.mean rs).
Proof.
  apply (C4_volatility_is_rms_of_log_returns [1; 2; 4]).
  - repeat constructor; lra.
  - cbn; lia.
Defined.

End Volatility.

(* ================================================================== *)
(** * Price targets                                                    *)
(* ================================================================== *)

Section PriceTargets.

Import AnalysisGemini.

Lemma sum_from (xs : list R) (a : R) :
  fold_left (fun acc x => acc [+] x) (map Fin xs) (Fin a)
  = Fin (a + Spec.Rsum xs).
Proof.
  unfold Spec.Rsum. revert a.
  induction xs as [|x xs IH]; intros a; cbn [map fold_left fold_right].
  - f_equal; lra.
  - cbn [add]. rewrite IH. f_equal; lra.
Qed.

Lemma sum_fin (xs : list R) : Analysis.sum (map Fin xs) = Fin (Spec.Rsum xs).
Proof.
  unfold Analysis.sum, Arr.reduce. rewrite sum_from. f_equal; lra.
Qed.

Lemma slice_last_map (k : nat) (ps : list R) :
  Arr.slice_last k (map Fin ps) = map Fin (Arr.slice_last k ps).
Proof.
  destruct k as [|k]; cbn [Arr.slice_last]; [reflexivity |].
  rewrite length_map. apply skipn_map.
Qed.

(** The second variant's moving average of finite prices is finite. *)
Lemma calculateSMA_fin (ps : list R) (k : nat) :
  (0 < k)%nat ->
  calculateSMA (map Fin ps) k
  = Fin (Spec.Rsum (Arr.slice_last k ps) / INR k).
Proof.
  intros Hk. unfold calculateSMA.
  rewrite slice_last_map, sum_fin.
  unfold of_nat. apply div_fin.
  apply not_0_INR. lia.
Qed.

Lemma Rsum_positive (xs : list R) :
  xs <> [] -> Forall (fun p => 0 < p) xs -> 0 < Spec.Rsum xs.
Proof.
  unfold Spec.Rsum.
  intros Hne Hpos. induction Hpos as [|x xs Hx Hpos IH];
    [contradiction |].
  cbn. destruct xs as [|y xs].
  - cbn. lra.
  - assert (0 < fold_right Rplus 0 (y :: xs)) by (apply IH; discriminate).
    lra.
Qed.

Lemma Forall_skipn_pos (n : nat) (xs : list R) :
  Forall (fun p => 0 < p) xs -> Forall (fun p => 0 < p) (skipn n xs).
Proof.
  revert xs. induction n as [|n IH]; intros xs H; cbn; [assumption |].
  destruct H; [constructor | apply IH; assumption].
Qed.

Lemma slice_last_positive (k : nat) (ps : list R) :
  (0 < k)%nat -> ps <> [] -> Forall (fun p => 0 < p) ps ->
  0 < Spec.Rsum (Arr.slice_last k ps).
Proof.
  intros Hk Hne Hpos.
  apply Rsum_positive.
  - destruct k as [|k]; [lia |]. cbn [Arr.slice_last].
    intros Hnil.
    assert (Hlen : List.length (skipn (List.length ps - S k) ps) = 0%nat)
      by (rewrite Hnil; reflexivity).
    rewrite length_skipn in Hlen.
    assert (0 < List.length ps)%nat
      by (destruct ps; [contradiction | cbn [List.length]; lia]).
    lia.
  - destruct k as [|k]; [lia |]. cbn [Arr.slice_last].
    apply Forall_skipn_pos; assumption.
Qed.

(** On at least two positive prices the annualized volatility and the
    momentum inside [calculatePriceTargets] are finite. *)
Lemma annualizedVol_fin (ps : list R) :
  Forall (fun p => 0 < p) ps -> (2 <= List.length ps)%nat ->
  annualizedVol (map Fin ps)
  = Fin (Spec.root_mean_square (Spec.log_returns ps) * sqrt 365).
Proof.
  intros Hpos Hlen. unfold annualizedVol, stdDev.
  change (dailyReturns (map Fin ps))
    with (Analysis.log_returns (map Fin ps)).
  change (Arr.reduce (fun acc ret => acc [+] Math_pow ret 2) (Fin 0)
            (Analysis.log_returns (map Fin ps)))
    with (Analysis.sum_squares (Analysis.log_returns (map Fin ps))).
  rewrite rms_of_log_returns by assumption.
  rewrite sqrt_365_fin. reflexivity.
Qed.

Lemma momentum_fin (ps : list R) :
  Forall (fun p => 0 < p) ps -> ps <> [] ->
  exists m : R, momentum (map Fin ps) = Fin m.
Proof.
  intros Hpos Hne. unfold momentum.
  rewrite !calculateSMA_fin by lia.
  pose proof (slice_last_positive 50 ps ltac:(lia) Hne Hpos) as H50.
  assert (Hinr : 0 < INR 50) by (apply lt_0_INR; lia).
  cbn [sub neg add].
  rewrite div_fin.
  - eauto.
  - apply Rgt_not_eq. apply Rmult_lt_0_compat; [assumption |].
    apply Rinv_0_lt_compat; assumption.
Qed.

(** One timeframe, on finite quantities: the target brackets the price
    exactly when the clamps do and the bias stays within the widths. *)
Lemma bracket_iff (a c cp v sr rr b : R) :
  (Math_max (Fin a) (Fin (cp + - v + - sr + b)) [<=] Fin cp)
  && (Fin cp [<=] Math_min (Fin c) (Fin (cp + v + rr + b)))
  = ((Fin a [<=] Fin cp) && (Fin cp [<=] Fin c))
    && ((Fin (- (v + rr)) [<=] Fin b) && (Fin b [<=] Fin (v + sr))).
Proof.
  rewrite max_fin, min_fin.
  cbn [leb]. apply eq_true_iff_eq.
  rewrite !andb_true_iff, !Rleb_spec.
  unfold Rmax, Rmin.
  destruct (Rle_dec a (cp + - v + - sr + b)),
           (Rle_dec c (cp + v + rr + b)); lra.
Qed.

(** A lower bound clamped to a level above the price is above the
    price. *)
Lemma max_above (a c : R) (x : num) :
  c < a -> (Math_max (Fin a) x [<=] Fin c) = false.
Proof.
  intros Hac. destruct x as [| | |r]; cbn; try reflexivity.
  - apply Rleb_false; assumption.
  - unfold Rltb. destruct (Rlt_dec a r); cbn; apply Rleb_false; lra.
Qed.

(** C3, as stated, fails when the price is under the support: with the
    prices 130, 120, 110, 100 the support is 110 (and the resistance 130),
    the current price is 100, and the 24H low is at least 110. *)
Lemma C3_low_above_current_price :
  Analysis.findSupportResistance [Fin 130; Fin 120; Fin 110; Fin 100]
  = Analysis.mkLevels (Some (Fin 110)) (Some (Fin 130))
  /\ (Fin 0 [<=] Fin 20) = true
  /\ Spec.brackets (Fin 100)
       (shortTerm
          (calculatePriceTargets (Fin 100)
             [Fin 130; Fin 120; Fin 110; Fin 100] (Fin 20)
             (Fin 110) (Fin 130)))
     = false.
Proof.
  split; [|split].
  - unfold Analysis.findSupportResistance, Analysis.floor_index.
    replace (Int_part (INR (List.length [Fin 130; Fin 120; Fin 110; Fin 100])
                       * 0.25)) with 1%Z
      by (apply Int_part_spec; cbn; lra).
    replace (Int_part (INR (List.length [Fin 130; Fin 120; Fin 110; Fin 100])
                       * 0.75)) with 3%Z
      by (apply Int_part_spec; cbn; lra).
    unfold Arr.sort, Analysis.ascending. js_eval. reflexivity.
  - apply Rleb_true; lra.
  - unfold Spec.brackets, calculatePriceTargets; cbn [shortTerm low high].
    rewrite max_above by lra. reflexivity.
Qed.

(** C3 (amended): for at least two positive prices and a finite current
    price, support and resistance, and whatever the [volatility] argument,
    each timeframe's target satisfies [low <= currentPrice <= high] exactly
    when the price lies between the clamps of that timeframe
    ([support], [0.95 support], [0.9 support] below and [resistance],
    [1.05 resistance], [1.1 resistance] above) and the momentum bias of
    that timeframe (once, twice, three times [momentumBias]) lies between
    [-(volatilityRange + resistanceRange)] and
    [volatilityRange + supportRange]. *)
Theorem C3_target_brackets_price_iff
  (ps : list R) (cp s r : R) (volatility : num) :
  Forall (fun p => 0 < p) ps -> (2 <= List.length ps)%nat ->
  let prices := map Fin ps in
  let t := calculatePriceTargets (Fin cp) prices volatility (Fin s) (Fin r) in
  let bias := momentumBias (Fin cp) prices in
  Spec.brackets (Fin cp) (shortTerm t)
  = Spec.levels_bracket 1 1 (Fin cp) (Fin s) (Fin r)
    && Spec.bias_within bias (ranges_24H (Fin cp) prices (Fin s) (Fin r))
  /\ Spec.brackets (Fin cp) (midTerm t)
     = Spec.levels_bracket 0.95 1.05 (Fin cp) (Fin s) (Fin r)
       && Spec.bias_within (bias [*] Fin 2)
            (ranges_7D (Fin cp) prices (Fin s) (Fin r))
  /\ Spec.brackets (Fin cp) (longTerm t)
     = Spec.levels_bracket 0.9 1.1 (Fin cp) (Fin s) (Fin r)
       && Spec.bias_within (bias [*] Fin 3)
            (ranges_30D (Fin cp) prices (Fin s) (Fin r)).
Proof.
  intros Hpos Hlen prices t bias.
  assert (Hne : ps <> []) by (destruct ps; [cbn in Hlen; lia | discriminate]).
  destruct (momentum_fin ps Hpos Hne) as [m Hm].
  pose proof (annualizedVol_fin ps Hpos Hlen) as Hvol.
  unfold t, bias, calculatePriceTargets, Spec.brackets, Spec.levels_bracket,
    Spec.bias_within, ranges_24H, ranges_7D, ranges_30D, range_of,
    momentumBias.
  cbn [shortTerm midTerm longTerm low high volatilityRange supportRange
       resistanceRange].
  fold prices. unfold prices. rewrite Hm, Hvol.
  cbn [mul Math_abs sub neg add].
  split; [|split].
  - replace (s * 1) with s by lra. replace (r * 1) with r by lra.
    apply bracket_iff.
  - apply bracket_iff.
  - apply bracket_iff.
Qed.

Lemma C3_target_brackets_price_iff_witness :
  let prices := map Fin [100; 102; 101; 105] in
  let t :=
    calculatePriceTargets (Fin 105) prices (Fin 20) (Fin 101) (Fin 105) in
  let bias := momentumBias (Fin 105) prices in
  Spec.brackets (Fin 105) (shortTerm t)
  = Spec.levels_bracket 1 1 (Fin 105) (Fin 101) (Fin 105)
    && Spec.bias_within bias (ranges_24H (Fin 105) prices (Fin 101) (Fin 105))
  /\ Spec.brackets (Fin 105) (midTerm t)
     = Spec.levels_bracket 0.95 1.05 (Fin 105) (Fin 101) (Fin 105)
       && Spec.bias_within (bias [*] Fin 2)
            (ranges_7D (Fin 105) prices (Fin 101) (Fin 105))
  /\ Spec.brackets (Fin 105) (longTerm t)
     = Spec.levels_bracket 0.9 1.1 (Fin 105) (Fin 101) (Fin 105)
       && Spec.bias_within (bias [*] Fin 3)
            (ranges_30D (Fin 105) prices (Fin 101) (Fin 105)).
Proof.
  apply (C3_target_brackets_price_iff [100; 102; 101; 105] 105 101 105
           (Fin 20)).
  - repeat constructor; lra.
  - cbn; lia.
Defined.

End PriceTargets.

(* ================================================================== *)
(** * Moving averages and MACD                                         *)
(* ================================================================== *)

Section MovingAverages.

Import Analysis.

Lemma slice_last_length {A : Type} (k : nat) (l : list A) :
  (0 < k)%nat -> List.length (Arr.slice_last k l) = Nat.min k (List.length l).
Proof.
  intros Hk. destruct k as [|k]; [lia |]. cbn [Arr.slice_last].
  rewrite length_skipn. lia.
Qed.

(** On prices the simple moving average is a finite number: the mean of
    the window that [slice(-period)] keeps. *)
Lemma sma_of_prices (ps : list R) (period : nat) :
  ps <> [] -> (0 < period)%nat ->
  calculateSMA (map Fin ps) period
  = Fin (Spec.mean (Arr.slice_last period ps)).
Proof.
  intros Hne Hk.
  destruct ps as [|p ps]; [contradiction |].
  unfold calculateSMA. cbn [map].
  change (Fin p :: map Fin ps) with (map Fin (p :: ps)).
  rewrite slice_last_map, sum_fin, length_map.
  unfold of_nat, Spec.mean. apply div_fin.
  apply not_0_INR. rewrite slice_last_length by assumption.
  cbn [List.length]. lia.
Qed.

(** X1: [calculateSMA] answers 0 on an empty array; on prices it is the
    arithmetic mean of the last [min(period, n)] of them. *)
Theorem sma_is_mean_of_last (ps : list R) (period : nat) :
  ps <> [] -> (0 < period)%nat ->
  calculateSMA [] period = Fin 0
  /\ calculateSMA (map Fin ps) period
     = Fin (Spec.mean (Arr.slice_last period ps))
  /\ List.length (Arr.slice_last period ps)
     = Nat.min period (List.length ps).
Proof.
  intros Hne Hk.
  split; [reflexivity |].
  split; [apply sma_of_prices | apply slice_last_length]; assumption.
Qed.

Lemma sma_is_mean_of_last_witness :
  calculateSMA [] 20 = Fin 0
  /\ calculateSMA (map Fin [100; 102; 101]) 20
     = Fin (Spec.mean (Arr.slice_last 20 [100; 102; 101]))
  /\ List.length (Arr.slice_last 20 [100; 102; 101])
     = Nat.min 20 (List.length [100; 102; 101]).
Proof.
  apply (sma_is_mean_of_last [100; 102; 101] 20).
  - discriminate.
  - lia.
Defined.

Lemma ema_push_length (m prev : num) (rest : list num) :
  List.length (ema_push m prev rest) = List.length rest.
Proof.
  revert prev. induction rest as [|p rest IH]; intros prev; cbn; auto.
Qed.

(** The smoothing factor [2 / (period + 1)] lies in (0, 1]. *)
Lemma ema_multiplier (period : nat) :
  (1 <= period)%nat ->
  exists m : R, Fin 2 [/] (of_nat period [+] Fin 1) = Fin m /\ 0 < m <= 1.
Proof.
  intros Hp. unfold of_nat. cbn [add].
  assert (H1 : 1 <= INR period) by (apply (le_INR 1); assumption).
  rewrite div_fin by lra.
  eexists; split; [reflexivity |]. split.
  - apply Rdiv_lt_0_compat; lra.
  - apply Rmult_le_reg_r with (INR period + 1); [lra |].
    unfold Rdiv. rewrite Rmult_assoc, Rinv_l by lra. lra.
Qed.

(** One more value of the average stays between the bounds of the
    inputs. *)
Lemma ema_push_in_range (lo hi m : R) (prev : num) (rest : list num) :
  0 < m <= 1 ->
  Spec.in_range lo hi prev ->
  Forall (Spec.in_range lo hi) rest ->
  Forall (Spec.in_range lo hi) (ema_push (Fin m) prev rest).
Proof.
  intros Hm Hprev Hrest. revert prev Hprev.
  induction Hrest as [|p rest Hp Hrest IH]; intros prev Hprev; cbn [ema_push].
  - constructor.
  - destruct Hp as [x [-> Hx]], Hprev as [e [-> He]].
    cbn [sub neg add mul].
    assert (Hnew : Spec.in_range lo hi (Fin ((x + - e) * m + e))).
    { eexists; split; [reflexivity |]. nra. }
    constructor; [exact Hnew | apply IH; exact Hnew].
Qed.

Lemma calculateEMA_in_range (lo hi : R) (prices : list num) (period : nat) :
  prices <> [] -> (1 <= period)%nat ->
  Forall (Spec.in_range lo hi) prices ->
  Forall (Spec.in_range lo hi) (calculateEMA prices period).
Proof.
  intros Hne Hp Hall.
  destruct prices as [|p0 rest]; [contradiction |].
  inversion Hall as [|? ? Hp0 Hrest]; subst.
  unfold calculateEMA.
  destruct (ema_multiplier period Hp) as [m [-> Hm]].
  constructor; [assumption |].
  apply ema_push_in_range; assumption.
Qed.

Lemma calculateEMA_length (prices : list num) (period : nat) :
  List.length (calculateEMA prices period)
  = Nat.max 1 (List.length prices).
Proof.
  unfold calculateEMA. destruct prices as [|p0 rest]; [reflexivity |].
  cbn [List.length]. rewrite ema_push_length. lia.
Qed.

Lemma prices_in_range (lo hi : R) (ps : list R) :
  Forall (fun p => lo <= p <= hi) ps ->
  Forall (Spec.in_range lo hi) (map Fin ps).
Proof.
  induction 1 as [|p ps Hp _ IH]; cbn; constructor; [| assumption].
  exists p; auto.
Qed.

(** X2: [calculateEMA] returns one value per price (and the one-element
    array [[undefined]] on an empty input); for a period of at least 1,
    every value lies between the bounds of the prices. *)
Theorem ema_length_and_range (ps : list R) (period : nat) (lo hi : R) :
  ps <> [] -> (1 <= period)%nat ->
  Forall (fun p => lo <= p <= hi) ps ->
  calculateEMA [] period = [NaN]
  /\ List.length (calculateEMA (map Fin ps) period) = List.length ps
  /\ Forall (Spec.in_range lo hi) (calculateEMA (map Fin ps) period).
Proof.
  intros Hne Hp Hall.
  split; [reflexivity |]. split.
  - rewrite calculateEMA_length, length_map.
    destruct ps; [contradiction | cbn [List.length]; lia].
  - apply calculateEMA_in_range; try assumption.
    + destruct ps; [contradiction | discriminate].
    + apply prices_in_range; assumption.
Qed.

Lemma ema_length_and_range_witness :
  calculateEMA [] 12 = [NaN]
  /\ List.length (calculateEMA (map Fin [100; 102; 101]) 12)
     = List.length [100; 102; 101]
  /\ Forall (Spec.in_range 100 102) (calculateEMA (map Fin [100; 102; 101]) 12).
Proof.
  apply (ema_length_and_range [100; 102; 101] 12 100 102).
  - discriminate.
  - lia.
  - repeat constructor; lra.
Defined.

End MovingAverages.

Section MACD.

Import Analysis.

Lemma get_in_range (lo hi : R) (l : list num) (i : nat) :
  Forall (Spec.in_range lo hi) l -> (i < List.length l)%nat ->
  Spec.in_range lo hi (Arr.get l i).
Proof.
  intros Hall Hi. rewrite Forall_forall in Hall.
  apply Hall. unfold Arr.get. apply nth_In. assumption.
Qed.

Lemma last_elem_in_range (lo hi : R) (l : list num) :
  l <> [] -> Forall (Spec.in_range lo hi) l ->
  Spec.in_range lo hi (Arr.last_elem l).
Proof.
  intros Hne Hall. unfold Arr.last_elem.
  destruct l as [|x l]; [contradiction |].
  cbn [List.length Arr.get_pred].
  apply get_in_range; [assumption | cbn [List.length]; lia].
Qed.

Lemma mapi_from_length {A B : Type} (f : A -> nat -> B) (k : nat)
  (l : list A) :
  List.length (Arr.mapi_from f k l) = List.length l.
Proof.
  revert k. induction l as [|x l IH]; intros k; cbn; auto.
Qed.

(** Differences of two series bounded alike are bounded by the spread. *)
Lemma series_difference_in_range (lo hi : R) (l2 l1 : list num) (k : nat) :
  Forall (Spec.in_range lo hi) l1 ->
  (forall i, (k <= i < k + List.length l1)%nat ->
             Spec.in_range lo hi (Arr.get l2 i)) ->
  Forall (Spec.in_range (lo - hi) (hi - lo))
         (Arr.mapi_from (fun v index => v [-] Arr.get l2 index) k l1).
Proof.
  intros Hall. revert k.
  induction Hall as [|x l1 Hx Hall IH]; intros k Hget; cbn [Arr.mapi_from].
  - constructor.
  - constructor.
    + destruct Hx as [a [-> Ha]].
      destruct (Hget k) as [b [-> Hb]]; [cbn [List.length]; lia |].
      eexists; split; [reflexivity |]. lra.
    + apply IH. intros i Hi. apply Hget. cbn [List.length]. lia.
Qed.

Lemma ema_nonempty (prices : list num) (period : nat) :
  calculateEMA prices period <> [].
Proof. unfold calculateEMA. destruct prices; discriminate. Qed.

(** X3: on prices between [lo] and [hi] the MACD line and the signal line
    are finite and within the spread [hi - lo] of zero, and the histogram
    within twice the spread; constant prices ([lo = hi]) give 0, 0, 0. *)
Theorem macd_within_spread (ps : list R) (lo hi : R) :
  ps <> [] ->
  Forall (fun p => lo <= p <= hi) ps ->
  let macd := calculateMACD (map Fin ps) in
  Spec.in_range (lo - hi) (hi - lo) (value macd)
  /\ Spec.in_range (lo - hi) (hi - lo) (signal macd)
  /\ Spec.in_range (2 * (lo - hi)) (2 * (hi - lo)) (histogram macd).
Proof.
  intros Hne Hall macd.
  assert (Hne' : map Fin ps <> [])
    by (destruct ps; [contradiction | discriminate]).
  pose proof (prices_in_range lo hi ps Hall) as Hprices.
  pose proof (calculateEMA_in_range lo hi _ 12 Hne' ltac:(lia) Hprices)
    as H12.
  pose proof (calculateEMA_in_range lo hi _ 26 Hne' ltac:(lia) Hprices)
    as H26.
  assert (Hseries :
    Forall (Spec.in_range (lo - hi) (hi - lo))
      (Arr.mapi (fun v index => v [-] Arr.get (calculateEMA (map Fin ps) 26)
                                              index)
                (calculateEMA (map Fin ps) 12))).
  { apply series_difference_in_range; [assumption |].
    intros i Hi. apply get_in_range; [assumption |].
    rewrite calculateEMA_length in *. lia. }
  assert (Hseries_ne :
    Arr.mapi (fun v index => v [-] Arr.get (calculateEMA (map Fin ps) 26)
                                           index)
             (calculateEMA (map Fin ps) 12) <> []).
  { intros Hnil. apply (f_equal (@List.length num)) in Hnil.
    unfold Arr.mapi in Hnil.
    rewrite mapi_from_length, calculateEMA_length in Hnil.
    cbn [List.length] in Hnil. lia. }
  pose proof (last_elem_in_range _ _ _ Hseries_ne Hseries) as Hvalue.
  pose proof (calculateEMA_in_range _ _ _ 9 Hseries_ne ltac:(lia) Hseries)
    as Hsignals.
  pose proof (last_elem_in_range _ _ _ (ema_nonempty _ 9) Hsignals)
    as Hsignal.
  unfold macd, calculateMACD; cbn [value signal histogram].
  split; [exact Hvalue |]. split; [exact Hsignal |].
  destruct Hvalue as [v [-> Hv]], Hsignal as [s [-> Hs]].
  eexists; split; [reflexivity |]. lra.
Qed.

Lemma macd_within_spread_witness :
  let macd := calculateMACD (map Fin [100; 100; 100]) in
  Spec.in_range (100 - 100) (100 - 100) (value macd)
  /\ Spec.in_range (100 - 100) (100 - 100) (signal macd)
  /\ Spec.in_range (2 * (100 - 100)) (2 * (100 - 100)) (histogram macd).
Proof.
  apply (macd_within_spread [100; 100; 100] 100 100).
  - discriminate.
  - repeat constructor; lra.
Defined.

(** Every list of reals has bounds. *)
Lemma prices_bounded (ps : list R) :
  exists lo hi : R, Forall (fun p => lo <= p <= hi) ps.
Proof.
  induction ps as [|p ps [lo [hi IH]]].
  - exists 0, 0. constructor.
  - exists (Rmin p lo), (Rmax p hi). constructor.
    + split; [apply Rmin_l | apply Rmax_l].
    + eapply Forall_impl; [| exact IH].
      intros x [Hlo Hhi]. cbn.
      pose proof (Rmin_r p lo). pose proof (Rmax_r p hi). lra.
Qed.

(** X4: in the second variant the signal line is the EMA of the
    one-element array that holds the MACD line, that is the MACD line
    itself: on any non-empty list of prices the histogram is 0, and the
    interpretation is always "Bearish momentum", the trend of the sign of
    the line, and "potential trend reversal". *)
Theorem gemini_macd_signal_is_value (ps : list R) :
  ps <> [] ->
  exists v : R,
    value (AnalysisGemini.calculateMACD (map Fin ps)) = Fin v
    /\ signal (AnalysisGemini.calculateMACD (map Fin ps)) = Fin v
    /\ histogram (AnalysisGemini.calculateMACD (map Fin ps)) = Fin 0
    /\ interpretation (AnalysisGemini.calculateMACD (map Fin ps))
       = ("Bearish momentum"
          ++ (if Rltb 0 v then ", upward trend"
              else if Rltb v 0 then ", downward trend" else "")
          ++ ", potential trend reversal")%string.
Proof.
  intros Hne.
  assert (Hne' : map Fin ps <> [])
    by (destruct ps; [contradiction | discriminate]).
  destruct (prices_bounded ps) as [lo [hi Hall]].
  pose proof (prices_in_range lo hi ps Hall) as Hprices.
  pose proof (last_elem_in_range _ _ _ (ema_nonempty _ 12)
                (calculateEMA_in_range lo hi _ 12 Hne' ltac:(lia) Hprices))
    as [a [Ha _]].
  pose proof (last_elem_in_range _ _ _ (ema_nonempty _ 26)
                (calculateEMA_in_range lo hi _ 26 Hne' ltac:(lia) Hprices))
    as [b [Hb _]].
  exists (a + - b).
  unfold AnalysisGemini.calculateMACD, AnalysisGemini.calculateEMA.
  rewrite Ha, Hb.
  cbn [sub neg add calculateEMA ema_push Arr.get nth value signal histogram
       interpretation].
  split; [reflexivity |]. split; [reflexivity |].
  set (v := a + - b).
  split; [f_equal; lra |].
  unfold AnalysisGemini.interpretMACD.
  cbn [gtb ltb neg mul Math_abs sub add].
  rewrite (Rltb_false 0 (v + - v)) by lra.
  rewrite (Rltb_false (v + - v) (- (v + - v) * 0.1)) by lra.
  replace (Rltb (Rabs (v + - v)) 0.1) with true.
  - destruct (Rltb 0 v), (Rltb v 0); reflexivity.
  - symmetry. apply Rltb_true.
    replace (v + - v) with 0 by lra. rewrite Rabs_R0. lra.
Qed.

Lemma gemini_macd_signal_is_value_witness :
  exists v : R,
    value (AnalysisGemini.calculateMACD (map Fin [100; 102])) = Fin v
    /\ signal (AnalysisGemini.calculateMACD (map Fin [100; 102])) = Fin v
    /\ histogram (AnalysisGemini.calculateMACD (map Fin [100; 102])) = Fin 0
    /\ interpretation (AnalysisGemini.calculateMACD (map Fin [100; 102]))
       = ("Bearish momentum"
          ++ (if Rltb 0 v then ", upward trend"
              else if Rltb v 0 then ", downward trend" else "")
          ++ ", potential trend reversal")%string.
Proof.
  apply (gemini_macd_signal_is_value [100; 102]).
  discriminate.
Defined.

End MACD.

(* ================================================================== *)
(** * The range of RSI and of Stochastic RSI                           *)
(* ================================================================== *)

Section OscillatorRange.

Import Analysis.

Context {St : Type}.

(** A property kept by the body at the indices the loop visits holds when
    the loop ends. *)
Lemma for_loop_invariant_range (P : St -> Prop) (body : nat -> St -> St)
  (start count : nat) (s : St) :
  P s ->
  (forall i x, (start <= i < start + count)%nat -> P x -> P (body i x)) ->
  P (Arr.for_loop start count body s).
Proof.
  revert start s.
  induction count as [|count IH]; intros start s Hs Hstep; cbn.
  - exact Hs.
  - apply IH.
    + apply Hstep; [lia | exact Hs].
    + intros i x Hi. apply Hstep. lia.
Qed.

(** The last iteration of a loop. *)
Lemma for_loop_last (body : nat -> St -> St) (start count : nat) (s : St) :
  Arr.for_loop start (S count) body s
  = body (start + count)%nat (Arr.for_loop start count body s).
Proof.
  revert start s.
  induction count as [|count IH]; intros start s.
  - cbn. rewrite Nat.add_0_r. reflexivity.
  - change (Arr.for_loop start (S (S count)) body s)
      with (Arr.for_loop (S start) (S count) body (body start s)).
    rewrite IH. cbn [Arr.for_loop].
    replace (S start + count)%nat with (start + S count)%nat by lia.
    reflexivity.
Qed.

End OscillatorRange.

Section RSIRange.

Import Analysis.

Lemma div_NaN_r (a : num) : a [/] NaN = NaN.
Proof. destruct a; reflexivity. Qed.

Lemma get_fin (ps : list R) (i : nat) :
  (i < List.length ps)%nat -> Arr.get (map Fin ps) i = Fin (nth i ps 0).
Proof.
  intros Hi. unfold Arr.get.
  rewrite (nth_indep _ NaN (Fin 0)) by (rewrite length_map; assumption).
  apply map_nth.
Qed.

Lemma get_out_of_range (prices : list num) (i : nat) :
  (List.length prices <= i)%nat -> Arr.get prices i = NaN.
Proof. intros Hi. unfold Arr.get. apply nth_overflow. assumption. Qed.

(** Inside the array every difference of finite prices is finite. *)
Lemma difference_fin (ps : list R) (i : nat) :
  (1 <= i < List.length ps)%nat ->
  exists d : R, difference (map Fin ps) i = Fin d.
Proof.
  intros Hi. unfold difference.
  destruct i as [|j]; [lia |]. cbn [Arr.get_pred].
  rewrite !get_fin by lia. cbn. eauto.
Qed.

Lemma seed_step_nonneg (prices : list num) (i : nat) (s : num * num) :
  (exists d : R, difference prices i = Fin d) ->
  Spec.nonneg_state s -> Spec.nonneg_state (rsi_seed_step prices i s).
Proof.
  intros [d Hd] [g [l [-> [Hg Hl]]]].
  unfold rsi_seed_step. rewrite Hd. cbn [geb leb].
  unfold Rleb. destruct (Rle_dec 0 d).
  - exists (g + d), l. cbn. repeat split; lra.
  - exists g, (l + - d). cbn. repeat split; lra.
Qed.

Lemma smooth_step_nonneg (period : nat) (s : num * num) (d : R) :
  (1 <= period)%nat ->
  Spec.nonneg_state s -> Spec.nonneg_state (rsi_smooth_step period s (Fin d)).
Proof.
  intros Hp [g [l [-> [Hg Hl]]]].
  assert (Hn : 0 < INR period) by (apply lt_0_INR; lia).
  assert (Hinv : 0 < / INR period) by (apply Rinv_0_lt_compat; assumption).
  unfold rsi_smooth_step, of_nat. cbn [geb leb mul add sub neg].
  unfold Rleb. destruct (Rle_dec 0 d); rewrite !div_fin by lra.
  - exists ((g * 13 + d) / INR period), (l * 13 / INR period).
    split; [reflexivity |]. unfold Rdiv. split; apply Rmult_le_pos; lra.
  - exists (g * 13 / INR period), ((l * 13 + - d) / INR period).
    split; [reflexivity |]. unfold Rdiv. split; apply Rmult_le_pos; lra.
Qed.

Lemma rsi_averages_nonneg (ps : list R) (period : nat) :
  (1 <= period)%nat -> (period + 1 <= List.length ps)%nat ->
  Spec.nonneg_state (rsi_averages (map Fin ps) period).
Proof.
  intros Hp Hlen. unfold rsi_averages.
  assert (Hseed : Spec.nonneg_state
            (Arr.for_loop 1 period (rsi_seed_step (map Fin ps))
               (Fin 0, Fin 0))).
  { apply for_loop_invariant_range.
    - exists 0, 0. repeat split; lra.
    - intros i x Hi. apply seed_step_nonneg. apply difference_fin. lia. }
  destruct Hseed as [g [l [-> [Hg Hl]]]].
  assert (Hn : 0 < INR period) by (apply lt_0_INR; lia).
  assert (Hinv : 0 < / INR period) by (apply Rinv_0_lt_compat; assumption).
  unfold of_nat at 1 2. rewrite !div_fin by lra.
  apply for_loop_invariant_range.
  - exists (g / INR period), (l / INR period).
    split; [reflexivity |]. unfold Rdiv. split; apply Rmult_le_pos; lra.
  - intros i x Hi Hx. rewrite length_map in Hi.
    destruct (difference_fin ps i) as [d ->]; [lia |].
    apply smooth_step_nonneg; assumption.
Qed.

(** X5: with at least [period + 1] prices ([period >= 1]) the RSI is a
    number between 0 and 100, or [NaN] when the averages of gains and of
    losses are both 0; it is 100 when only the average loss is 0. *)
Theorem rsi_between_0_and_100 (ps : list R) (period : nat) :
  (1 <= period)%nat -> (period + 1 <= List.length ps)%nat ->
  (rsi_averages (map Fin ps) period = (Fin 0, Fin 0)
   /\ calculateRSI (map Fin ps) period = NaN)
  \/ exists r : R,
       calculateRSI (map Fin ps) period = Fin r /\ 0 <= r <= 100
       /\ (snd (rsi_averages (map Fin ps) period) = Fin 0 -> r = 100).
Proof.
  intros Hp Hlen.
  pose proof (rsi_averages_nonneg ps period Hp Hlen) as Hst.
  unfold calculateRSI.
  destruct Hst as [g [l [-> [Hg Hl]]]].
  destruct (Req_dec_T l 0) as [-> | Hl0].
  - destruct (Req_dec_T g 0) as [-> | Hg0].
    + left. split; [reflexivity |].
      cbn. rewrite Reqb_true by reflexivity.
      unfold scale_inf. rewrite !Rltb_false by lra. reflexivity.
    + right. exists 100.
      cbn [div]. rewrite Reqb_true by reflexivity.
      unfold scale_inf. rewrite Rltb_true by lra.
      cbn. split; [f_equal; lra |]. split; [lra | reflexivity].
  - right.
    rewrite div_fin by assumption. cbn [add].
    assert (Hrs : 0 <= g / l).
    { unfold Rdiv. apply Rmult_le_pos; [lra |].
      apply Rlt_le, Rinv_0_lt_compat. lra. }
    rewrite div_fin by lra. cbn [sub neg add].
    eexists; split; [reflexivity |].
    assert (Hq : 0 < 100 / (1 + g / l) <= 100).
    { split.
      - apply Rdiv_lt_0_compat; lra.
      - apply Rmult_le_reg_r with (1 + g / l); [lra |].
        unfold Rdiv at 1. rewrite Rmult_assoc, Rinv_l by lra. nra. }
    split; [lra |].
    cbn [snd]. intros H. inversion H. contradiction.
Qed.

Lemma rsi_between_0_and_100_witness :
  (rsi_averages (map Fin [2; 1; 2; 3]) 2 = (Fin 0, Fin 0)
   /\ calculateRSI (map Fin [2; 1; 2; 3]) 2 = NaN)
  \/ exists r : R,
       calculateRSI (map Fin [2; 1; 2; 3]) 2 = Fin r /\ 0 <= r <= 100
       /\ (snd (rsi_averages (map Fin [2; 1; 2; 3]) 2) = Fin 0 -> r = 100).
Proof.
  apply (rsi_between_0_and_100 [2; 1; 2; 3] 2); cbn; lia.
Defined.

(** X6: with no more prices than [period] the seeding loop reads past the
    end of the array and the RSI is [NaN]. *)
Theorem rsi_of_short_series_is_NaN (prices : list num) (period : nat) :
  (1 <= period)%nat -> (List.length prices <= period)%nat ->
  calculateRSI prices period = NaN.
Proof.
  intros Hp Hlen. unfold calculateRSI, rsi_averages.
  destruct period as [|c]; [lia |].
  rewrite for_loop_last.
  destruct (Arr.for_loop 1 c (rsi_seed_step prices) (Fin 0, Fin 0))
    as [gains losses].
  unfold rsi_seed_step at 1, difference.
  rewrite (get_out_of_range prices (1 + c)) by lia.
  cbn [sub neg add geb leb].
  rewrite sub_NaN_r.
  replace (List.length prices - (S c + 1))%nat with 0%nat by lia.
  cbn [Arr.for_loop div].
  rewrite div_NaN_r. reflexivity.
Qed.

Lemma rsi_of_short_series_is_NaN_witness :
  calculateRSI [Fin 100; Fin 102; Fin 101] 14 = NaN.
Proof.
  apply rsi_of_short_series_is_NaN; cbn; lia.
Defined.

End RSIRange.

Section StochRSIRange.

Import Analysis.

Lemma min_le_new (mn x : num) :
  mn <> NaN -> x <> NaN -> Spec.le_num (Math_min mn x) x.
Proof.
  intros Hmn Hx. unfold Math_min.
  destruct mn as [| | |a], x as [| | |b]; try contradiction;
    cbn [ltb]; try (apply le_num_refl; discriminate);
    try reflexivity.
  destruct (Rltb b a) eqn:Hlt.
  - apply le_num_refl; discriminate.
  - apply not_after_le; try discriminate. exact Hlt.
Qed.

Lemma new_le_max (mx x : num) :
  mx <> NaN -> x <> NaN -> Spec.le_num x (Math_max mx x).
Proof.
  intros Hmx Hx. unfold Math_max.
  destruct mx as [| | |a], x as [| | |b]; try contradiction;
    cbn [ltb]; try (apply le_num_refl; discriminate);
    try reflexivity.
  destruct (Rltb a b) eqn:Hlt.
  - apply le_num_refl; discriminate.
  - apply not_after_le; try discriminate. exact Hlt.
Qed.

Lemma le_num_not_NaN_l (a b : num) : Spec.le_num a b -> a <> NaN.
Proof. intros H ->. discriminate. Qed.

Lemma le_num_not_NaN_r (a b : num) : Spec.le_num a b -> b <> NaN.
Proof. intros H ->. destruct a; discriminate. Qed.

Lemma stoch_step_ok (prices : list num) (period i : nat)
  (s : list num * num * num) :
  Spec.stoch_state_ok s -> Spec.stoch_state_ok (stoch_step prices period i s).
Proof.
  destruct s as [[vals mn] mx]. unfold stoch_step.
  set (x := calculateRSI _ _). clearbody x.
  intros H. unfold Spec.stoch_state_ok.
  destruct x as [| | |r] eqn:Hx.
  - right; left. rewrite min_NaN_r, max_NaN_r. auto.
  - destruct H as [[_ [-> ->]] | [[-> ->] | [latest [rest [_ [H1 H2]]]]]].
    + right; right. exists PInf, vals. repeat split; reflexivity.
    + right; left. auto.
    + right; right. exists PInf, vals. split; [reflexivity |]. split.
      * apply min_le_new; [eapply le_num_not_NaN_l; eassumption | discriminate].
      * apply new_le_max; [eapply le_num_not_NaN_r; eassumption | discriminate].
  - destruct H as [[_ [-> ->]] | [[-> ->] | [latest [rest [_ [H1 H2]]]]]].
    + right; right. exists NInf, vals. repeat split; reflexivity.
    + right; left. auto.
    + right; right. exists NInf, vals. split; [reflexivity |]. split.
      * apply min_le_new; [eapply le_num_not_NaN_l; eassumption | discriminate].
      * apply new_le_max; [eapply le_num_not_NaN_r; eassumption | discriminate].
  - destruct H as [[_ [-> ->]] | [[-> ->] | [latest [rest [_ [H1 H2]]]]]].
    + right; right. exists (Fin r), vals. split; [reflexivity |].
      split; cbn; apply Rleb_true; lra.
    + right; left. auto.
    + right; right. exists (Fin r), vals. split; [reflexivity |]. split.
      * apply min_le_new; [eapply le_num_not_NaN_l; eassumption | discriminate].
      * apply new_le_max; [eapply le_num_not_NaN_r; eassumption | discriminate].
Qed.

Lemma stoch_loop_ok (prices : list num) (period : nat) :
  Spec.stoch_state_ok (stoch_loop prices period).
Proof.
  unfold stoch_loop. apply for_loop_invariant.
  - left. repeat split; reflexivity.
  - intros i s. apply stoch_step_ok.
Qed.

(** X7: whatever the prices and the window, [calculateStochRSI] returns a
    finite number between 0 and 100, never [NaN] or an infinity: the guard
    answers 50 for every degenerate range, and otherwise the latest RSI
    lies between the running minimum and maximum. *)
Theorem stoch_rsi_between_0_and_100 (prices : list num) (period : nat) :
  exists r : R, calculateStochRSI prices period = Fin r /\ 0 <= r <= 100.
Proof.
  pose proof (stoch_loop_ok prices period) as H.
  unfold calculateStochRSI.
  destruct (stoch_loop prices period) as [[vals mn] mx].
  destruct H as [[_ [-> ->]] | [[-> ->] | [latest [rest [-> [H1 H2]]]]]].
  - exists 50. split; [reflexivity | lra].
  - exists 50. split; [reflexivity | lra].
  - cbn [hd]. unfold Spec.le_num in H1, H2.
    destruct mn as [| | |a], mx as [| | |b], latest as [| | |l];
      try discriminate;
      try (exists 50; split; [reflexivity | lra]).
    cbn in H1, H2. rewrite Rleb_spec in H1, H2.
    cbn [sub neg add Number_isFinite negb orb strict_eq].
    unfold Reqb. destruct (Req_dec_T (b + - a) 0) as [E | E].
    + exists 50. split; [reflexivity | lra].
    + rewrite div_fin by assumption. cbn [mul].
      eexists; split; [reflexivity |].
      assert (Hr : 0 < b + - a) by lra.
      assert (Hq : 0 <= (l + - a) / (b + - a) <= 1).
      { split.
        - unfold Rdiv. apply Rmult_le_pos; [lra |].
          apply Rlt_le, Rinv_0_lt_compat; assumption.
        - apply Rmult_le_reg_r with (b + - a); [assumption |].
          unfold Rdiv. rewrite Rmult_assoc, Rinv_l by lra. lra. }
      lra.
Qed.

(** So the label of the Stochastic RSI of constant prices is "Neutral". *)
Corollary stoch_rsi_label_of_flat_prices (c : num) (m period : nat) :
  interpretStochRSI (calculateStochRSI (repeat c m) period)
  = "Neutral"%string.
Proof.
  rewrite stoch_guard by (left; apply stoch_range_flat).
  unfold interpretStochRSI. cbn [gtb ltb].
  rewrite !Rltb_false by lra. reflexivity.
Qed.

End StochRSIRange.

(* ================================================================== *)
(** * Market phase, as its callers compute it                          *)
(* ================================================================== *)

Section PhaseOfPrices.

Import Analysis.

Lemma nth_length_last (l : list R) (p d : R) :
  nth (List.length l) (p :: l) d = last (p :: l) d.
Proof.
  revert p. induction l as [|q l IH]; intros p; [reflexivity |].
  change (nth (List.length l) (q :: l) d = last (q :: l) d). apply IH.
Qed.

Lemma last_elem_fin (ps : list R) :
  ps <> [] -> Arr.last_elem (map Fin ps) = Fin (last ps 0).
Proof.
  intros Hne. unfold Arr.last_elem. rewrite length_map.
  destruct ps as [|p ps]; [contradiction |].
  cbn [List.length Arr.get_pred].
  rewrite get_fin by (cbn [List.length]; lia).
  f_equal. apply nth_length_last.
Qed.

(** X8: with a last price [p] and finite averages, the phase is a Bull
    Market exactly when [MA200 < MA50 < p], a Bear Market when
    [p <= MA50 <= MA200], a Correction when [MA200 < p <= MA50], and an
    Accumulation in the two remaining orders; on an empty list (no last
    price) it is a Bear Market unless [MA50 > MA200], and then an
    Accumulation. *)
Theorem market_phase_by_order (ps : list R) (ma50 ma200 : R) :
  ps <> [] ->
  let p := last ps 0 in
  let phase := determineMarketPhase (map Fin ps) (Fin ma50) (Fin ma200) in
  (phase = "Bull Market"%string <-> ma200 < ma50 < p)
  /\ (phase = "Bear Market"%string <-> p <= ma50 <= ma200)
  /\ (phase = "Correction"%string <-> ma200 < p <= ma50)
  /\ (phase = "Accumulation"%string
      <-> (ma50 < p /\ ma50 <= ma200) \/ (p <= ma200 < ma50))
  /\ determineMarketPhase [] (Fin ma50) (Fin ma200)
     = (if Rltb ma200 ma50 then "Accumulation" else "Bear Market")%string.
Proof.
  intros Hne p phase.
  unfold phase, determineMarketPhase.
  rewrite last_elem_fin by assumption. fold p.
  cbn [gtb ltb Arr.last_elem Arr.get_pred List.length].
  unfold phase_of, Rltb.
  destruct (Rlt_dec ma50 p), (Rlt_dec ma200 p), (Rlt_dec ma200 ma50);
    cbn [andb negb];
    repeat split; intros; try discriminate; try lra;
    try (exfalso; lra);
    try match goal with
        | H : _ \/ _ |- _ => destruct H; lra
        end.
  all: try (left; lra); try (right; lra).
Qed.

Lemma market_phase_by_order_witness :
  let p := last [100; 102; 101] 0 in
  let phase :=
    determineMarketPhase (map Fin [100; 102; 101]) (Fin 100) (Fin 99) in
  (phase = "Bull Market"%string <-> 99 < 100 < p)
  /\ (phase = "Bear Market"%string <-> p <= 100 <= 99)
  /\ (phase = "Correction"%string <-> 99 < p <= 100)
  /\ (phase = "Accumulation"%string
      <-> (100 < p /\ 100 <= 99) \/ (p <= 99 < 100))
  /\ determineMarketPhase [] (Fin 100) (Fin 99)
     = (if Rltb 99 100 then "Accumulation" else "Bear Market")%string.
Proof.
  apply (market_phase_by_order [100; 102; 101] 100 99).
  discriminate.
Defined.

Lemma slice_last_all {A : Type} (k : nat) (l : list A) :
  (List.length l <= k)%nat -> Arr.slice_last k l = l.
Proof.
  intros H. destruct k as [|k]; [reflexivity |]. cbn [Arr.slice_last].
  replace (List.length l - S k)%nat with 0%nat by lia. reflexivity.
Qed.

(** X9: [getDetailedAnalysis] and [getFullAnalysis] pass
    [calculateSMA(prices, 50)] and [calculateSMA(prices, 200)]; with at
    most 50 prices both are the mean of all of them, so the phase is never
    a Bull Market or a Correction: it is an Accumulation when the last
    price is above the mean, and a Bear Market otherwise. *)
Theorem market_phase_of_short_history (ps : list R) :
  ps <> [] -> (List.length ps <= 50)%nat ->
  calculateSMA (map Fin ps) 50 = Fin (Spec.mean ps)
  /\ calculateSMA (map Fin ps) 200 = Fin (Spec.mean ps)
  /\ determineMarketPhase (map Fin ps)
       (calculateSMA (map Fin ps) 50) (calculateSMA (map Fin ps) 200)
     = (if Rltb (Spec.mean ps) (last ps 0)
        then "Accumulation" else "Bear Market")%string.
Proof.
  intros Hne Hlen.
  pose proof (sma_of_prices ps 50 Hne ltac:(lia)) as H50.
  pose proof (sma_of_prices ps 200 Hne ltac:(lia)) as H200.
  rewrite slice_last_all in H50 by lia.
  rewrite slice_last_all in H200 by lia.
  rewrite H50, H200.
  split; [reflexivity |]. split; [reflexivity |].
  unfold determineMarketPhase.
  rewrite last_elem_fin by assumption.
  cbn [gtb ltb]. unfold phase_of.
  rewrite (Rltb_false (Spec.mean ps) (Spec.mean ps)) by lra.
  destruct (Rltb (Spec.mean ps) (last ps 0)); reflexivity.
Qed.

Lemma market_phase_of_short_history_witness :
  calculateSMA (map Fin [100; 102; 101]) 50
  = Fin (Spec.mean [100; 102; 101])
  /\ calculateSMA (map Fin [100; 102; 101]) 200
     = Fin (Spec.mean [100; 102; 101])
  /\ determineMarketPhase (map Fin [100; 102; 101])
       (calculateSMA (map Fin [100; 102; 101]) 50)
       (calculateSMA (map Fin [100; 102; 101]) 200)
     = (if Rltb (Spec.mean [100; 102; 101]) (last [100; 102; 101] 0)
        then "Accumulation" else "Bear Market")%string.
Proof.
  apply (market_phase_of_short_history [100; 102; 101]).
  - discriminate.
  - cbn; lia.
Defined.

End PhaseOfPrices.

(* ================================================================== *)
(** * Support, resistance and the levels of the strategy               *)
(* ================================================================== *)

Section Levels.

Import Analysis.

Lemma insert_In (after : num -> num -> bool) (x a : num) (l : list num) :
  In x (Arr.insert after a l) -> x = a \/ In x l.
Proof.
  induction l as [|y l IH]; cbn.
  - intros [H | []]; auto.
  - destruct (after a y); cbn.
    + intros [H | H]; auto. destruct (IH H); auto.
    + intros [H | [H | H]]; auto.
Qed.

(** The sorted copy holds nothing but elements of the array. *)
Lemma sort_In (cmp : num -> num -> num) (x : num) (l : list num) :
  In x (Arr.sort cmp l) -> In x l.
Proof.
  unfold Arr.sort. induction l as [|a l IH]; cbn [fold_right].
  - auto.
  - intros H. apply insert_In in H. destruct H as [-> | H].
    + left; reflexivity.
    + right; apply IH; assumption.
Qed.

(** Both levels are read from the sorted copy, so they are elements of
    the array. *)
Lemma support_resistance_members (ps : list R) :
  ps <> [] ->
  exists s r : R,
    support (findSupportResistance (map Fin ps)) = Some (Fin s)
    /\ resistance (findSupportResistance (map Fin ps)) = Some (Fin r)
    /\ In s ps /\ In r ps /\ s <= r.
Proof.
  intros Hne.
  assert (Hne' : map Fin ps <> [])
    by (destruct ps; [contradiction | discriminate]).
  destruct (support_le_resistance_not_NaN (map Fin ps) Hne'
              (prices_not_NaN ps)) as [_ [_ [s [r [Hs [Hr Hle]]]]]].
  assert (Hin : forall x q,
             nth_error (Arr.sort ascending (map Fin ps)) q = Some x ->
             exists y, x = Fin y /\ In y ps).
  { intros x q Hq. apply nth_error_In, sort_In, in_map_iff in Hq.
    destruct Hq as [y [<- Hy]]. eauto. }
  unfold findSupportResistance in Hs, Hr. cbn [support resistance] in Hs, Hr.
  destruct (Hin _ _ Hs) as [a [-> Ha]], (Hin _ _ Hr) as [b [-> Hb]].
  exists a, b. rewrite leb_fin in Hle.
  unfold findSupportResistance; cbn [support resistance].
  auto.
Qed.

(** X10: on a non-empty list of prices the support and the resistance
    are both prices of the list, the support being the smaller. *)
Theorem support_resistance_are_prices (ps : list R) :
  ps <> [] ->
  exists s r : R,
    support (findSupportResistance (map Fin ps)) = Some (Fin s)
    /\ resistance (findSupportResistance (map Fin ps)) = Some (Fin r)
    /\ In s ps /\ In r ps /\ s <= r.
Proof.
  exact (support_resistance_members ps).
Qed.

Lemma support_resistance_are_prices_witness :
  exists s r : R,
    support (findSupportResistance (map Fin [130; 120; 110; 100]))
    = Some (Fin s)
    /\ resistance (findSupportResistance (map Fin [130; 120; 110; 100]))
       = Some (Fin r)
    /\ In s [130; 120; 110; 100] /\ In r [130; 120; 110; 100] /\ s <= r.
Proof.
  apply (support_resistance_are_prices [130; 120; 110; 100]).
  discriminate.
Defined.

(** X11: the [strategy] object that [getDetailedAnalysis] and
    [getFullAnalysis] derive from the support and the resistance of
    positive prices has [0 < stop <= entry <= target], the target being
    the resistance and the stop 5% under the support; the position is
    "Long" in a Bull Market and "Short" in every other phase. *)
Theorem level_strategy_is_ordered (ps : list R) (marketPhase : string) :
  ps <> [] -> Forall (fun p => 0 < p) ps ->
  exists s r : R,
    support (findSupportResistance (map Fin ps)) = Some (Fin s)
    /\ resistance (findSupportResistance (map Fin ps)) = Some (Fin r)
    /\ stop (levelStrategy marketPhase (Fin s) (Fin r)) = Fin (s * 0.95)
    /\ entry (levelStrategy marketPhase (Fin s) (Fin r))
       = Fin (s + (r - s) * 0.382)
    /\ target (levelStrategy marketPhase (Fin s) (Fin r)) = Fin r
    /\ 0 < s * 0.95 <= s + (r - s) * 0.382
    /\ s + (r - s) * 0.382 <= r
    /\ (position (levelStrategy marketPhase (Fin s) (Fin r))
        = "Long"%string <-> marketPhase = "Bull Market"%string)
    /\ (position (levelStrategy marketPhase (Fin s) (Fin r))
        = "Short"%string <-> marketPhase <> "Bull Market"%string).
Proof.
  intros Hne Hpos.
  destruct (support_resistance_members ps Hne)
    as [s [r [Hs [Hr [Hins [Hinr Hle]]]]]].
  rewrite Forall_forall in Hpos.
  pose proof (Hpos s Hins) as Hs0.
  exists s, r. unfold levelStrategy.
  cbn [stop entry target position sub neg add mul].
  split; [exact Hs |]. split; [exact Hr |].
  split; [reflexivity |]. split; [f_equal; lra |]. split; [reflexivity |].
  split; [nra |]. split; [nra |].
  destruct (String.eqb_spec marketPhase "Bull Market") as [E | E];
    split; split; intros H; try assumption; try reflexivity;
    try discriminate; contradiction.
Qed.

Lemma level_strategy_is_ordered_witness :
  exists s r : R,
    support (findSupportResistance (map Fin [130; 120; 110; 100]))
    = Some (Fin s)
    /\ resistance (findSupportResistance (map Fin [130; 120; 110; 100]))
       = Some (Fin r)
    /\ stop (levelStrategy "Correction" (Fin s) (Fin r)) = Fin (s * 0.95)
    /\ entry (levelStrategy "Correction" (Fin s) (Fin r))
       = Fin (s + (r - s) * 0.382)
    /\ target (levelStrategy "Correction" (Fin s) (Fin r)) = Fin r
    /\ 0 < s * 0.95 <= s + (r - s) * 0.382
    /\ s + (r - s) * 0.382 <= r
    /\ (position (levelStrategy "Correction" (Fin s) (Fin r))
        = "Long"%string <-> "Correction"%string = "Bull Market"%string)
    /\ (position (levelStrategy "Correction" (Fin s) (Fin r))
        = "Short"%string <-> "Correction"%string <> "Bull Market"%string).
Proof.
  apply (level_strategy_is_ordered [130; 120; 110; 100] "Correction").
  - discriminate.
  - repeat constructor; lra.
Defined.

End Levels.

(* ================================================================== *)
(** * Volume indicators                                                *)
(* ================================================================== *)

Section Volume.

Import Analysis.

Lemma ltb_irrefl (a : num) : (a [<] a) = false.
Proof. destruct a; cbn; try reflexivity. apply Rltb_false; lra. Qed.

Lemma ltb_NaN_r (a : num) : (a [<] NaN) = false.
Proof. destruct a; reflexivity. Qed.

(** On constant prices no step moves the running total. *)
Lemma obv_step_flat (c : num) (m : nat) (volumes : list num) (i : nat)
  (obv : num) (vals : list num) :
  obv_step (repeat c m) volumes i (obv, vals) = (obv, vals ++ [obv]).
Proof.
  unfold obv_step, gtb.
  destruct (get_repeat c m i) as [-> | ->],
           (get_pred_repeat c m i) as [-> | ->];
    rewrite ?ltb_irrefl, ?ltb_NaN_r; cbn [ltb]; try reflexivity.
Qed.

Lemma obv_loop_flat (c : num) (m : nat) (volumes : list num)
  (start count : nat) (vals : list num) :
  Forall (eq (Fin 0)) vals ->
  Forall (eq (Fin 0))
    (snd (Arr.for_loop start count (obv_step (repeat c m) volumes)
            (Fin 0, vals))).
Proof.
  revert start vals.
  induction count as [|count IH]; intros start vals Hvals; cbn [Arr.for_loop].
  - exact Hvals.
  - rewrite obv_step_flat. apply IH.
    apply Forall_app; split; [assumption | repeat constructor].
Qed.

Lemma Forall_skipn_gen {A : Type} (P : A -> Prop) (n : nat) (l : list A) :
  Forall P l -> Forall P (skipn n l).
Proof.
  revert l. induction n as [|n IH]; intros l H; cbn; [assumption |].
  destruct H; [constructor | apply IH; assumption].
Qed.

Lemma get_of_zeros (l : list num) (i : nat) :
  Forall (eq (Fin 0)) l -> Arr.get l i = Fin 0 \/ Arr.get l i = NaN.
Proof.
  intros H. unfold Arr.get.
  destruct (Nat.lt_ge_cases i (List.length l)) as [Hi | Hi].
  - left. rewrite Forall_forall in H. symmetry. apply H, nth_In. assumption.
  - right. apply nth_overflow. assumption.
Qed.

(** X12: on constant prices, and on fewer than two prices, the OBV trend
    is "Bearish" whatever the volumes: the label is "Bullish" only when
    the running total ends above where the last five values start. *)
Theorem obv_of_flat_prices_is_bearish (c : num) (m : nat)
  (volumes : list num) :
  calculateOBV (repeat c m) volumes = "Bearish"%string.
Proof.
  unfold calculateOBV, obv_values.
  pose proof (obv_loop_flat c m volumes 1 (List.length (repeat c m) - 1)
                [Fin 0] ltac:(repeat constructor)) as Hall.
  set (vals := snd _) in *. clearbody vals.
  assert (Hrecent : Forall (eq (Fin 0)) (Arr.slice_last 5 vals)).
  { unfold Arr.slice_last. apply Forall_skipn_gen; assumption. }
  set (recent := Arr.slice_last 5 vals) in *. clearbody recent.
  assert (Hlast : Arr.last_elem recent = Fin 0 \/ Arr.last_elem recent = NaN).
  { unfold Arr.last_elem. destruct (List.length recent); cbn [Arr.get_pred].
    - right; reflexivity.
    - apply get_of_zeros; assumption. }
  unfold gtb.
  destruct Hlast as [-> | ->], (get_of_zeros recent 0 Hrecent) as [-> | ->];
    cbn [ltb]; rewrite ?Rltb_false by lra; reflexivity.
Qed.

(** Appending a larger value keeps a list strictly increasing. *)
Lemma sorted_snoc (rs : list R) (x : R) :
  StronglySorted Rlt rs -> Forall (fun y => y < x) rs ->
  StronglySorted Rlt (rs ++ [x]).
Proof.
  intros Hs Hall. induction Hs as [|y rs Hs IH Hy]; cbn.
  - repeat constructor.
  - inversion Hall as [|? ? Hyx Hrest]; subst.
    constructor; [apply IH; assumption |].
    apply Forall_app; split; [assumption | repeat constructor; assumption].
Qed.

Lemma sorted_skipn (n : nat) (rs : list R) :
  StronglySorted Rlt rs -> StronglySorted Rlt (skipn n rs).
Proof.
  revert rs. induction n as [|n IH]; intros rs H; cbn; [assumption |].
  destruct H; [constructor | apply IH; assumption].
Qed.

Lemma sorted_nth_lt (rs : list R) (i j : nat) :
  StronglySorted Rlt rs -> (i < j < List.length rs)%nat ->
  nth i rs 0 < nth j rs 0.
Proof.
  intros Hs. revert i j.
  induction Hs as [|x rs Hs IH Hx]; intros i j Hij; cbn in Hij; [lia |].
  destruct j as [|j]; [lia |]. destruct i as [|i]; cbn.
  - rewrite Forall_forall in Hx. apply Hx, nth_In. lia.
  - apply IH. lia.
Qed.

(** While prices rise and volumes are positive, the running total is the
    last of a strictly increasing list of values. *)
Lemma obv_loop_rising (ps vs : list R) (count start : nat) (o : R)
  (rs : list R) :
  StronglySorted Rlt ps -> Forall (fun v => 0 < v) vs ->
  List.length vs = List.length ps ->
  (1 <= start)%nat -> (start + count <= List.length ps)%nat ->
  StronglySorted Rlt rs -> Forall (fun y => y <= o) rs ->
  exists o' rs',
    Arr.for_loop start count (obv_step (map Fin ps) (map Fin vs))
      (Fin o, map Fin rs) = (Fin o', map Fin rs')
    /\ StronglySorted Rlt rs' /\ Forall (fun y => y <= o') rs'
    /\ List.length rs' = (List.length rs + count)%nat.
Proof.
  intros Hps Hvs Hlen. revert start o rs.
  induction count as [|count IH]; intros start o rs Hstart Hend Hrs Hle.
  - exists o, rs. cbn. repeat split; try assumption. lia.
  - cbn [Arr.for_loop].
    assert (Hstep :
      obv_step (map Fin ps) (map Fin vs) start (Fin o, map Fin rs)
      = (Fin (o + nth start vs 0), map Fin (rs ++ [o + nth start vs 0]))).
    { unfold obv_step. destruct start as [|j]; [lia |].
      cbn [Arr.get_pred]. rewrite !get_fin by lia.
      cbn [gtb ltb].
      rewrite Rltb_true by (apply sorted_nth_lt; [assumption | lia]).
      cbn [add]. rewrite map_app. reflexivity. }
    rewrite Hstep.
    assert (Hv : 0 < nth start vs 0).
    { rewrite Forall_forall in Hvs. apply Hvs, nth_In. lia. }
    destruct (IH (S start) (o + nth start vs 0) (rs ++ [o + nth start vs 0]))
      as [o' [rs' [Heq [Hs' [Hle' Hlen']]]]].
    + lia.
    + lia.
    + apply sorted_snoc; [assumption |].
      eapply Forall_impl; [| exact Hle]. intros y Hy. cbn in Hy. lra.
    + apply Forall_app; split.
      * eapply Forall_impl; [| exact Hle]. intros y Hy. cbn in Hy. lra.
      * constructor; [lra | constructor].
    + exists o', rs'. rewrite length_app in Hlen'. cbn [List.length] in Hlen'.
      repeat split; try assumption. lia.
Qed.

(** X13: on at least two strictly rising prices with positive volumes the
    OBV trend is "Bullish". *)
Theorem obv_of_rising_prices_is_bullish (ps vs : list R) :
  StronglySorted Rlt ps -> Forall (fun v => 0 < v) vs ->
  List.length vs = List.length ps -> (2 <= List.length ps)%nat ->
  calculateOBV (map Fin ps) (map Fin vs) = "Bullish"%string.
Proof.
  intros Hps Hvs Hlen Hn.
  unfold calculateOBV, obv_values. rewrite length_map.
  destruct (obv_loop_rising ps vs (List.length ps - 1) 1 0 [0])
    as [o [rs [Heq [Hs [_ Hlen']]]]]; try assumption; try lia.
  { repeat constructor. }
  { constructor; [lra | constructor]. }
  change (Fin 0, [Fin 0]) with (Fin 0, map Fin [0]).
  rewrite Heq. cbn [snd].
  rewrite slice_last_map.
  cbn [List.length] in Hlen'.
  assert (Hrecent : StronglySorted Rlt (Arr.slice_last 5 rs))
    by (apply sorted_skipn; assumption).
  assert (Hlen5 : (2 <= List.length (Arr.slice_last 5 rs))%nat)
    by (rewrite slice_last_length by lia; lia).
  set (recent := Arr.slice_last 5 rs) in *.
  assert (Hne : recent <> [])
    by (destruct recent; [cbn in Hlen5; lia | discriminate]).
  rewrite last_elem_fin by assumption.
  rewrite get_fin by lia.
  cbn [gtb ltb].
  rewrite Rltb_true; [reflexivity |].
  destruct recent as [|x recent']; [contradiction |].
  rewrite <- nth_length_last.
  apply sorted_nth_lt; [assumption |]. cbn [List.length] in *. lia.
Qed.

Lemma obv_of_rising_prices_is_bullish_witness :
  calculateOBV (map Fin [100; 102; 105]) (map Fin [1000; 1000; 1000])
  = "Bullish"%string.
Proof.
  apply (obv_of_rising_prices_is_bullish [100; 102; 105] [1000; 1000; 1000]).
  - repeat constructor; lra.
  - repeat constructor; lra.
  - reflexivity.
  - cbn; lia.
Defined.

Lemma Rsum_repeat (v : R) (k : nat) : Spec.Rsum (repeat v k) = INR k * v.
Proof.
  unfold Spec.Rsum. induction k as [|k IH].
  - cbn. lra.
  - cbn [repeat fold_right]. rewrite IH, S_INR. lra.
Qed.

(** X14: [calculateVolumeRatio] divides the sum of the last
    [min(n, period)] volumes by [period]: on [n] equal positive volumes
    the ratio is [period / min(n, period)], that is 1 from [period]
    volumes on and more than 1 on a shorter history. *)
Theorem volume_ratio_of_constant_volume (v : R) (n period : nat) :
  0 < v -> (1 <= n)%nat -> (1 <= period)%nat ->
  calculateVolumeRatio (map Fin (repeat v n)) period
  = Fin (INR period / INR (Nat.min period n)).
Proof.
  intros Hv Hn Hp.
  unfold calculateVolumeRatio.
  rewrite last_elem_fin by (destruct n; [lia | discriminate]).
  rewrite slice_last_map, sum_fin.
  assert (Hslice : Arr.slice_last period (repeat v n)
                   = repeat v (Nat.min period n)).
  { destruct period as [|k]; [lia |]. cbn [Arr.slice_last].
    rewrite repeat_length.
    clear. revert n. generalize (S k) as q. intros q n.
    assert (H : forall s m, skipn s (repeat v m) = repeat v (m - s)).
    { intros s. induction s as [|s IH]; intros [|m]; cbn; auto. }
    rewrite H. f_equal. lia. }
  rewrite Hslice, Rsum_repeat.
  assert (Hlast : last (repeat v n) 0 = v).
  { destruct n as [|n]; [lia |]. clear.
    induction n as [|n IH]; [reflexivity |].
    change (last (v :: repeat v (S n)) 0) with (last (repeat v (S n)) 0).
    exact IH. }
  rewrite Hlast.
  assert (Hk : 0 < INR (Nat.min period n)) by (apply lt_0_INR; lia).
  assert (Hq : 0 < INR period) by (apply lt_0_INR; lia).
  unfold of_nat. rewrite div_fin by lra.
  rewrite div_fin.
  - f_equal. field. repeat split; lra.
  - apply Rgt_not_eq. unfold Rdiv.
    apply Rmult_lt_0_compat; [nra | apply Rinv_0_lt_compat; assumption].
Qed.

Lemma volume_ratio_of_constant_volume_witness :
  calculateVolumeRatio (map Fin (repeat 1000 5)) 20
  = Fin (INR 20 / INR (Nat.min 20 5)).
Proof.
  apply (volume_ratio_of_constant_volume 1000 5 20); try lra; lia.
Defined.

End Volume.

(* ================================================================== *)
(** * Sentiment, timeframe confidence and the simple price bands       *)
(* ================================================================== *)

Section SentimentAndBands.

Import Analysis.

Lemma count_sentiment_le (label : string) (items : list string) :
  (count_sentiment label items <= List.length items)%nat.
Proof.
  unfold count_sentiment. induction items as [|x items IH]; cbn; [lia |].
  destruct (String.eqb label x); cbn; lia.
Qed.

(** X15: the news score is the percentage of positive items, between 0
    and 100, and the social score is the same number; an empty list gives
    0, 0 and "Neutral", and a failed request 50, 50 and "Neutral". *)
Theorem market_sentiment_scores (newsItems : list string) :
  (exists s : R,
      ms_newsScore (getMarketSentiment (Some newsItems)) = Fin s
      /\ ms_socialScore (getMarketSentiment (Some newsItems)) = Fin s
      /\ 0 <= s <= 100
      /\ s * INR (Nat.max 1 (List.length newsItems))
         = 100 * INR (count_sentiment "positive" newsItems))
  /\ getMarketSentiment (Some []) = mkMarketSentiment (Fin 0) (Fin 0) "Neutral"
  /\ getMarketSentiment None = mkMarketSentiment (Fin 50) (Fin 50) "Neutral".
Proof.
  split; [| split].
  - unfold getMarketSentiment; cbn [ms_newsScore ms_socialScore].
    set (pos := count_sentiment "positive" newsItems).
    set (total := match List.length newsItems with O => 1%nat | n => n end).
    assert (Htotal : total = Nat.max 1 (List.length newsItems))
      by (unfold total; destruct (List.length newsItems); lia).
    assert (Hpos : (pos <= total)%nat).
    { pose proof (count_sentiment_le "positive" newsItems). fold pos in H.
      lia. }
    assert (Ht : 0 < INR total) by (apply lt_0_INR; lia).
    assert (Hp : 0 <= INR pos <= INR total)
      by (split; [apply pos_INR | apply le_INR; assumption]).
    unfold of_nat. rewrite div_fin by lra. cbn [mul].
    assert (Hs : 0 <= INR pos / INR total * 100 <= 100).
    { assert (0 <= INR pos / INR total <= 1).
      { split.
        - unfold Rdiv. apply Rmult_le_pos; [lra |].
          apply Rlt_le, Rinv_0_lt_compat; assumption.
        - apply Rmult_le_reg_r with (INR total); [assumption |].
          unfold Rdiv. rewrite Rmult_assoc, Rinv_l by lra. lra. }
      lra. }
    exists (INR pos / INR total * 100).
    split; [reflexivity |]. split.
    + rewrite max_fin, min_fin. f_equal.
      rewrite Rmax_right by lra. apply Rmin_right; lra.
    + split; [exact Hs |]. rewrite <- Htotal. field. lra.
  - unfold getMarketSentiment, count_sentiment.
    cbn [filter List.length Nat.ltb Nat.leb].
    unfold of_nat. rewrite div_fin by (cbn; lra). cbn [mul].
    replace (INR 0 / INR 1 * 100) with 0 by (cbn; lra).
    rewrite max_fin, min_fin.
    rewrite Rmax_left by lra. rewrite Rmin_right by lra. reflexivity.
  - reflexivity.
Qed.

Lemma truthy_zero : truthy (Fin 0) = false.
Proof. unfold truthy. rewrite Reqb_true; reflexivity. Qed.

(** X16: when no news item is positive (all of them negative, or none at
    all) both scores are 0, which [calculateConfidence] replaces by 50:
    the sentiment part of the confidence is then the one of a failed
    request, 50. *)
Theorem no_positive_news_scored_as_neutral (newsItems : list string) :
  count_sentiment "positive" newsItems = 0%nat ->
  sentimentConfidence (as_sentiment (getMarketSentiment (Some newsItems)))
  = Fin 50
  /\ sentimentConfidence (as_sentiment (getMarketSentiment None)) = Fin 50.
Proof.
  intros Hzero. split.
  - unfold sentimentConfidence, as_sentiment, getMarketSentiment.
    cbn [newsScore socialScore ms_newsScore ms_socialScore].
    rewrite Hzero.
    assert (Hscore :
      (of_nat 0 [/] of_nat (match List.length newsItems with
                            | O => 1%nat | n => n end)) [*] Fin 100 = Fin 0).
    { unfold of_nat. rewrite div_fin.
      - cbn. f_equal. lra.
      - apply not_0_INR. destruct (List.length newsItems); lia. }
    rewrite Hscore.
    replace (Math_min (Fin 100) (Math_max (Fin 0) (Fin 0))) with (Fin 0).
    + unfold or_default. rewrite truthy_zero.
      cbn. rewrite Reqb_false by lra. f_equal; lra.
    + rewrite max_fin, min_fin. f_equal.
      rewrite Rmax_left by lra. rewrite Rmin_right by lra. reflexivity.
  - unfold sentimentConfidence, as_sentiment, getMarketSentiment.
    cbn [newsScore socialScore ms_newsScore ms_socialScore or_default truthy].
    rewrite Reqb_false by lra. cbn.
    rewrite Reqb_false by lra. f_equal; lra.
Qed.

Lemma no_positive_news_scored_as_neutral_witness :
  sentimentConfidence
    (as_sentiment
       (getMarketSentiment (Some ["negative"; "negative"; "neutral"]%string)))
  = Fin 50
  /\ sentimentConfidence (as_sentiment (getMarketSentiment None)) = Fin 50.
Proof.
  apply (no_positive_news_scored_as_neutral
           ["negative"; "negative"; "neutral"]%string).
  reflexivity.
Defined.

(** The confidence of finite inputs, as a real between 30 and 95. *)
Lemma confidence_of_finite_inputs (r v s h vr vi : R) (i : string)
  (sentiment : Sentiment) :
  Spec.finite_score (newsScore sentiment) = true ->
  Spec.finite_score (socialScore sentiment) = true ->
  exists c : R,
    calculateConfidence (Fin r) (mkMACD (Fin v) (Fin s) (Fin h) i) (Fin vr)
      sentiment (Fin vi) = Fin c
    /\ 30 <= c <= 95.
Proof.
  intros Hn Hso.
  unfold calculateConfidence.
  destruct (rsiConfidence_fin r) as [a ->].
  destruct (macdConfidence_fin v s h i) as [b ->].
  destruct (volumeConfidence_fin vr) as [c ->].
  destruct (sentimentConfidence_fin sentiment Hn Hso) as [d ->].
  rewrite div_fin by lra. cbn [sub neg add]. rewrite max_fin. cbn [mul add].
  apply clamp_bounds; [lra | discriminate].
Qed.

(** X17: the confidences of the three timeframes never increase with
    the horizon and stay between 30 and 95:
    [30 <= 30D <= 7D <= 24H <= 95] on finite inputs. *)
Theorem timeframe_confidence_decays (r v s h vr vi : R) (i : string)
  (sentiment : Sentiment) :
  Spec.finite_score (newsScore sentiment) = true ->
  Spec.finite_score (socialScore sentiment) = true ->
  let shortTerm :=
    calculateConfidence (Fin r) (mkMACD (Fin v) (Fin s) (Fin h) i) (Fin vr)
      sentiment (Fin vi) in
  exists c24 c7 c30 : R,
    shortTerm = Fin c24
    /\ midTermConfidence shortTerm = Fin c7
    /\ longTermConfidence shortTerm = Fin c30
    /\ 30 <= c30 /\ c30 <= c7 /\ c7 <= c24 /\ c24 <= 95.
Proof.
  intros Hn Hso shortTerm.
  destruct (confidence_of_finite_inputs r v s h vr vi i sentiment Hn Hso)
    as [c [Hc Hb]].
  unfold shortTerm. rewrite Hc.
  unfold midTermConfidence, longTermConfidence. cbn [mul].
  rewrite !max_fin.
  exists c, (Rmax 30 (c * 0.9)), (Rmax 30 (c * 0.8)).
  repeat split; try reflexivity.
  - apply Rmax_l.
  - unfold Rmax. destruct (Rle_dec 30 (c * 0.8)), (Rle_dec 30 (c * 0.9)); lra.
  - unfold Rmax. destruct (Rle_dec 30 (c * 0.9)); lra.
  - lra.
Qed.

Lemma timeframe_confidence_decays_witness :
  let shortTerm :=
    calculateConfidence (Fin 75) (mkMACD (Fin 1) (Fin 2) (Fin (-1)) EmptyString)
      (Fin 1.2) (mkSentiment (Some (Fin 80)) None) (Fin 35) in
  exists c24 c7 c30 : R,
    shortTerm = Fin c24
    /\ midTermConfidence shortTerm = Fin c7
    /\ longTermConfidence shortTerm = Fin c30
    /\ 30 <= c30 /\ c30 <= c7 /\ c7 <= c24 /\ c24 <= 95.
Proof.
  apply (timeframe_confidence_decays 75 1 2 (-1) 1.2 35 EmptyString
           (mkSentiment (Some (Fin 80)) None)); reflexivity.
Defined.

(** X18: the price bands that [getDetailedAnalysis] and [getFullAnalysis]
    build are symmetric about the current price and widen with the
    horizon: for a price and a volatility that are not negative,
    [30D low <= 7D low <= 24H low <= price <= 24H high <= 7D high <=
    30D high].  The volatility is the percentage that
    [calculateVolatility] returns, so the 24H low is negative as soon as
    it exceeds 10. *)
Theorem simple_bands_are_nested (cp vol : R) :
  0 <= cp -> 0 <= vol ->
  exists l1 h1 l2 h2 l3 h3 : R,
    priceTargets (Fin cp) (Fin vol)
    = mkBands (mkBand (Fin l1) (Fin h1)) (mkBand (Fin l2) (Fin h2))
              (mkBand (Fin l3) (Fin h3))
    /\ l3 <= l2 /\ l2 <= l1 /\ l1 <= cp /\ cp <= h1 /\ h1 <= h2 /\ h2 <= h3
    /\ h1 - cp = cp - l1 /\ h2 - cp = cp - l2 /\ h3 - cp = cp - l3
    /\ (0 < cp -> (l1 < 0 <-> 10 < vol)).
Proof.
  intros Hcp Hvol.
  unfold priceTargets. cbn [mul sub neg add].
  do 6 eexists. split; [reflexivity |].
  repeat split; try nra.
Qed.

Lemma simple_bands_are_nested_witness :
  exists l1 h1 l2 h2 l3 h3 : R,
    priceTargets (Fin 100) (Fin 50)
    = mkBands (mkBand (Fin l1) (Fin h1)) (mkBand (Fin l2) (Fin h2))
              (mkBand (Fin l3) (Fin h3))
    /\ l3 <= l2 /\ l2 <= l1 /\ l1 <= 100 /\ 100 <= h1 /\ h1 <= h2 /\ h2 <= h3
    /\ h1 - 100 = 100 - l1 /\ h2 - 100 = 100 - l2 /\ h3 - 100 = 100 - l3
    /\ (0 < 100 -> (l1 < 0 <-> 10 < 50)).
Proof.
  apply (simple_bands_are_nested 100 50); lra.
Defined.

End SentimentAndBands.

(* ================================================================== *)
(** * The recommendation of the strategy generator                     *)
(* ================================================================== *)

Section Recommendation.

Import StrategyGenerator.

Lemma Int_part_ge (z : Z) (x : R) : IZR z <= x -> (z <= Int_part x)%Z.
Proof.
  intros H. destruct (base_Int_part x) as [_ Hx].
  assert (H1 : IZR (z - 1) < IZR (Int_part x)) by (rewrite minus_IZR; lra).
  apply lt_IZR in H1. lia.
Qed.

Lemma Int_part_le_bound (z : Z) (x : R) : x < IZR z + 1 -> (Int_part x <= z)%Z.
Proof.
  intros H. destruct (base_Int_part x) as [Hx _].
  assert (H1 : IZR (Int_part x) < IZR (z + 1)) by (rewrite plus_IZR; lra).
  apply lt_IZR in H1. lia.
Qed.

(** [Math.round] keeps a number between two integers between them. *)
Lemma round_between (lo hi : Z) (x : R) :
  IZR lo <= x <= IZR hi ->
  exists r : R, Math_round (Fin x) = Fin r /\ IZR lo <= r <= IZR hi.
Proof.
  intros [Hlo Hhi]. unfold Math_round.
  eexists; split; [reflexivity |]. split; apply IZR_le.
  - apply Int_part_ge. lra.
  - apply Int_part_le_bound. lra.
Qed.

(** Rounding to two decimals does not go under an integer bound. *)
Lemma round_cents_ge (lo : Z) (x : R) :
  IZR lo <= x ->
  exists r : R,
    Math_round (Fin x [*] Fin 100) [/] Fin 100 = Fin r /\ IZR lo <= r.
Proof.
  intros Hlo. cbn [mul Math_round]. rewrite div_fin by lra.
  eexists; split; [reflexivity |].
  assert (H : (lo * 100 <= Int_part (x * 100 + / 2))%Z).
  { apply Int_part_ge. rewrite mult_IZR. lra. }
  apply IZR_le in H. rewrite mult_IZR in H. lra.
Qed.

(** The weighted confidence of the generator, on finite strengths. *)
Lemma strategy_confidence_bounds (rsi macd : Indicator) (pr : option string)
  (a b : R) (vol : option Volatility) (ph : option string)
  (kl : option KeyLevels) :
  exists c : R,
    calculateConfidence
      (Some (mkTechnicalSignals (Some (mkMomentum (Some rsi) (Some macd)))
               (Some (mkTrend pr (Some (Fin a)))) vol))
      (Some (mkMarketCondition ph (Some (Fin b)) kl))
    = Normal (Fin c)
    /\ 30 <= c <= 95.
Proof.
  unfold calculateConfidence.
  cbn [prop prop2 bind trend t_strength strength momentum m_rsi m_macd
       to_num mul].
  set (ms := (if to_num (ind_value rsi) [>] Fin 50 then Fin 60 else Fin 40)
             [+] (if to_num (ind_value macd) [>] Fin 0
                  then Fin 10 else Fin (-10))).
  assert (Hms : exists m, ms = Fin m).
  { unfold ms. destruct (to_num (ind_value rsi) [>] Fin 50),
      (to_num (ind_value macd) [>] Fin 0); cbn; eauto. }
  destruct Hms as [m ->]. cbn [mul add].
  destruct (clamp_bounds 30 95 (Fin (a * 100 * 0.4 + b * 100 * 0.3 + m * 0.3)))
    as [c [Hc Hb]]; [lra | discriminate |].
  exists c. rewrite Hc. split; [reflexivity | exact Hb].
Qed.

Lemma min_90_of_large (x : num) :
  (x [>] Fin 70) = true ->
  exists y, Math_min (Fin 90) x = Fin y /\ 70 < y <= 90.
Proof.
  destruct x as [| | |r]; cbn; try discriminate; intros H.
  - exists 90. split; [reflexivity | lra].
  - rewrite Rltb_spec in H. unfold Rltb.
    destruct (Rlt_dec r 90); eexists; split; try reflexivity; lra.
Qed.

Lemma min_90_of_small (x : num) :
  (x [<] Fin 30) = true ->
  exists y, Math_min (Fin 90) (Fin 100 [-] x) = Fin y /\ 70 < y <= 90.
Proof.
  destruct x as [| | |r]; cbn; try discriminate; intros H.
  - exists 90. split; [reflexivity | lra].
  - rewrite Rltb_spec in H. unfold Rltb.
    destruct (Rlt_dec (100 + - r) 90); eexists; split; try reflexivity; lra.
Qed.

(** X19: when the objects it reads are present and the two strengths are
    finite, [determineRecommendation] returns one of "Take Profit",
    "Buy", "Sell" and "Hold" with a confidence between 35 and 95, the
    MACD bonus included. *)
Theorem recommendation_label_and_confidence
  (rsi macd : Indicator) (pr : option string) (a b : R)
  (vol : option Volatility) (ph : option string) (kl : option KeyLevels) :
  exists (label : string) (c : R),
    determineRecommendation
      (Some (mkTechnicalSignals (Some (mkMomentum (Some rsi) (Some macd)))
               (Some (mkTrend pr (Some (Fin a)))) vol))
      (Some (mkMarketCondition ph (Some (Fin b)) kl))
    = Normal (label, Fin c)
    /\ In label ["Take Profit"; "Buy"; "Sell"; "Hold"]%string
    /\ 35 <= c <= 95.
Proof.
  destruct (strategy_confidence_bounds rsi macd pr a b vol ph kl)
    as [c0 [Hc0 Hb0]].
  unfold determineRecommendation.
  cbn [prop prop2 bind momentum m_rsi m_macd trend primary phase].
  rewrite Hc0. cbn [bind].
  destruct (round_between 30 95 c0 Hb0) as [c1 [-> Hb1]].
  destruct (clamp_bounds 35 95 (Fin c1)) as [k [-> Hk]];
    [lra | discriminate |].
  set (rsiValue := rsi_value_or_50 _).
  set (trendB := includes _ "bullish").
  set (trendR := includes (toLowerCase (str_or pr "neutral")) "bearish").
  set (macdB := includes _ "bullish").
  set (macdR := includes (toLowerCase (macd_signal_or_empty _)) "bearish").
  set (phA := includes _ "accumulation").
  set (phD := includes _ "distribution").
  assert (Hfinal : forall (label : string) (x : num),
             In label ["Take Profit"; "Buy"; "Sell"; "Hold"]%string ->
             (exists r, x = Fin r /\ 35 <= r <= 95) ->
             exists (l : string) (c : R),
               Normal (label,
                       Math_min (Fin 95)
                         (Math_round
                            ((if macdB && String.eqb label "Buy"
                              then x [+] Fin 8
                              else if macdR && String.eqb label "Sell"
                                   then x [+] Fin 8 else x) [*] Fin 100)
                          [/] Fin 100))
               = Normal (l, Fin c)
               /\ In l ["Take Profit"; "Buy"; "Sell"; "Hold"]%string
               /\ 35 <= c <= 95).
  { intros label x Hl [r [-> Hr]].
    assert (Hx : exists y,
               (if macdB && String.eqb label "Buy" then Fin r [+] Fin 8
                else if macdR && String.eqb label "Sell"
                     then Fin r [+] Fin 8 else Fin r) = Fin y /\ 35 <= y).
    { destruct (macdB && String.eqb label "Buy");
        [cbn; eexists; split; [reflexivity | lra] |].
      destruct (macdR && String.eqb label "Sell");
        cbn; eexists; split; try reflexivity; lra. }
    destruct Hx as [y [-> Hy]].
    destruct (round_cents_ge 35 y Hy) as [z [-> Hz]].
    exists label, (Rmin 95 z). rewrite min_fin.
    split; [reflexivity |]. split; [exact Hl |].
    unfold Rmin. destruct (Rle_dec 95 z); lra. }
  destruct ((rsiValue [>] Fin 70) && trendB) eqn:E1.
  { apply andb_true_iff in E1. destruct E1 as [E1 _].
    destruct (min_90_of_large rsiValue E1) as [y [-> Hy]].
    apply Hfinal; [cbn; auto |].
    rewrite max_fin. eexists; split; [reflexivity |].
    unfold Rmax. destruct (Rle_dec k y); lra. }
  destruct ((rsiValue [<] Fin 30) && trendR) eqn:E2.
  { apply andb_true_iff in E2. destruct E2 as [E2 _].
    destruct (min_90_of_small rsiValue E2) as [y [-> Hy]].
    apply Hfinal; [cbn; auto |].
    rewrite max_fin. eexists; split; [reflexivity |].
    unfold Rmax. destruct (Rle_dec k y); lra. }
  assert (Hmax : forall q, 35 <= q <= 95 ->
             exists r, Math_max (Fin k) (Fin q) = Fin r /\ 35 <= r <= 95).
  { intros q Hq. rewrite max_fin. eexists; split; [reflexivity |].
    unfold Rmax. destruct (Rle_dec k q); lra. }
  destruct (trendB && (macdB || (rsiValue [>] Fin 55)));
    [apply Hfinal; [cbn; auto | apply Hmax; lra] |].
  destruct (trendR && (macdR || (rsiValue [<] Fin 45)));
    [apply Hfinal; [cbn; auto | apply Hmax; lra] |].
  destruct phA; [apply Hfinal; [cbn; auto | apply Hmax; lra] |].
  destruct phD; [apply Hfinal; [cbn; auto | apply Hmax; lra] |].
  apply Hfinal; [cbn; auto 6 | eauto].
Qed.

End Recommendation.

Section TakeProfit.

Import StrategyGenerator.



End TakeProfit.

(* ================================================================== *)
(** * When the strategy is computed, and how its levels are ordered    *)
(* ================================================================== *)

Section ComputedStrategy.

Import StrategyGenerator.

(** Reading the fields of the records that are at hand in [H], and
    splitting on the objects that may be absent. *)
Ltac open_record x :=
  match type of x with
  | MarketCondition => destruct x
  | KeyLevels => destruct x
  | TechnicalSignals => destruct x
  | Momentum => destruct x
  | Indicator => destruct x
  | Trend => destruct x
  | Volatility => destruct x
  | _ => idtac
  end.

Ltac step_through H :=
  repeat (cbn [bind prop prop2 marketCondition technicalSignals currentPrice
               keyLevels kl_support kl_resistance volatility current
               momentum m_rsi m_macd trend primary phase t_strength strength
               ind_value ind_signal] in H;
          match type of H with
          | Throw _ = Normal _ => discriminate H
          | context [prop ?o _] =>
              is_var o; let x := fresh "x" in
                        destruct o as [x|]; [open_record x |]
          | context [prop2 ?o _ _] =>
              is_var o; let x := fresh "x" in
                        destruct o as [x|]; [open_record x |]
          | context [match ?o with Some _ => _ | None => _ end] =>
              is_var o; let x := fresh "x" in
                        destruct o as [x|]; [open_record x |]
          | context [let '(_, _) := ?X in _] => destruct X
          | context [bind (if ?b then _ else _) _] => destruct b
          | context [if ?b then bind _ _ else _] => destruct b
          end).

(** X21: the [try] block of [generateStrategy] completes, and the promise
    resolves with a strategy that was computed, exactly when the price is
    valid and every object it reads is present; in every other case the
    caller receives the default strategy.  A missing support or
    resistance is among those cases, although the entries have a fallback
    for it: the rationale calls [toFixed] on it. *)
Theorem strategy_computed_iff_complete (data : Data) :
  ((exists s, generateStrategy_try data = Normal s)
   <-> Spec.complete_input data)
  /\ (~ Spec.complete_input data ->
      generateStrategy data = Resolved getDefaultStrategy).
Proof.
  assert (Hiff : (exists s, generateStrategy_try data = Normal s)
                 <-> Spec.complete_input data).
  { split.
    - intros [s Hs]. destruct data as [cp mc ts].
      unfold Spec.complete_input. cbn [currentPrice marketCondition
                                       technicalSignals].
      unfold generateStrategy_try in Hs. cbn [currentPrice] in Hs.
      destruct (invalid_price cp) eqn:Hvalid; [discriminate |].
      split; [reflexivity |].
      unfold calculateConservativeEntry, calculateAggressiveEntry,
        determineRecommendation, calculateConfidence,
        calculateStopLossDistance, calculateTargetDistance,
        generateRationale, determineTimeframe in Hs.
      step_through Hs.
      all: repeat eexists.
    - intros [Hvalid [ph [st [ks [kr [rsi [macd [tr [cur [Hmc Hts]]]]]]]]]].
      destruct data as [cp mc ts].
      cbn [currentPrice marketCondition technicalSignals] in *.
      subst mc ts.
      destruct cp as [price|]; [| discriminate].
      destruct (complete_input_resolves price ph st ks kr rsi macd tr cur
                  Hvalid) as [s [Hs _]].
      exists s. exact Hs. }
  split; [exact Hiff |].
  intros Hnot. unfold generateStrategy.
  destruct (generateStrategy_try data) as [s | e] eqn:Htry.
  - exfalso. apply Hnot, Hiff. exists s. reflexivity.
  - reflexivity.
Qed.

End ComputedStrategy.

Section OrderedLevels.

Import StrategyGenerator.

Lemma scaled_nonneg (d : nat) (r : R) :
  0 <= IZR (Int_part (Rabs r * 10 ^ d + / 2)) / 10 ^ d.
Proof.
  assert (Hp : 0 < 10 ^ d) by (apply pow_lt; lra).
  unfold Rdiv. apply Rmult_le_pos.
  - apply (IZR_le 0). apply Int_part_ge.
    pose proof (Rabs_pos r). cbn. nra.
  - apply Rlt_le, Rinv_0_lt_compat; assumption.
Qed.

Lemma scaled_mono (d : nat) (x y : R) :
  0 <= x <= y ->
  IZR (Int_part (x * 10 ^ d + / 2)) / 10 ^ d
  <= IZR (Int_part (y * 10 ^ d + / 2)) / 10 ^ d.
Proof.
  intros Hxy.
  assert (Hp : 0 < 10 ^ d) by (apply pow_lt; lra).
  unfold Rdiv. apply Rmult_le_compat_r.
  - apply Rlt_le, Rinv_0_lt_compat; assumption.
  - apply IZR_le, Int_part_le. nra.
Qed.

(** Rounding to [d] decimals keeps the order of two numbers. *)
Lemma toFixed_mono (d : nat) (x y : R) :
  x <= y -> Spec.le_num (toFixed d (Fin x)) (toFixed d (Fin y)).
Proof.
  intros Hxy. unfold Spec.le_num, toFixed. cbn [leb].
  apply Rleb_true. unfold Rltb.
  destruct (Rlt_dec x 0), (Rlt_dec y 0).
  - rewrite !Rabs_left by assumption.
    pose proof (scaled_mono d (- y) (- x) ltac:(lra)). lra.
  - pose proof (scaled_nonneg d x). pose proof (scaled_nonneg d y). lra.
  - lra.
  - rewrite !Rabs_right by lra. apply scaled_mono. lra.
Qed.

(** X22: in a computed strategy, for a positive price and a strength that
    is absent or not negative, the levels come in order:
    [wide <= normal <= tight <= moderate entry <= primary <= secondary <=
    final], the moderate entry being the price rounded to two
    decimals. *)
Theorem computed_levels_are_ordered
  (p sigma : R) (ph : string) (st : option num) (ks kr : num)
  (rsi macd : Indicator) (tr : Trend) (cur : option num) :
  0 < p -> or_else st (Fin 0.5) = Fin sigma -> 0 <= sigma ->
  let mc := mkMarketCondition (Some ph) st
              (Some (mkKeyLevels (Some ks) (Some kr))) in
  let ts := mkTechnicalSignals (Some (mkMomentum (Some rsi) (Some macd)))
              (Some tr) (Some (mkVolatility cur)) in
  exists s : TradingStrategy,
    generateStrategy (mkData (Some (Fin p)) (Some mc) (Some ts)) = Resolved s
    /\ moderate (entries s) = toFixed 2 (Fin p)
    /\ Spec.le_num (wide (stopLoss s)) (normal (stopLoss s))
    /\ Spec.le_num (normal (stopLoss s)) (tight (stopLoss s))
    /\ Spec.le_num (tight (stopLoss s)) (moderate (entries s))
    /\ Spec.le_num (moderate (entries s)) (target_primary (targets s))
    /\ Spec.le_num (target_primary (targets s)) (target_secondary (targets s))
    /\ Spec.le_num (target_secondary (targets s)) (target_final (targets s)).
Proof.
  intros Hp Hsigma Hs0 mc ts.
  assert (Hvalid : invalid_price (Some (Fin p)) = false).
  { unfold invalid_price, falsy, truthy.
    rewrite Reqb_false by lra. reflexivity. }
  unfold generateStrategy, generateStrategy_try.
  cbn [currentPrice]. rewrite Hvalid.
  unfold mc, ts.
  cbn [marketCondition technicalSignals to_num prop prop2 bind keyLevels
       calculateConservativeEntry calculateAggressiveEntry kl_support
       kl_resistance volatility current].
  unfold determineRecommendation, calculateConfidence.
  cbn [prop prop2 bind momentum m_rsi m_macd trend primary phase t_strength
       strength ind_value ind_signal].
  match goal with
  | |- context [let '(_, _) := ?X in _] => destruct X as [rec conf]
  end.
  cbn [bind].
  unfold calculateStopLossDistance, calculateTargetDistance,
    generateRationale, determineTimeframe.
  cbn [prop prop2 bind momentum m_rsi m_macd trend primary phase t_strength
       strength ind_value ind_signal keyLevels kl_support kl_resistance
       volatility current].
  rewrite Hsigma.
  set (tau := if String.eqb (toLowerCase ph) "bull market" then 1.5
              else if String.eqb (toLowerCase ph) "bear market" then 0.5
                   else 1).
  assert (Htau : 0 < tau).
  { unfold tau. destruct (String.eqb (toLowerCase ph) "bull market");
      [lra |].
    destruct (String.eqb (toLowerCase ph) "bear market"); lra. }
  cbn [mul]. rewrite !div_fin by lra. cbn [sub neg add mul].
  assert (Hst : 0 <= sigma * 2 / 100 /\ sigma * 2 / 100 <= sigma * 3 / 100
               /\ sigma * 3 / 100 <= sigma * 5 / 100) by lra.
  assert (Htg : 0 <= 3 * sigma * tau / 100
               /\ 3 * sigma * tau / 100 <= 5 * sigma * tau / 100
               /\ 5 * sigma * tau / 100 <= 8 * sigma * tau / 100).
  { assert (0 <= sigma * tau) by (apply Rmult_le_pos; lra).
    repeat split; nra. }
  destruct (to_num (t_strength tr) [>] Fin 0.7); cbn [bind];
    (eexists; split; [reflexivity |]);
    cbn [entries moderate stopLoss wide normal tight targets target_primary
         target_secondary target_final];
    (split; [reflexivity |]);
    repeat split; apply toFixed_mono; nra.
Qed.

Lemma computed_levels_are_ordered_witness :
  let mc := mkMarketCondition (Some "Bull Market"%string) (Some (Fin 0.8))
              (Some (mkKeyLevels (Some (Fin 95)) (Some (Fin 110)))) in
  let ind := mkIndicator (Some (Fin 75)) (Some "bullish"%string) in
  let ts := mkTechnicalSignals (Some (mkMomentum (Some ind) (Some ind)))
              (Some (mkTrend (Some "bullish"%string) (Some (Fin 0.6))))
              (Some (mkVolatility (Some (Fin 30)))) in
  exists s : TradingStrategy,
    generateStrategy (mkData (Some (Fin 100)) (Some mc) (Some ts)) = Resolved s
    /\ moderate (entries s) = toFixed 2 (Fin 100)
    /\ Spec.le_num (wide (stopLoss s)) (normal (stopLoss s))
    /\ Spec.le_num (normal (stopLoss s)) (tight (stopLoss s))
    /\ Spec.le_num (tight (stopLoss s)) (moderate (entries s))
    /\ Spec.le_num (moderate (entries s)) (target_primary (targets s))
    /\ Spec.le_num (target_primary (targets s)) (target_secondary (targets s))
    /\ Spec.le_num (target_secondary (targets s)) (target_final (targets s)).
Proof.
  apply (computed_levels_are_ordered 100 0.8 "Bull Market" (Some (Fin 0.8))
           (Fin 95) (Fin 110)
           (mkIndicator (Some (Fin 75)) (Some "bullish"%string))
           (mkIndicator (Some (Fin 75)) (Some "bullish"%string))
           (mkTrend (Some "bullish"%string) (Some (Fin 0.6)))
           (Some (Fin 30))).
  - lra.
  - unfold or_else, truthy. rewrite Reqb_false by lra. reflexivity.
  - lra.
Defined.

End OrderedLevels.

Section Entries.

Import StrategyGenerator.

(** X23: with a finite price and volatility that are not negative, the
    conservative entry is at least the support it was given (or its
    fallback, 95% of the price), never more than 5% under the price and
    never above the larger of support and price; the aggressive entry is
    at most the resistance (or its fallback, 105% of the price), never
    more than 3% above the price and never under the smaller of
    resistance and price. *)
Theorem entries_stay_near_price
  (p v sup res : R) (ks kr : option num) (mo : option Momentum)
  (tr : option Trend) :
  0 <= p -> 0 <= v ->
  or_else ks (Fin (p * 0.95)) = Fin sup ->
  or_else kr (Fin (p * 1.05)) = Fin res ->
  let ts := Some (mkTechnicalSignals mo tr
                    (Some (mkVolatility (Some (Fin v))))) in
  let kl := Some (mkKeyLevels ks kr) in
  exists c a : R,
    calculateConservativeEntry (Fin p) ts kl = Normal (Fin c)
    /\ calculateAggressiveEntry (Fin p) ts kl = Normal (Fin a)
    /\ sup <= c /\ p * 0.95 <= c /\ c <= Rmax sup p
    /\ a <= res /\ a <= p * 1.03 /\ Rmin res p <= a.
Proof.
  intros Hp Hv Hsup Hres ts kl.
  unfold calculateConservativeEntry, calculateAggressiveEntry, ts, kl.
  cbn [prop prop2 bind kl_support kl_resistance volatility current to_num mul].
  rewrite Hsup, Hres.
  rewrite !div_fin by lra. rewrite !min_fin.
  cbn [sub neg add mul]. rewrite max_fin, min_fin.
  do 2 eexists. split; [reflexivity |]. split; [reflexivity |].
  assert (H5 : 0 <= Rmin 0.05 (v / 100) <= 0.05).
  { unfold Rmin. destruct (Rle_dec 0.05 (v / 100)); lra. }
  assert (H3 : 0 <= Rmin 0.03 (v / 100) <= 0.03).
  { unfold Rmin. destruct (Rle_dec 0.03 (v / 100)); lra. }
  unfold Rmax, Rmin in *.
  repeat match goal with
         | |- context [Rle_dec ?x ?y] => destruct (Rle_dec x y)
         end; repeat split; nra.
Qed.

Lemma entries_stay_near_price_witness :
  let ts := Some (mkTechnicalSignals None None
                    (Some (mkVolatility (Some (Fin 30))))) in
  let kl := Some (mkKeyLevels (Some (Fin 95)) None) in
  exists c a : R,
    calculateConservativeEntry (Fin 100) ts kl = Normal (Fin c)
    /\ calculateAggressiveEntry (Fin 100) ts kl = Normal (Fin a)
    /\ 95 <= c /\ 100 * 0.95 <= c /\ c <= Rmax 95 100
    /\ a <= 100 * 1.05 /\ a <= 100 * 1.03 /\ Rmin (100 * 1.05) 100 <= a.
Proof.
  apply (entries_stay_near_price 100 30 95 (100 * 1.05) (Some (Fin 95)) None
           None None).
  - lra.
  - lra.
  - unfold or_else, truthy. rewrite Reqb_false by lra. reflexivity.
  - reflexivity.
Defined.

End Entries.

(* ================================================================== *)
(** * The second variant on a short history                            *)
(* ================================================================== *)

Section ShortHistory.

Import AnalysisGemini.

(** X24: the second variant's [calculateSMA] divides by [period] even
    when fewer prices exist, so it is the first variant's average scaled
    by [min(period, n) / period]; with at most 20 positive prices the
    20-day and the 50-day averages hold the same sum and the momentum of
    [calculatePriceTargets] is 1.5 whatever the prices. *)
Theorem gemini_sma_and_momentum_of_short_history (ps : list R) :
  ps <> [] -> Forall (fun p => 0 < p) ps ->
  (forall period : nat, (0 < period)%nat ->
     exists a b : R,
       Analysis.calculateSMA (map Fin ps) period = Fin a
       /\ calculateSMA (map Fin ps) period = Fin b
       /\ b * INR period = a * INR (Nat.min period (List.length ps)))
  /\ ((List.length ps <= 20)%nat -> momentum (map Fin ps) = Fin 1.5).
Proof.
  intros Hne Hpos. split.
  - intros period Hk.
    pose proof (sma_of_prices ps period Hne Hk) as Ha.
    pose proof (slice_last_length period ps Hk) as Hlen.
    rewrite Ha, calculateSMA_fin by assumption.
    do 2 eexists. split; [reflexivity |]. split; [reflexivity |].
    unfold Spec.mean. rewrite Hlen.
    assert (0 < INR period) by (apply lt_0_INR; assumption).
    assert (0 < INR (Nat.min period (List.length ps))).
    { apply lt_0_INR. destruct ps; [contradiction | cbn [List.length]; lia]. }
    field. split; lra.
  - intros Hlen. unfold momentum.
    rewrite !calculateSMA_fin by lia.
    rewrite !slice_last_all by lia.
    pose proof (Rsum_positive ps Hne Hpos) as Hsum.
    replace (INR 20) with 20 by (rewrite INR_IZR_INZ; reflexivity).
    replace (INR 50) with 50 by (rewrite INR_IZR_INZ; reflexivity).
    cbn [sub neg add]. rewrite div_fin by lra.
    match goal with
    | |- Fin ?x = Fin ?y =>
        assert (E : x = 3 / 2) by (field; lra);
        rewrite E; apply f_equal; lra
    end.
Qed.

Lemma gemini_sma_and_momentum_of_short_history_witness :
  (forall period : nat, (0 < period)%nat ->
     exists a b : R,
       Analysis.calculateSMA (map Fin [100; 102; 101]) period = Fin a
       /\ calculateSMA (map Fin [100; 102; 101]) period = Fin b
       /\ b * INR period
          = a * INR (Nat.min period (List.length [100; 102; 101])))
  /\ ((List.length [100; 102; 101] <= 20)%nat ->
      momentum (map Fin [100; 102; 101]) = Fin 1.5).
Proof.
  apply (gemini_sma_and_momentum_of_short_history [100; 102; 101]).
  - discriminate.
  - repeat constructor; lra.
Defined.

End ShortHistory.

Section VolatilityIndex.

Import AnalysisGemini.

Lemma skipn_nth_cons (ps : list R) (k : nat) :
  (k < List.length ps)%nat -> skipn k ps = nth k ps 0 :: skipn (S k) ps.
Proof.
  revert ps. induction k as [|k IH]; intros [|p ps] Hk; cbn in *; try lia.
  - reflexivity.
  - apply IH. lia.
Qed.

(** The array [returns] that the loop of [calculateVolatilityIndex]
    builds, on positive prices. *)
Lemma returns_loop_fin (ps : list R) :
  Forall (fun p => 0 < p) ps ->
  forall (count start : nat) (acc : list R),
    (1 <= start)%nat -> (start + count <= List.length ps)%nat ->
    Arr.for_loop start count
      (fun i returns =>
         returns ++ [Math_log (Arr.get (map Fin ps) i
                               [/] Arr.get_pred (map Fin ps) i)])
      (map Fin acc)
    = map Fin (acc ++ firstn count
                        (Spec.log_returns_from (nth (start - 1) ps 0)
                           (skipn start ps))).
Proof.
  intros Hpos count.
  induction count as [|count IH]; intros start acc Hstart Hend.
  - cbn [Arr.for_loop firstn]. rewrite app_nil_r. reflexivity.
  - cbn [Arr.for_loop].
    destruct start as [|j]; [lia |].
    cbn [Arr.get_pred]. rewrite !get_fin by lia.
    rewrite Forall_forall in Hpos.
    assert (Hprev : 0 < nth j ps 0) by (apply Hpos, nth_In; lia).
    assert (Hcur : 0 < nth (S j) ps 0) by (apply Hpos, nth_In; lia).
    rewrite div_fin by lra.
    rewrite log_fin by (apply Rdiv_lt_0_compat; assumption).
    change ([Fin (ln (nth (S j) ps 0 / nth j ps 0))])
      with (map Fin [ln (nth (S j) ps 0 / nth j ps 0)]).
    rewrite <- map_app.
    rewrite IH by (rewrite ?Forall_forall; auto; lia).
    f_equal. rewrite <- app_assoc. f_equal.
    replace (S j - 1)%nat with j by lia.
    replace (S (S j) - 1)%nat with (S j) by lia.
    rewrite (skipn_nth_cons ps (S j)) by lia.
    reflexivity.
Qed.

(** X25: on [n] positive prices with [2 <= n <= period + 1] the second
    variant's volatility index holds the same squared returns as the first
    variant's [calculateVolatility] but divides their sum by [period]
    instead of their number [n - 1]: it understates the volatility by the
    factor [sqrt((n - 1) / period)]. *)
Theorem volatility_index_understates_short_history (ps : list R)
  (period : nat) :
  Forall (fun p => 0 < p) ps ->
  (2 <= List.length ps)%nat -> (List.length ps <= period + 1)%nat ->
  exists a b : R,
    Analysis.calculateVolatility (map Fin ps) = Fin a
    /\ calculateVolatilityIndex (map Fin ps) period = Fin b
    /\ 0 <= b <= a
    /\ b * b * INR period = a * a * INR (List.length ps - 1).
Proof.
  intros Hpos Hn Hperiod.
  rewrite volatility_is_rms by assumption.
  unfold calculateVolatilityIndex. rewrite length_map.
  pose proof (returns_loop_fin ps Hpos (List.length ps - 1) 1 []
                ltac:(lia) ltac:(lia)) as Hloop.
  cbn [map] in Hloop. rewrite Hloop. clear Hloop.
  destruct ps as [|p0 rest]; [cbn in Hn; lia |].
  cbn [app Nat.sub nth skipn List.length] in *.
  rewrite !Nat.sub_0_r.
  rewrite firstn_all2 by (rewrite log_returns_from_length; lia).
  set (rs := Spec.log_returns_from p0 rest).
  assert (Hlen : List.length rs = List.length rest)
    by apply log_returns_from_length.
  rewrite slice_last_map.
  rewrite (slice_last_all period rs) by lia.
  unfold Arr.reduce. rewrite sum_squares_from.
  set (S2 := Spec.Rsum (map (fun x => x * x) rs)).
  assert (HS : 0 <= S2) by apply Rsum_squares_nonneg.
  assert (Hm : 0 < INR (List.length rest)) by (apply lt_0_INR; lia).
  assert (HP : 0 < INR period) by (apply lt_0_INR; lia).
  assert (HmP : INR (List.length rest) <= INR period) by (apply le_INR; lia).
  unfold of_nat. rewrite div_fin by lra.
  assert (HqP : 0 <= (0 + S2) / INR period).
  { unfold Rdiv. apply Rmult_le_pos; [lra |].
    apply Rlt_le, Rinv_0_lt_compat; assumption. }
  assert (Hqm : 0 <= S2 / INR (List.length rest)).
  { unfold Rdiv. apply Rmult_le_pos; [lra |].
    apply Rlt_le, Rinv_0_lt_compat; assumption. }
  rewrite sqrt_fin by assumption. rewrite sqrt_365_fin. cbn [mul].
  unfold Spec.root_mean_square. cbn [Spec.log_returns]. fold rs. fold S2.
  rewrite Hlen.
  do 2 eexists. split; [reflexivity |]. split; [reflexivity |].
  assert (H365 : 0 <= sqrt 365) by apply sqrt_pos.
  assert (Hle : sqrt ((0 + S2) / INR period)
                <= sqrt (S2 / INR (List.length rest))).
  { apply sqrt_le_1; try assumption.
    unfold Rdiv. replace (0 + S2) with S2 by lra.
    apply Rmult_le_compat_l; [assumption |].
    apply Rinv_le_contravar; assumption. }
  pose proof (sqrt_pos ((0 + S2) / INR period)) as HbP.
  split.
  - split.
    + apply Rmult_le_pos; [apply Rmult_le_pos |]; lra.
    + apply Rmult_le_compat_r; [lra |].
      apply Rmult_le_compat_r; assumption.
  - replace (sqrt ((0 + S2) / INR period) * sqrt 365 * 100
             * (sqrt ((0 + S2) / INR period) * sqrt 365 * 100) * INR period)
      with (sqrt ((0 + S2) / INR period) * sqrt ((0 + S2) / INR period)
            * (sqrt 365 * sqrt 365) * 10000 * INR period) by ring.
    replace (sqrt (S2 / INR (List.length rest)) * sqrt 365 * 100
             * (sqrt (S2 / INR (List.length rest)) * sqrt 365 * 100)
             * INR (List.length rest))
      with (sqrt (S2 / INR (List.length rest))
            * sqrt (S2 / INR (List.length rest))
            * (sqrt 365 * sqrt 365) * 10000 * INR (List.length rest)) by ring.
    rewrite !sqrt_sqrt by (assumption || lra).
    field. split; lra.
Qed.

Lemma volatility_index_understates_short_history_witness :
  exists a b : R,
    Analysis.calculateVolatility (map Fin [1; 2; 4]) = Fin a
    /\ calculateVolatilityIndex (map Fin [1; 2; 4]) 20 = Fin b
    /\ 0 <= b <= a
    /\ b * b * INR 20 = a * a * INR (List.length [1; 2; 4] - 1).
Proof.
  apply (volatility_index_understates_short_history [1; 2; 4] 20).
  - repeat constructor; lra.
  - cbn; lia.
  - cbn; lia.
Defined.

End VolatilityIndex.
